(** * flick-kiosk-web: cart store and payment screen

    A shallow embedding of the kiosk client's cart store
    (the zustand store [useCartStore]) and of the payment screen component
    ([PaymentScreen] in [src/pages], the payment session coordinator), with
    the properties its specification states about them.

    Conventions of the embedding.
    - The numbers of the cart store (identifiers, prices, quantities, and
      the totals computed from them) are JavaScript numbers: IEEE 754
      doubles, with their rounding, their infinities and [NaN].
    - The numbers the payment screen handles (delays, the reconnection
      counter, the seconds left, epoch milliseconds) are taken to be whole
      and are integers of [Z].
    - A JavaScript value that may be [undefined] or [null] is an [option];
      truthiness of strings follows JavaScript (the empty string is falsy).
    - A zustand [set(fn)] is the pure function [fn] on the store state.
    - A React event handler is a function on the component state; the calls
      it makes to collaborators outside the component (the payment store, the
      cart store, the router, the mutations of the query library, the socket
      constructor) are appended to a log of [Effect]s in program order. *)

From Stdlib Require Import ZArith String Ascii List Lia Bool DecimalString.
From Stdlib Require Import SpecFloat.
From stdpp Require Import base option list gmap strings.

Local Open Scope Z_scope.

(* ===================================================================== *)
(** * JavaScript numbers *)
(* ===================================================================== *)

(** A JavaScript number is an IEEE 754 binary64 value: [spec_float] with a
    mantissa of 53 bits, rounded to nearest, ties to even; there is one
    [NaN]. *)
Module Number.

Definition prec : Z := 53.
Definition emax : Z := 1024.

Definition number : Type := spec_float.

Definition NaN : number := S754_nan.

(** The number a whole-number literal denotes: the double nearest to
    it. *)
Definition of_Z (n : Z) : number :=
  binary_normalize prec emax n 0 false.

(** [0.5] *)
Definition half : number := S754_finite false 4503599627370496 (-53).

(** [x + y], [x * y], [x <= y], [x < y] and [x === y] *)
Definition add (x y : number) : number := SFadd prec emax x y.
Definition mul (x y : number) : number := SFmul prec emax x y.
Definition le (x y : number) : bool := SFleb x y.
Definition lt (x y : number) : bool := SFltb x y.
Definition strict_equal (x y : number) : bool := SFeqb x y.

(** [Number.MAX_SAFE_INTEGER] *)
Definition MAX_SAFE_INTEGER : Z := 2 ^ 53 - 1.

(** The whole number a number is, if it is one. *)
Definition to_Z (x : number) : option Z :=
  match x with
  | S754_zero _ => Some 0
  | S754_finite s m e =>
      if 0 <=? e then Some (cond_Zopp s (Zpos m * 2 ^ e))
      else if Zpos m mod 2 ^ (- e) =? 0
           then Some (cond_Zopp s (Zpos m / 2 ^ (- e)))
           else None
  | _ => None
  end.

(** The double of value [(-1)^s * n * 2^e] for [n] of at most 53 bits: the
    mantissa is shifted to 53 bits. *)
Definition norm (s : bool) (n : positive) (e : Z) : number :=
  let d := Zpos (digits2_pos n) in
  S754_finite s (Z.to_pos (Zpos n * 2 ^ (53 - d))) (e + d - 53).

End Number.

(* ===================================================================== *)
(** * The cart store *)
(* ===================================================================== *)

Module Cart.

Record CartItem := {
  id : Number.number;
  name : string;
  price : Number.number;
  quantity : Number.number;
}.

(** The argument of [addItem]: [{ id; name; price }]. *)
Record Product := {
  product_id : Number.number;
  product_name : string;
  product_price : Number.number;
}.

Record CartState := { items : list CartItem }.

(** [items: []] *)
Definition initial : CartState := {| items := [] |}.

Definition addItem (product : Product) (state : CartState) : CartState :=
  let productId := product_id product in
  let existingItem :=
    find (fun item => Number.strict_equal (id item) productId)
         (items state) in
  match existingItem with
  | Some _ =>
      {| items :=
           map (fun item =>
                  if Number.strict_equal (id item) productId
                  then {| id := id item; name := name item;
                          price := price item;
                          quantity :=
                            Number.add (quantity item) (Number.of_Z 1) |}
                  else item)
               (items state) |}
  | None =>
      {| items :=
           items state ++
           [ {| id := productId; name := product_name product;
                price := product_price product;
                quantity := Number.of_Z 1 |} ] |}
  end.

Definition updateQuantity (id' quantity' : Number.number)
    (state : CartState) : CartState :=
  if Number.le quantity' (Number.of_Z 0)
  then {| items :=
            List.filter
              (fun item => negb (Number.strict_equal (id item) id'))
              (items state) |}
  else {| items :=
            map (fun item =>
                   if Number.strict_equal (id item) id'
                   then {| id := id item; name := name item;
                           price := price item; quantity := quantity' |}
                   else item)
                (items state) |}.

Definition clearCart (state : CartState) : CartState := {| items := [] |}.

(** [items.reduce((total, item) => total + item.price * item.quantity, 0)] *)
Definition getTotalAmount (state : CartState) : Number.number :=
  fold_left
    (fun total item =>
       Number.add total (Number.mul (price item) (quantity item)))
    (items state) (Number.of_Z 0).

(** [items.reduce((total, item) => total + item.quantity, 0)] *)
Definition getTotalItems (state : CartState) : Number.number :=
  fold_left (fun total item => Number.add total (quantity item))
            (items state) (Number.of_Z 0).

(** The mutations of the store, as data, and their application in order. *)
Inductive Op :=
| AddItem (product : Product)
| UpdateQuantity (id' : Number.number) (quantity' : Number.number)
| ClearCart.

Definition apply (state : CartState) (op : Op) : CartState :=
  match op with
  | AddItem product => addItem product state
  | UpdateQuantity id' quantity' => updateQuantity id' quantity' state
  | ClearCart => clearCart state
  end.

Definition run (ops : list Op) (state : CartState) : CartState :=
  fold_left apply ops state.

(** The operations the totals property ranges over. *)
Definition is_add_or_update (op : Op) : bool :=
  match op with
  | AddItem _ | UpdateQuantity _ _ => true
  | ClearCart => false
  end.

(** ** The sums of the specification

    These follow the specification's words ("the sum over current lines of
    price × quantity", "the sum over current lines of quantity"), not the
    store's code: they are exact sums of whole numbers, over lines given by
    their price and quantity. *)
Fixpoint sum_over_lines (f : Z * Z -> Z) (lines : list (Z * Z)) : Z :=
  match lines with
  | [] => 0
  | line :: rest => f line + sum_over_lines f rest
  end.

Definition spec_total (lines : list (Z * Z)) : Z :=
  sum_over_lines (fun line => line.1 * line.2) lines.

Definition spec_itemCount (lines : list (Z * Z)) : Z :=
  sum_over_lines snd lines.

(** The lines of a cart hold the whole prices and quantities [lines], each
    from 0 to [Number.MAX_SAFE_INTEGER]. *)
Definition whole_lines (state : CartState) (lines : list (Z * Z)) : Prop :=
  Forall2
    (fun item line =>
       price item = Number.of_Z line.1
       /\ quantity item = Number.of_Z line.2
       /\ 0 <= line.1 <= Number.MAX_SAFE_INTEGER
       /\ 0 <= line.2 <= Number.MAX_SAFE_INTEGER)
    (items state) lines.

(** The invariant of the order lines: [1 <= quantity]. *)
Definition quantities_positive (state : CartState) : Prop :=
  Forall (fun line => Number.le (Number.of_Z 1) (quantity line) = true)
         (items state).

(** No line has [quantity <= 0]. *)
Definition no_quantity_below (state : CartState) : Prop :=
  Forall (fun line => Number.le (quantity line) (Number.of_Z 0) = false)
         (items state).

(** An [updateQuantity(id, n)] with [n <= 0] or [1 <= n], or another
    operation. *)
Definition proper (op : Op) : bool :=
  match op with
  | UpdateQuantity _ n =>
      Number.le n (Number.of_Z 0) || Number.le (Number.of_Z 1) n
  | _ => true
  end.

(** A cart state is reachable when some sequence of store mutations
    produces it from the empty cart. *)
Definition reachable (state : CartState) : Prop :=
  exists ops, state = run ops initial.

End Cart.

(* ===================================================================== *)
(** * The payment screen *)
(* ===================================================================== *)

Module PaymentScreen.

Inductive PaymentMethod := QR_CODE | STUDENT_ID.

Inductive WebSocketStatus := CONNECTING | CONNECTED | DISCONNECTED | FAILED.

#[global] Instance PaymentMethod_eq_dec : EqDecision PaymentMethod.
Proof. solve_decision. Defined.

#[global] Instance WebSocketStatus_eq_dec : EqDecision WebSocketStatus.
Proof. solve_decision. Defined.

Inductive NotificationKind := success | error | info.

(** A value the code passes as a message. Its type in the code is
    [string], and so is its value except for what the lookup
    [ERROR_MESSAGES[code]] returns: [ERROR_MESSAGES] is an object literal,
    and for a key it does not have the lookup finds what the object
    inherits from [Object.prototype]. [inherited key] is that member: a
    function (for ["__proto__"], the prototype object), which is truthy and
    not a string. *)
Inductive Message :=
| text (s : string)
| inherited (key : string).

#[global] Coercion text : string >-> Message.

Record NotificationType := {
  type : NotificationKind;
  message : Message;
  submessage : option string;
}.

(** The body of an error response; only [code] is read. *)
Record ErrorResponse := { code : option string }.

(** What the handlers inspect of a rejected request: [error.response],
    [error.response.data] (absent when falsy) and [error.code]. *)
Record AxiosResponse := { data : option ErrorResponse }.

Record AxiosError := {
  response : option AxiosResponse;
  axios_code : option string;
}.

(** A rejection; [isAxiosError(error)] holds of the first form only. *)
Inductive MutationError :=
| axiosError (e : AxiosError)
| otherError.

(** The body of a successful payment-creation response. *)
Record PaymentResponse := {
  id : option string;
  token : option string;
  expiresAt : option string;
}.

(** The fields the screen reads from the payment store on a render. *)
Record PaymentStore := {
  orderId : option string;
  requestId : option string;
  requestCode : option string;
  timer : Z;
  isActive : bool;
  status : string;
  requestMethod : option PaymentMethod;
}.

(** The own properties of the object literal [ERROR_MESSAGES]. *)
Definition ERROR_MESSAGES : gmap string string :=
  list_to_map
    [ ("ORDER_NOT_FOUND", "주문을 찾을 수 없습니다");
      ("ORDER_NOT_PENDING", "이미 처리된 주문입니다");
      ("USER_NOT_FOUND", "등록되지 않은 학번입니다");
      ("BOOTH_NOT_FOUND", "부스 정보를 찾을 수 없습니다") ].

(** The names of the properties of [Object.prototype], which every object
    literal inherits. *)
Definition Object_prototype : list string :=
  [ "constructor"; "__defineGetter__"; "__defineSetter__"; "hasOwnProperty";
    "__lookupGetter__"; "__lookupSetter__"; "isPrototypeOf";
    "propertyIsEnumerable"; "toString"; "valueOf"; "__proto__";
    "toLocaleString" ].

(** [ERROR_MESSAGES[key]]: the own property of that name, or else the
    property the object inherits; [None] is [undefined]. *)
Definition ERROR_MESSAGES_get (key : string) : option Message :=
  match ERROR_MESSAGES !! key with
  | Some m => Some (text m)
  | None =>
      if bool_decide (key ∈ Object_prototype) then Some (inherited key)
      else None
  end.

Definition NOTIFICATION_DURATION : Z := 3000.
Definition WS_RECONNECT_DELAY : Z := 3000.
Definition MAX_RECONNECT_ATTEMPTS : Z := 3.

(** ** JavaScript truthiness of optional strings *)

Definition truthy (v : option string) : bool :=
  match v with
  | Some s => negb (String.eqb s "")
  | None => false
  end.

(** Truthiness of what a lookup returns: a function or an object is
    truthy. *)
Definition truthy_message (v : option Message) : bool :=
  match v with
  | Some (text s) => negb (String.eqb s "")
  | Some (inherited _) => true
  | None => false
  end.

(** [v || d] *)
Definition or_else (v : option string) (d : string) : string :=
  match v with
  | Some s => if String.eqb s "" then d else s
  | None => d
  end.

(** ** Calls to collaborators outside the component *)

Inductive Effect :=
| cancelOrderMutation_mutate
| qrPaymentMutation_mutate
| studentIdPaymentMutation_mutate (studentIdValue : string)
| setPaymentRequest (id' : option string) (token' : string)
    (status' : string) (method : PaymentMethod) (expiresAt' : string)
| resetPaymentRequest
| setStatus (status' : string)
| cancelPayment
| decrementTimer
| clearCart
| navigate (path : string)
| new_WebSocket (wsUrl : string)
| WebSocket_close (socket : positive).

(** ** Timers of the host ([setTimeout], [setInterval]) *)

Inductive Callback :=
| dismissNotification
| reconnect (requestId' : option string) (wsStatus' : WebSocketStatus)
| tick.

Record Timer := {
  callback : Callback;
  delay : Z;
  repeating : bool;
}.

(** ** Socket objects

    A socket keeps the [readyState] the host gives it and the variables its
    handlers closed over when [connectWebSocket] created it. *)

Inductive ReadyState := WS_CONNECTING | WS_OPEN | WS_CLOSING | WS_CLOSED.

Record WebSocket := {
  url : string;
  readyState : ReadyState;
  closure_requestId : option string;
  closure_wsStatus : WebSocketStatus;
}.

(** ** Component state: refs, [useState] cells, and the host's tables *)

Record State := {
  isMounted : bool;
  wsReconnectAttemptsRef : Z;
  webSocketRef : option positive;
  timerIntervalRef : option positive;
  notificationTimeoutRef : option positive;
  wsReconnectTimeoutRef : option positive;
  selectedMethod : PaymentMethod;
  studentId : string;
  errorMessage : option Message;
  errorCode : option string;
  notification : option NotificationType;
  wsStatus : WebSocketStatus;
  timers : gmap positive Timer;
  sockets : gmap positive WebSocket;
  nextHandle : positive;
  log : list Effect;
}.

(** The state of a freshly mounted screen. *)
Definition mounted : State := {|
  isMounted := true;
  wsReconnectAttemptsRef := 0;
  webSocketRef := None;
  timerIntervalRef := None;
  notificationTimeoutRef := None;
  wsReconnectTimeoutRef := None;
  selectedMethod := QR_CODE;
  studentId := "";
  errorMessage := None;
  errorCode := None;
  notification := None;
  wsStatus := DISCONNECTED;
  timers := ∅;
  sockets := ∅;
  nextHandle := 1%positive;
  log := [];
|}.

(** ** Assignments to one cell of the state *)

Definition set_isMounted (v : bool) (st : State) : State :=
  {| isMounted := v; wsReconnectAttemptsRef := wsReconnectAttemptsRef st;
     webSocketRef := webSocketRef st;
     timerIntervalRef := timerIntervalRef st;
     notificationTimeoutRef := notificationTimeoutRef st;
     wsReconnectTimeoutRef := wsReconnectTimeoutRef st;
     selectedMethod := selectedMethod st; studentId := studentId st;
     errorMessage := errorMessage st; errorCode := errorCode st;
     notification := notification st; wsStatus := wsStatus st;
     timers := timers st; sockets := sockets st;
     nextHandle := nextHandle st; log := log st |}.

Definition set_wsReconnectAttemptsRef (v : Z) (st : State) : State :=
  {| isMounted := isMounted st; wsReconnectAttemptsRef := v;
     webSocketRef := webSocketRef st;
     timerIntervalRef := timerIntervalRef st;
     notificationTimeoutRef := notificationTimeoutRef st;
     wsReconnectTimeoutRef := wsReconnectTimeoutRef st;
     selectedMethod := selectedMethod st; studentId := studentId st;
     errorMessage := errorMessage st; errorCode := errorCode st;
     notification := notification st; wsStatus := wsStatus st;
     timers := timers st; sockets := sockets st;
     nextHandle := nextHandle st; log := log st |}.

Definition set_webSocketRef (v : option positive) (st : State) : State :=
  {| isMounted := isMounted st;
     wsReconnectAttemptsRef := wsReconnectAttemptsRef st;
     webSocketRef := v; timerIntervalRef := timerIntervalRef st;
     notificationTimeoutRef := notificationTimeoutRef st;
     wsReconnectTimeoutRef := wsReconnectTimeoutRef st;
     selectedMethod := selectedMethod st; studentId := studentId st;
     errorMessage := errorMessage st; errorCode := errorCode st;
     notification := notification st; wsStatus := wsStatus st;
     timers := timers st; sockets := sockets st;
     nextHandle := nextHandle st; log := log st |}.

Definition set_timerIntervalRef (v : option positive) (st : State) : State :=
  {| isMounted := isMounted st;
     wsReconnectAttemptsRef := wsReconnectAttemptsRef st;
     webSocketRef := webSocketRef st; timerIntervalRef := v;
     notificationTimeoutRef := notificationTimeoutRef st;
     wsReconnectTimeoutRef := wsReconnectTimeoutRef st;
     selectedMethod := selectedMethod st; studentId := studentId st;
     errorMessage := errorMessage st; errorCode := errorCode st;
     notification := notification st; wsStatus := wsStatus st;
     timers := timers st; sockets := sockets st;
     nextHandle := nextHandle st; log := log st |}.

Definition set_notificationTimeoutRef (v : option positive) (st : State) : State :=
  {| isMounted := isMounted st;
     wsReconnectAttemptsRef := wsReconnectAttemptsRef st;
     webSocketRef := webSocketRef st;
     timerIntervalRef := timerIntervalRef st; notificationTimeoutRef := v;
     wsReconnectTimeoutRef := wsReconnectTimeoutRef st;
     selectedMethod := selectedMethod st; studentId := studentId st;
     errorMessage := errorMessage st; errorCode := errorCode st;
     notification := notification st; wsStatus := wsStatus st;
     timers := timers st; sockets := sockets st;
     nextHandle := nextHandle st; log := log st |}.

Definition set_wsReconnectTimeoutRef (v : option positive) (st : State) : State :=
  {| isMounted := isMounted st;
     wsReconnectAttemptsRef := wsReconnectAttemptsRef st;
     webSocketRef := webSocketRef st;
     timerIntervalRef := timerIntervalRef st;
     notificationTimeoutRef := notificationTimeoutRef st;
     wsReconnectTimeoutRef := v; selectedMethod := selectedMethod st;
     studentId := studentId st; errorMessage := errorMessage st;
     errorCode := errorCode st; notification := notification st;
     wsStatus := wsStatus st; timers := timers st; sockets := sockets st;
     nextHandle := nextHandle st; log := log st |}.

Definition set_selectedMethod (v : PaymentMethod) (st : State) : State :=
  {| isMounted := isMounted st;
     wsReconnectAttemptsRef := wsReconnectAttemptsRef st;
     webSocketRef := webSocketRef st;
     timerIntervalRef := timerIntervalRef st;
     notificationTimeoutRef := notificationTimeoutRef st;
     wsReconnectTimeoutRef := wsReconnectTimeoutRef st;
     selectedMethod := v; studentId := studentId st;
     errorMessage := errorMessage st; errorCode := errorCode st;
     notification := notification st; wsStatus := wsStatus st;
     timers := timers st; sockets := sockets st;
     nextHandle := nextHandle st; log := log st |}.

Definition set_studentId (v : string) (st : State) : State :=
  {| isMounted := isMounted st;
     wsReconnectAttemptsRef := wsReconnectAttemptsRef st;
     webSocketRef := webSocketRef st;
     timerIntervalRef := timerIntervalRef st;
     notificationTimeoutRef := notificationTimeoutRef st;
     wsReconnectTimeoutRef := wsReconnectTimeoutRef st;
     selectedMethod := selectedMethod st; studentId := v;
     errorMessage := errorMessage st; errorCode := errorCode st;
     notification := notification st; wsStatus := wsStatus st;
     timers := timers st; sockets := sockets st;
     nextHandle := nextHandle st; log := log st |}.

Definition set_errorMessage (v : option Message) (st : State) : State :=
  {| isMounted := isMounted st;
     wsReconnectAttemptsRef := wsReconnectAttemptsRef st;
     webSocketRef := webSocketRef st;
     timerIntervalRef := timerIntervalRef st;
     notificationTimeoutRef := notificationTimeoutRef st;
     wsReconnectTimeoutRef := wsReconnectTimeoutRef st;
     selectedMethod := selectedMethod st; studentId := studentId st;
     errorMessage := v; errorCode := errorCode st;
     notification := notification st; wsStatus := wsStatus st;
     timers := timers st; sockets := sockets st;
     nextHandle := nextHandle st; log := log st |}.

Definition set_errorCode (v : option string) (st : State) : State :=
  {| isMounted := isMounted st;
     wsReconnectAttemptsRef := wsReconnectAttemptsRef st;
     webSocketRef := webSocketRef st;
     timerIntervalRef := timerIntervalRef st;
     notificationTimeoutRef := notificationTimeoutRef st;
     wsReconnectTimeoutRef := wsReconnectTimeoutRef st;
     selectedMethod := selectedMethod st; studentId := studentId st;
     errorMessage := errorMessage st; errorCode := v;
     notification := notification st; wsStatus := wsStatus st;
     timers := timers st; sockets := sockets st;
     nextHandle := nextHandle st; log := log st |}.

Definition set_notification (v : option NotificationType) (st : State) : State :=
  {| isMounted := isMounted st;
     wsReconnectAttemptsRef := wsReconnectAttemptsRef st;
     webSocketRef := webSocketRef st;
     timerIntervalRef := timerIntervalRef st;
     notificationTimeoutRef := notificationTimeoutRef st;
     wsReconnectTimeoutRef := wsReconnectTimeoutRef st;
     selectedMethod := selectedMethod st; studentId := studentId st;
     errorMessage := errorMessage st; errorCode := errorCode st;
     notification := v; wsStatus := wsStatus st; timers := timers st;
     sockets := sockets st; nextHandle := nextHandle st; log := log st |}.

Definition set_wsStatus (v : WebSocketStatus) (st : State) : State :=
  {| isMounted := isMounted st;
     wsReconnectAttemptsRef := wsReconnectAttemptsRef st;
     webSocketRef := webSocketRef st;
     timerIntervalRef := timerIntervalRef st;
     notificationTimeoutRef := notificationTimeoutRef st;
     wsReconnectTimeoutRef := wsReconnectTimeoutRef st;
     selectedMethod := selectedMethod st; studentId := studentId st;
     errorMessage := errorMessage st; errorCode := errorCode st;
     notification := notification st; wsStatus := v; timers := timers st;
     sockets := sockets st; nextHandle := nextHandle st; log := log st |}.

Definition set_timers (v : gmap positive Timer) (st : State) : State :=
  {| isMounted := isMounted st;
     wsReconnectAttemptsRef := wsReconnectAttemptsRef st;
     webSocketRef := webSocketRef st;
     timerIntervalRef := timerIntervalRef st;
     notificationTimeoutRef := notificationTimeoutRef st;
     wsReconnectTimeoutRef := wsReconnectTimeoutRef st;
     selectedMethod := selectedMethod st; studentId := studentId st;
     errorMessage := errorMessage st; errorCode := errorCode st;
     notification := notification st; wsStatus := wsStatus st; timers := v;
     sockets := sockets st; nextHandle := nextHandle st; log := log st |}.

Definition set_sockets (v : gmap positive WebSocket) (st : State) : State :=
  {| isMounted := isMounted st;
     wsReconnectAttemptsRef := wsReconnectAttemptsRef st;
     webSocketRef := webSocketRef st;
     timerIntervalRef := timerIntervalRef st;
     notificationTimeoutRef := notificationTimeoutRef st;
     wsReconnectTimeoutRef := wsReconnectTimeoutRef st;
     selectedMethod := selectedMethod st; studentId := studentId st;
     errorMessage := errorMessage st; errorCode := errorCode st;
     notification := notification st; wsStatus := wsStatus st;
     timers := timers st; sockets := v; nextHandle := nextHandle st;
     log := log st |}.

Definition set_nextHandle (v : positive) (st : State) : State :=
  {| isMounted := isMounted st;
     wsReconnectAttemptsRef := wsReconnectAttemptsRef st;
     webSocketRef := webSocketRef st;
     timerIntervalRef := timerIntervalRef st;
     notificationTimeoutRef := notificationTimeoutRef st;
     wsReconnectTimeoutRef := wsReconnectTimeoutRef st;
     selectedMethod := selectedMethod st; studentId := studentId st;
     errorMessage := errorMessage st; errorCode := errorCode st;
     notification := notification st; wsStatus := wsStatus st;
     timers := timers st; sockets := sockets st; nextHandle := v;
     log := log st |}.

Definition set_log (v : list Effect) (st : State) : State :=
  {| isMounted := isMounted st;
     wsReconnectAttemptsRef := wsReconnectAttemptsRef st;
     webSocketRef := webSocketRef st;
     timerIntervalRef := timerIntervalRef st;
     notificationTimeoutRef := notificationTimeoutRef st;
     wsReconnectTimeoutRef := wsReconnectTimeoutRef st;
     selectedMethod := selectedMethod st; studentId := studentId st;
     errorMessage := errorMessage st; errorCode := errorCode st;
     notification := notification st; wsStatus := wsStatus st;
     timers := timers st; sockets := sockets st;
     nextHandle := nextHandle st; log := v |}.

(** ** Host timers *)

(** [setTimeout(cb, delay)] / [setInterval(cb, delay)]: the host returns a
    handle it has not used before. *)
Definition setTimer (cb : Callback) (delay' : Z) (repeating' : bool)
    (st : State) : positive * State :=
  let handle := nextHandle st in
  (handle,
   set_nextHandle (handle + 1)%positive
     (set_timers
        (<[handle := {| callback := cb; delay := delay';
                        repeating := repeating' |}]> (timers st)) st)).

(** [clearTimeout(handle)] / [clearInterval(handle)] *)
Definition clearTimer (handle : positive) (st : State) : State :=
  set_timers (delete handle (timers st)) st.

Definition emit (e : Effect) (st : State) : State :=
  set_log (log st ++ [e]) st.

(** ** Notifications *)

Definition showNotification (type' : NotificationKind) (message' : Message)
    (submessage' : option string) (st : State) : State :=
  if negb (isMounted st) then st else
  let st :=
    match notificationTimeoutRef st with
    | Some handle => set_notificationTimeoutRef None (clearTimer handle st)
    | None => st
    end in
  let st :=
    set_notification
      (Some {| type := type'; message := message';
               submessage := submessage' |}) st in
  let '(handle, st) :=
    setTimer dismissNotification NOTIFICATION_DURATION false st in
  set_notificationTimeoutRef (Some handle) st.

(** The callback of the notification timeout. *)
Definition dismissNotification_callback (st : State) : State :=
  if isMounted st then set_notification None st else st.

(** ** Order cancellation *)

Definition handleCancel (st : State) : State :=
  if isMounted st then emit cancelOrderMutation_mutate st else st.

(** [errorData.code && ERROR_MESSAGES[errorData.code]]: what the lookup
    returns for a code that is present, when that is truthy. *)
Definition mapped_message (errorData : ErrorResponse) : option Message :=
  match code errorData with
  | Some c =>
      if truthy (Some c) && truthy_message (ERROR_MESSAGES_get c)
      then ERROR_MESSAGES_get c
      else None
  | None => None
  end.

Definition cancelOrderMutation_onError (err : MutationError) (st : State)
  : State :=
  if negb (isMounted st) then st else
  let message' : Message :=
    match err with
    | axiosError e =>
        match response e with
        | Some r =>
            match data r with
            | Some errorData =>
                match mapped_message errorData with
                | Some m => m
                | None => "주문 취소 중 오류가 발생했습니다"
                end
            | None => "주문 취소 중 오류가 발생했습니다"
            end
        | None => "주문 취소 중 오류가 발생했습니다"
        end
    | otherError => "주문 취소 중 오류가 발생했습니다"
    end in
  showNotification error message' None st.

Definition cancelOrderMutation_onSettled (st : State) : State :=
  if negb (isMounted st) then st else
  emit (navigate "/products") (emit clearCart (emit cancelPayment st)).

(** How a mutation ends. *)
Inductive Outcome (A : Type) :=
| resolved (value : A)
| rejected (err : MutationError).
Arguments resolved {A} value.
Arguments rejected {A} err.

(** The query library calls [onError] on a rejection and then, in either
    case, [onSettled]. *)
Definition cancelOrderMutation_settle (outcome : Outcome unit) (st : State)
  : State :=
  match outcome with
  | resolved _ => cancelOrderMutation_onSettled st
  | rejected err =>
      cancelOrderMutation_onSettled (cancelOrderMutation_onError err st)
  end.

(** ** Payment creation *)

(** The shared body of the two [onError] callbacks, which differ in the
    message they start from: the message and the code they store. *)
Definition creation_error (generic : string) (err : MutationError)
  : Message * option string :=
  match err with
  | axiosError e =>
      match response e with
      | Some {| data := Some errorData |} =>
          if truthy (code errorData)
          then
            (match mapped_message errorData with
             | Some m => m
             | None => text generic
             end,
             code errorData)
          else (text generic, None)
      | _ =>
          if bool_decide (axios_code e = Some "ECONNABORTED")
          then (text "서버 응답 시간 초과", None)
          else (text generic, None)
      end
  | otherError => (text generic, None)
  end.

Definition creation_onError (generic : string) (err : MutationError)
    (st : State) : State :=
  if negb (isMounted st) then st else
  let '(errorMsg, code') := creation_error generic err in
  showNotification error errorMsg None
    (set_errorMessage (Some errorMsg) (set_errorCode code' st)).

Definition qrPaymentMutation_onError : MutationError -> State -> State :=
  creation_onError "결제 요청을 생성할 수 없습니다".

Definition studentIdPaymentMutation_onError
  : MutationError -> State -> State :=
  creation_onError "결제 요청에 실패했습니다".

Section Host.

(** The constant [API_URL], imported from [constants/api]. *)
Variable API_URL : string.

(** Whether the host's [new WebSocket(url)] returns a socket ([true]) or
    throws ([false]). *)
Variable WebSocket_accepts : string -> bool.

(** [new Date(ms).toISOString()] of the host. *)
Variable toISOString : Z -> string.

(** [now] is the value of [Date.now()] when the callback runs. *)
Definition qrPaymentMutation_onSuccess (data' : PaymentResponse) (now : Z)
    (st : State) : State :=
  if negb (isMounted st) then st else
  emit (setPaymentRequest (id data') (or_else (token data') "") "PENDING"
          QR_CODE
          (or_else (expiresAt data')
             (toISOString (now + 15 * 60 * 1000)))) st.

Definition studentIdPaymentMutation_onSuccess (data' : PaymentResponse)
    (now : Z) (st : State) : State :=
  if negb (isMounted st) then st else
  let st :=
    emit (setPaymentRequest (id data')
            (or_else (token data') (studentId st)) "PENDING" STUDENT_ID
            (or_else (expiresAt data')
               (toISOString (now + 15 * 60 * 1000)))) st in
  showNotification success "학번 결제 요청 완료" None st.

(** ** The deadline timer effect *)

(** The cleanup the effect returns, run before its next run and on
    unmount. *)
Definition timerEffect_cleanup (st : State) : State :=
  match timerIntervalRef st with
  | Some handle => set_timerIntervalRef None (clearTimer handle st)
  | None => st
  end.

Definition timerEffect (store : PaymentStore) (st : State) : State :=
  let st :=
    if isActive store && (0 <? timer store) then
      let st :=
        match timerIntervalRef st with
        | Some handle => set_timerIntervalRef None (clearTimer handle st)
        | None => st
        end in
      let '(handle, st) := setTimer tick 1000 true st in
      set_timerIntervalRef (Some handle) st
    else if (timer store <=? 0) && isActive store && isMounted st then
      handleCancel st
    else st in
  if String.eqb (status store) "COMPLETED" && isMounted st
  then emit (navigate "/payment-complete") st
  else st.

(** The callback of the one-second interval. *)
Definition tick_callback (st : State) : State :=
  if isMounted st then emit decrementTimer st else st.

(** ** The push channel *)

(** [API_URL.replace(/^http(s?):\/\//, (_, s) => (s ? "wss://" : "ws://"))
    + `/ws/payment-requests/${requestId}`] *)
Definition wsUrl (requestId' : string) : string :=
  (if String.prefix "https://" API_URL
   then "wss://" +:+ String.substring 8 (String.length API_URL - 8) API_URL
   else if String.prefix "http://" API_URL
   then "ws://" +:+ String.substring 7 (String.length API_URL - 7) API_URL
   else API_URL)
  +:+ "/ws/payment-requests/" +:+ requestId'.

(** [socket.close()]: a socket that is connecting or open starts
    closing; one that is closing or closed stays as it is. *)
Definition closing (ws : WebSocket) : WebSocket :=
  match readyState ws with
  | WS_CONNECTING | WS_OPEN =>
      {| url := url ws; readyState := WS_CLOSING;
         closure_requestId := closure_requestId ws;
         closure_wsStatus := closure_wsStatus ws |}
  | WS_CLOSING | WS_CLOSED => ws
  end.

Definition close_socket (socket : positive) (st : State) : State :=
  emit (WebSocket_close socket)
    (set_sockets (alter closing socket (sockets st)) st).

(** [connectWebSocket], with the [requestId] and [wsStatus] its closure
    holds: those of the render that created it. *)
Definition connectWebSocket (requestId' : option string)
    (wsStatus' : WebSocketStatus) (st : State) : State :=
  if negb (truthy requestId') || negb (isMounted st) then st else
  match wsStatus' with
  | CONNECTING | CONNECTED => st
  | DISCONNECTED | FAILED =>
      let st := set_wsStatus CONNECTING st in
      let wsUrl' := wsUrl (or_else requestId' "") in
      let st :=
        match webSocketRef st with
        | Some socket =>
            match sockets st !! socket with
            | Some ws =>
                match readyState ws with
                | WS_CLOSED => st
                | _ => close_socket socket st
                end
            | None => st
            end
        | None => st
        end in
      if WebSocket_accepts wsUrl' then
        let socket := nextHandle st in
        let st := emit (new_WebSocket wsUrl') st in
        let st := set_nextHandle (socket + 1)%positive st in
        let st :=
          set_sockets
            (<[socket := {| url := wsUrl'; readyState := WS_CONNECTING;
                            closure_requestId := requestId';
                            closure_wsStatus := wsStatus' |}]>
               (sockets st)) st in
        set_webSocketRef (Some socket) st
      else
        if isMounted st then set_wsStatus FAILED st else st
  end.

Definition ws_onopen (st : State) : State :=
  if isMounted st
  then set_wsReconnectAttemptsRef 0 (set_wsStatus CONNECTED st)
  else st.

(** An inbound frame: [malformed] when [JSON.parse(event.data)] or the
    read of [data.status] throws, else the [status] and [message] of the
    decoded object. *)
Inductive Frame :=
| malformed
| decoded (status' : option string) (message' : option string).

Definition ws_onmessage (frame : Frame) (st : State) : State :=
  if negb (isMounted st) then st else
  match frame with
  | decoded status' message' =>
      if bool_decide (status' = Some "COMPLETED") then
        emit (setStatus "COMPLETED") st
      else if bool_decide (status' = Some "FAILED") then
        showNotification error "결제 실패"
          (Some (or_else message' "결제가 실패했습니다."))
          (emit (setStatus "FAILED") st)
      else if bool_decide (status' = Some "EXPIRED") then
        handleCancel
          (showNotification error "결제 시간이 초과되었습니다." None
             (emit (setStatus "EXPIRED") st))
      else st
  | malformed =>
      if isMounted st then set_wsStatus FAILED st else st
  end.

Definition ws_onerror (st : State) : State :=
  if isMounted st then set_wsStatus FAILED st else st.

(** [requestId'] and [wsStatus'] are the closure of the
    [connectWebSocket] that created the socket. *)
Definition ws_onclose (requestId' : option string)
    (wsStatus' : WebSocketStatus) (wasClean : bool) (st : State) : State :=
  if negb (isMounted st) then st else
  if wasClean then st else
  let st := set_wsStatus DISCONNECTED st in
  if (wsReconnectAttemptsRef st <? MAX_RECONNECT_ATTEMPTS)
     && truthy requestId' && isMounted st
  then
    let delay' :=
      Z.min (WS_RECONNECT_DELAY * (wsReconnectAttemptsRef st + 1)) 10000 in
    let st :=
      match wsReconnectTimeoutRef st with
      | Some handle =>
          set_wsReconnectTimeoutRef None (clearTimer handle st)
      | None => st
      end in
    let '(handle, st) :=
      setTimer (reconnect requestId' wsStatus') delay' false st in
    set_wsReconnectTimeoutRef (Some handle) st
  else set_wsStatus FAILED st.

(** The callback of the reconnection timeout. *)
Definition reconnect_callback (requestId' : option string)
    (wsStatus' : WebSocketStatus) (st : State) : State :=
  if isMounted st
  then connectWebSocket requestId' wsStatus'
         (set_wsReconnectAttemptsRef (wsReconnectAttemptsRef st + 1) st)
  else st.

(** The effect on [requestId], [connectWebSocket], [wsStatus]. *)
Definition wsEffect (store : PaymentStore) (st : State) : State :=
  if truthy (requestId store)
     && negb (bool_decide (wsStatus st = CONNECTED)) && isMounted st
  then connectWebSocket (requestId store) (wsStatus st) st
  else if negb (truthy (requestId store)) then
    let st := if isMounted st then set_wsStatus DISCONNECTED st else st in
    let st :=
      match webSocketRef st with
      | Some socket => set_webSocketRef None (close_socket socket st)
      | None => st
      end in
    match wsReconnectTimeoutRef st with
    | Some handle => set_wsReconnectTimeoutRef None (clearTimer handle st)
    | None => st
    end
  else st.

Definition handleReconnectWebSocket (store : PaymentStore) (st : State)
  : State :=
  if isMounted st
  then connectWebSocket (requestId store) (wsStatus st)
         (set_wsReconnectAttemptsRef 0 st)
  else st.

End Host.

(** ** [parseInt(string, 10)]

    A string is a sequence of code units, one per [ascii]; [None] is [NaN].
    [parseInt] skips leading white space, reads an optional sign, and then
    the longest run of decimal digits; with no digit the result is [NaN]. *)

Definition isWhiteSpace (c : ascii) : bool :=
  let n := Z.of_nat (nat_of_ascii c) in
  ((9 <=? n) && (n <=? 13)) || (n =? 32) || (n =? 160).

Definition digit (c : ascii) : option Z :=
  let n := Z.of_nat (nat_of_ascii c) in
  if (48 <=? n) && (n <=? 57) then Some (n - 48) else None.

Fixpoint trimStart (s : string) : string :=
  match s with
  | String c rest => if isWhiteSpace c then trimStart rest else s
  | EmptyString => EmptyString
  end.

(** The value of the longest prefix of digits, [acc] being the value of
    the digits read so far ([None] when there is none yet). *)
Fixpoint digits (acc : option Z) (s : string) : option Z :=
  match s with
  | String c rest =>
      match digit c with
      | Some d => digits (Some (10 * default 0 acc + d)) rest
      | None => acc
      end
  | EmptyString => acc
  end.

Definition parseInt (s : string) : option Z :=
  match trimStart s with
  | String "-" rest => Z.opp <$> digits None rest
  | String "+" rest => digits None rest
  | rest => digits None rest
  end.

(** [s[i]] as the argument of [parseInt]: the one-character string, or
    ["undefined"] past the end. *)
Definition charAt (i : nat) (s : string) : string :=
  match String.get i s with
  | Some c => String c EmptyString
  | None => "undefined"
  end.

(** [s.substring(n)] *)
Fixpoint substring_from (n : nat) (s : string) : string :=
  match n, s with
  | O, _ => s
  | S n', String _ rest => substring_from n' rest
  | S _, EmptyString => EmptyString
  end.

(** [lo <= x && x <= hi] on a number that may be [NaN]. *)
Definition between (lo hi : Z) (x : option Z) : bool :=
  match x with
  | Some v => (lo <=? v) && (v <=? hi)
  | None => false
  end.

Definition validateStudentId (id' : string) : bool :=
  if negb (Nat.eqb (String.length id') 4) then false else
  let grade := parseInt (charAt 0 id') in
  let room := parseInt (charAt 1 id') in
  let number := parseInt (substring_from 2 id') in
  between 1 9 grade && between 1 9 room && between 1 99 number.

(** The validation as the specification words it, to compare with: the
    identifier is four decimal digits, the first a grade in 1..9, the
    second a room in 1..9, the last two a number in 1..99. *)
Definition spec_validStudentId (id' : string) : bool :=
  match id' with
  | String c0 (String c1 (String c2 (String c3 EmptyString))) =>
      match digit c0, digit c1, digit c2, digit c3 with
      | Some grade, Some room, Some tens, Some units =>
          (1 <=? grade) && (grade <=? 9) && (1 <=? room) && (room <=? 9)
          && (1 <=? 10 * tens + units) && (10 * tens + units <=? 99)
      | _, _, _, _ => false
      end
  | _ => false
  end.

(** The code unit of a character, and all the code units the model has. *)
Definition code_unit (c : ascii) : nat := nat_of_ascii c.

Definition code_units : list ascii := map ascii_of_nat (seq 0 256).

(** What [validateStudentId] accepts for the last two characters, by their
    code units: two digits that are not both 0; a digit from 1 to 9 and
    then something that is no digit; a white space character or a plus
    sign and then a digit from 1 to 9. *)
Definition accepted_number (c2 c3 : ascii) : bool :=
  let n2 := code_unit c2 in
  let n3 := code_unit c3 in
  let is_digit n := (48 <=? n)%nat && (n <=? 57)%nat in
  let is_positive n := (49 <=? n)%nat && (n <=? 57)%nat in
  let is_space n :=
    ((9 <=? n)%nat && (n <=? 13)%nat) || (n =? 32)%nat || (n =? 160)%nat in
  (is_digit n2 && is_digit n3 && negb ((n2 =? 48)%nat && (n3 =? 48)%nat))
  || (is_positive n2 && negb (is_digit n3))
  || ((is_space n2 || (n2 =? 43)%nat) && is_positive n3).

Definition handleStudentIdSubmit (st : State) : State :=
  if negb (isMounted st) then st else
  if negb (validateStudentId (studentId st)) then
    showNotification info "올바른 학번 형식이 아닙니다" None st
  else emit (studentIdPaymentMutation_mutate (studentId st)) st.

(** ** Method selection, retry, and the action of the failure display *)

(** [qrPending] and [studentIdPending] are the [isPending] flags of the two
    creation mutations on the current render. *)
Definition handleMethodChange (method : PaymentMethod)
    (qrPending studentIdPending : bool) (st : State) : State :=
  if negb (bool_decide (selectedMethod st = method))
     && negb qrPending && negb studentIdPending && isMounted st
  then
    let st := set_selectedMethod method st in
    let st := set_errorMessage None st in
    let st := set_errorCode None st in
    let st := emit resetPaymentRequest st in
    match method with
    | STUDENT_ID => set_studentId "" st
    | QR_CODE => st
    end
  else st.

Definition handleRetry (st : State) : State :=
  if negb (isMounted st) then st else
  let st := emit resetPaymentRequest st in
  let st := set_errorMessage None st in
  let st := set_errorCode None st in
  match selectedMethod st with
  | STUDENT_ID => set_studentId "" st
  | QR_CODE => st
  end.

(** The button [renderErrorAction] returns, by what its [onClick] does. *)
Inductive ErrorAction :=
| backToProducts
| retry.

Definition renderErrorAction (st : State) : option ErrorAction :=
  if negb (truthy (errorCode st)) then None else
  if bool_decide (errorCode st = Some "ORDER_NOT_PENDING")
     || bool_decide (errorCode st = Some "ORDER_NOT_FOUND")
  then Some backToProducts
  else Some retry.

Definition ErrorAction_onClick (action : ErrorAction) (st : State) : State :=
  match action with
  | backToProducts =>
      if isMounted st then emit (navigate "/products") st else st
  | retry => handleRetry st
  end.

Inductive Key := key_digit (value : string) | key_delete | key_clear.

(** [prev.slice(0, -1)] *)
Fixpoint slice_init (s : string) : string :=
  match s with
  | String c EmptyString => EmptyString
  | String c rest => String c (slice_init rest)
  | EmptyString => EmptyString
  end.

Definition handleKeypadPress (key : Key) (st : State) : State :=
  if negb (isMounted st) then st else
  match key with
  | key_delete => set_studentId (slice_init (studentId st)) st
  | key_clear => set_studentId "" st
  | key_digit value =>
      if (String.length (studentId st) <? 4)%nat
      then set_studentId (studentId st +:+ value) st
      else st
  end.

Definition createQrPaymentRequest (st : State) : State :=
  if isMounted st then emit qrPaymentMutation_mutate st else st.

(** The effect that creates the QR request once a method and an order are
    there and no request code is. *)
Definition qrEffect (store : PaymentStore) (qrPending : bool) (st : State)
  : State :=
  if bool_decide (selectedMethod st = QR_CODE) && truthy (orderId store)
     && negb (truthy (requestCode store)) && negb qrPending && isMounted st
  then createQrPaymentRequest st
  else st.

(** ** Teardown *)

(** The cleanup of the mount effect. *)
Definition unmount (st : State) : State :=
  let st := set_isMounted false st in
  let st :=
    match notificationTimeoutRef st with
    | Some handle => set_notificationTimeoutRef None (clearTimer handle st)
    | None => st
    end in
  let st :=
    match timerIntervalRef st with
    | Some handle => set_timerIntervalRef None (clearTimer handle st)
    | None => st
    end in
  let st :=
    match wsReconnectTimeoutRef st with
    | Some handle => set_wsReconnectTimeoutRef None (clearTimer handle st)
    | None => st
    end in
  match webSocketRef st with
  | Some socket => set_webSocketRef None (close_socket socket st)
  | None => st
  end.

(** ** The event loop

    What the host and React deliver to the screen, one event at a time:
    effect runs after a render, timers firing, socket events, settled
    mutations, and the handlers the user interface invokes. Each event is
    handled with the payment store as the current render reads it. *)

Inductive Event :=
| ev_unmount
| ev_timerEffect
| ev_wsEffect
| ev_qrEffect (qrPending : bool)
| ev_timer (handle : positive)
| ev_open (socket : positive)
| ev_message (socket : positive) (frame : Frame)
| ev_error (socket : positive)
| ev_close (socket : positive) (wasClean : bool)
| ev_handleCancel
| ev_handleReconnectWebSocket
| ev_handleStudentIdSubmit
| ev_handleMethodChange (method : PaymentMethod)
    (qrPending studentIdPending : bool)
| ev_handleRetry
| ev_errorAction
| ev_handleKeypadPress (key : Key)
| ev_cancelOrder_settled (outcome : Outcome unit)
| ev_qrPayment_settled (outcome : Outcome PaymentResponse) (now : Z)
| ev_studentIdPayment_settled (outcome : Outcome PaymentResponse) (now : Z).

Definition set_readyState (socket : positive) (rs : ReadyState) (st : State)
  : State :=
  set_sockets
    (alter (fun ws => {| url := url ws; readyState := rs;
                         closure_requestId := closure_requestId ws;
                         closure_wsStatus := closure_wsStatus ws |})
           socket (sockets st)) st.

Section Loop.

Variable API_URL : string.
Variable WebSocket_accepts : string -> bool.
Variable toISOString : Z -> string.

Definition run_callback (cb : Callback) (st : State) : State :=
  match cb with
  | dismissNotification => dismissNotification_callback st
  | reconnect requestId' wsStatus' =>
      reconnect_callback API_URL WebSocket_accepts requestId' wsStatus' st
  | tick => tick_callback st
  end.

Definition step (store : PaymentStore) (ev : Event) (st : State) : State :=
  match ev with
  | ev_unmount => unmount st
  | ev_timerEffect => timerEffect store (timerEffect_cleanup st)
  | ev_wsEffect => wsEffect API_URL WebSocket_accepts store st
  | ev_qrEffect qrPending => qrEffect store qrPending st
  | ev_timer handle =>
      match timers st !! handle with
      | Some t =>
          run_callback (callback t)
            (if repeating t then st else clearTimer handle st)
      | None => st
      end
  | ev_open socket =>
      match sockets st !! socket with
      | Some {| readyState := WS_CONNECTING |} =>
          ws_onopen (set_readyState socket WS_OPEN st)
      | _ => st
      end
  | ev_message socket frame =>
      match sockets st !! socket with
      | Some {| readyState := WS_OPEN |}
      | Some {| readyState := WS_CLOSING |} => ws_onmessage frame st
      | _ => st
      end
  | ev_error socket =>
      match sockets st !! socket with
      | Some {| readyState := WS_CLOSED |} | None => st
      | Some _ => ws_onerror st
      end
  | ev_close socket wasClean =>
      match sockets st !! socket with
      | Some {| readyState := WS_CLOSED |} | None => st
      | Some ws =>
          ws_onclose (closure_requestId ws) (closure_wsStatus ws) wasClean
            (set_readyState socket WS_CLOSED st)
      end
  | ev_handleCancel => handleCancel st
  | ev_handleReconnectWebSocket =>
      handleReconnectWebSocket API_URL WebSocket_accepts store st
  | ev_handleStudentIdSubmit => handleStudentIdSubmit st
  | ev_handleMethodChange method qrPending studentIdPending =>
      handleMethodChange method qrPending studentIdPending st
  | ev_handleRetry => handleRetry st
  | ev_errorAction =>
      match renderErrorAction st with
      | Some action => ErrorAction_onClick action st
      | None => st
      end
  | ev_handleKeypadPress key => handleKeypadPress key st
  | ev_cancelOrder_settled outcome => cancelOrderMutation_settle outcome st
  | ev_qrPayment_settled outcome now =>
      match outcome with
      | resolved data' => qrPaymentMutation_onSuccess toISOString data' now st
      | rejected err => qrPaymentMutation_onError err st
      end
  | ev_studentIdPayment_settled outcome now =>
      match outcome with
      | resolved data' =>
          studentIdPaymentMutation_onSuccess toISOString data' now st
      | rejected err => studentIdPaymentMutation_onError err st
      end
  end.

(** A run: each event with the store the render before it read. *)
Fixpoint run (events : list (PaymentStore * Event)) (st : State) : State :=
  match events with
  | [] => st
  | (store, ev) :: rest => run rest (step store ev st)
  end.

End Loop.

(** ** Observations on a state *)

Definition is_cancellation (e : Effect) : bool :=
  match e with
  | cancelOrderMutation_mutate => true
  | _ => false
  end.

Definition is_connection (e : Effect) : bool :=
  match e with
  | new_WebSocket _ => true
  | _ => false
  end.

Definition is_reconnect (t : Timer) : bool :=
  match callback t with
  | reconnect _ _ => true
  | _ => false
  end.

(** How many times the cancellation mutation has been started. *)
Definition cancellations (st : State) : nat :=
  length (List.filter is_cancellation (log st)).

(** How many sockets have been opened. *)
Definition connection_attempts (st : State) : nat :=
  length (List.filter is_connection (log st)).

(** The reconnection timeouts that are pending. *)
Definition pending_reconnects (st : State) : gmap positive Timer :=
  filter (fun entry => is_reconnect (snd entry) = true) (timers st).

(** The code an error response carries: that of the body of an axios
    error with a response, when it is a non-empty string. *)
Definition response_code (err : MutationError) : option string :=
  match err with
  | axiosError {| response := Some {| data := Some {| code := Some c |} |} |} =>
      if String.eqb c "" then None else Some c
  | _ => None
  end.


(** The character of a decimal digit, and the identifier of four of
    them: what the keypad types. *)
Definition digit_char (d : Z) : ascii := ascii_of_nat (Z.to_nat (48 + d)).

Definition keyed (d0 d1 d2 d3 : Z) : string :=
  String (digit_char d0)
    (String (digit_char d1)
       (String (digit_char d2) (String (digit_char d3) EmptyString))).

(** ** Invariants of the push channel *)

(** Every pending reconnection timeout is the one whose handle
    [wsReconnectTimeoutRef] holds, and fires once. *)
Definition tracked (st : State) : Prop :=
  forall handle t,
    timers st !! handle = Some t -> is_reconnect t = true ->
    wsReconnectTimeoutRef st = Some handle /\ repeating t = false.

(** The attempt counter stays within 0..[MAX_RECONNECT_ATTEMPTS], and once
    it is at the maximum no reconnection is pending. *)
Definition attempts_bounded (st : State) : Prop :=
  0 <= wsReconnectAttemptsRef st <= MAX_RECONNECT_ATTEMPTS
  /\ (wsReconnectAttemptsRef st = MAX_RECONNECT_ATTEMPTS ->
      forall handle t,
        timers st !! handle = Some t -> is_reconnect t = false).

Definition channel_invariant (st : State) : Prop :=
  tracked st /\ attempts_bounded st.

(** A handler is benign for the channel when it leaves the reconnection
    ref and the attempt counter alone and adds no reconnection timeout. *)
Definition benign (st st' : State) : Prop :=
  wsReconnectTimeoutRef st' = wsReconnectTimeoutRef st
  /\ wsReconnectAttemptsRef st' = wsReconnectAttemptsRef st
  /\ (forall handle t,
         timers st' !! handle = Some t -> is_reconnect t = true ->
         timers st !! handle = Some t).

(** Every socket was created by a [connectWebSocket] that got past its
    guards: its closure holds a request id and a status that is neither
    [CONNECTING] nor [CONNECTED]. *)
Definition closure_ok (ws : WebSocket) : Prop :=
  truthy (closure_requestId ws) = true
  /\ (closure_wsStatus ws = DISCONNECTED \/ closure_wsStatus ws = FAILED).

Definition sockets_wf (st : State) : Prop :=
  forall socket ws, sockets st !! socket = Some ws -> closure_ok ws.

(** The reconnection timeouts carry such a closure as well. *)
Definition reconnects_wf (st : State) : Prop :=
  forall handle t requestId' wsStatus',
    timers st !! handle = Some t ->
    callback t = reconnect requestId' wsStatus' ->
    truthy requestId' = true
    /\ (wsStatus' = DISCONNECTED \/ wsStatus' = FAILED).

Definition closures_wf (st : State) : Prop :=
  sockets_wf st /\ reconnects_wf st.

(** The states the event loop reaches from a freshly mounted screen. *)
Definition reachable (API_URL : string) (WebSocket_accepts : string -> bool)
    (toISOString : Z -> string) (st : State) : Prop :=
  exists events,
    st = run API_URL WebSocket_accepts toISOString events mounted.

(** ** A host and a store for the examples

    A server at [http://kiosk.local:8080] whose socket URLs the host
    accepts, and an active session for order [order-1] with request
    [req-1] and [timer'] seconds left. *)
Definition example_API_URL : string := "http://kiosk.local:8080".

Definition example_accepts (wsUrl' : string) : bool := true.

Definition example_toISOString (ms : Z) : string :=
  "1970-01-01T00:15:00.000Z".

Definition example_store (timer' : Z) : PaymentStore :=
  {| orderId := Some "order-1"; requestId := Some "req-1";
     requestCode := Some "token-1"; timer := timer'; isActive := true;
     status := "PENDING"; requestMethod := Some QR_CODE |}.

Definition example_run : list (PaymentStore * Event) -> State -> State :=
  run example_API_URL example_accepts example_toISOString.

(** ** The display of the remaining time *)

(** [n.toString()] of an integer: its decimal digits, after a minus sign
    when it is negative. *)
Definition toString (n : Z) : string :=
  DecimalString.NilZero.string_of_int (Z.to_int n).

(** [s.padStart(targetLength, "0")] *)
Definition padStart (targetLength : nat) (s : string) : string :=
  String.concat "" (List.repeat "0" (targetLength - String.length s)%nat)
  +:+ s.

(** [Math.floor(seconds / 60)] is [Z.div] and [seconds % 60], which takes
    the sign of [seconds], is [Z.rem]. *)
Definition formatTime (seconds : Z) : string :=
  let mins := seconds / 60 in
  let secs := Z.rem seconds 60 in
  padStart 2 (toString mins) +:+ ":" +:+ padStart 2 (toString secs).

(** ** What the keypad types *)

(** [keypadButtons]: the rows of the keypad. *)
Definition keypadButtons : list (list string) :=
  [ ["1"; "2"; "3"]; ["4"; "5"; "6"]; ["7"; "8"; "9"];
    ["clear"; "0"; "delete"] ].

(** The argument [handleKeypadPress] gets from a button: [value === "delete"]
    and [value === "clear"] are told apart first. *)
Definition key_of (value : string) : Key :=
  if String.eqb value "delete" then key_delete
  else if String.eqb value "clear" then key_clear
  else key_digit value.

(** The keys the buttons of the keypad send. *)
Definition keypad_keys : list Key :=
  List.map key_of (List.concat keypadButtons).

(** An event as the user interface of the screen can deliver it: a keypad
    press comes from a button of the keypad. *)
Definition from_keypad (ev : Event) : Prop :=
  match ev with
  | ev_handleKeypadPress key => In key keypad_keys
  | _ => True
  end.

Definition is_decimal (c : ascii) : bool :=
  match digit c with
  | Some _ => true
  | None => false
  end.

Fixpoint all_decimal (s : string) : bool :=
  match s with
  | String c rest => is_decimal c && all_decimal rest
  | EmptyString => true
  end.

(** ** More invariants of the screen *)

(** The ref that holds the handle of a timer, by its callback. *)
Definition ref_of (cb : Callback) (st : State) : option positive :=
  match cb with
  | dismissNotification => notificationTimeoutRef st
  | reconnect _ _ => wsReconnectTimeoutRef st
  | tick => timerIntervalRef st
  end.

(** Every pending timer is the one its ref holds. *)
Definition all_tracked (st : State) : Prop :=
  forall handle t,
    timers st !! handle = Some t -> ref_of (callback t) st = Some handle.

(** A socket that is connecting or open. *)
Definition is_live (ws : WebSocket) : bool :=
  match readyState ws with
  | WS_CONNECTING | WS_OPEN => true
  | WS_CLOSING | WS_CLOSED => false
  end.

(** The only live socket is the one [webSocketRef] holds. *)
Definition single_live (st : State) : Prop :=
  forall socket ws,
    sockets st !! socket = Some ws -> is_live ws = true ->
    webSocketRef st = Some socket.

(** The [useState] cells of the screen. *)
Definition cells (st : State)
  : PaymentMethod * string * option Message * option string
    * option NotificationType * WebSocketStatus :=
  (selectedMethod st, studentId st, errorMessage st, errorCode st,
   notification st, wsStatus st).

End PaymentScreen.

(* ===================================================================== *)
(** * The product listing screen *)
(* ===================================================================== *)

Module Products.

Inductive ProductStatus := AVAILABLE | SOLD_OUT | HIDDEN.

(** A product of the catalogue, with the fields the handlers read. *)
Record ProductResponse := {
  id : Number.number;
  name : string;
  price : Number.number;
  status : ProductStatus;
  stock : Number.number;
}.

Record CreateOrderItemRequest := {
  productId : Number.number;
  quantity : Number.number;
}.

Record CreateOrderRequest := { items : list CreateOrderItemRequest }.

(** Calls to collaborators other than the cart store. *)
Inductive Effect :=
| signOut
| navigate (path : string)
| orderMutation_mutate (orderRequest : CreateOrderRequest).

(** The [useState] cells of the screen, the cart store it reads and
    writes, the number of pending alert timeouts, and the log. The tap
    counter starts at 0, grows by 1 and is reset when it reaches 7: it is a
    whole number below 8, kept in [Z]. *)
Record State := {
  secretTapCount : Z;
  alertVisible : bool;
  alertMessage : string;
  cart : Cart.CartState;
  alert_timeouts : nat;
  log : list Effect;
}.

Definition initial : State := {|
  secretTapCount := 0;
  alertVisible := false;
  alertMessage := "";
  cart := Cart.initial;
  alert_timeouts := 0;
  log := [];
|}.

Definition set_cart (v : Cart.CartState) (st : State) : State :=
  {| secretTapCount := secretTapCount st; alertVisible := alertVisible st;
     alertMessage := alertMessage st; cart := v;
     alert_timeouts := alert_timeouts st; log := log st |}.

Definition set_secretTapCount (v : Z) (st : State) : State :=
  {| secretTapCount := v; alertVisible := alertVisible st;
     alertMessage := alertMessage st; cart := cart st;
     alert_timeouts := alert_timeouts st; log := log st |}.

Definition emit (e : Effect) (st : State) : State :=
  {| secretTapCount := secretTapCount st; alertVisible := alertVisible st;
     alertMessage := alertMessage st; cart := cart st;
     alert_timeouts := alert_timeouts st; log := log st ++ [e] |}.

(** [showAlert]: the timeout it sets is not kept anywhere. *)
Definition showAlert (message : string) (st : State) : State :=
  {| secretTapCount := secretTapCount st; alertVisible := true;
     alertMessage := message; cart := cart st;
     alert_timeouts := S (alert_timeouts st); log := log st |}.

(** The callback of an alert timeout. *)
Definition alert_timeout (st : State) : State :=
  {| secretTapCount := secretTapCount st; alertVisible := false;
     alertMessage := alertMessage st; cart := cart st;
     alert_timeouts := pred (alert_timeouts st); log := log st |}.

(** [confirmed] is the answer to the [confirm] dialog, asked only at the
    seventh tap. *)
Definition handleSecretTap (confirmed : bool) (st : State) : State :=
  let newCount := secretTapCount st + 1 in
  let st := set_secretTapCount newCount st in
  if 7 <=? newCount then
    let st :=
      if confirmed then
        emit (navigate "/login")
          (set_cart (Cart.clearCart (cart st)) (emit signOut st))
      else st in
    set_secretTapCount 0 st
  else st.

Definition handlePayment (st : State) : State :=
  match Cart.items (cart st) with
  | [] => showAlert "상품을 선택해주세요" st
  | _ =>
      emit (orderMutation_mutate
              {| items :=
                   map (fun item => {| productId := Cart.id item;
                                       quantity := Cart.quantity item |})
                       (Cart.items (cart st)) |}) st
  end.

Definition handleAddToCart (product : ProductResponse) (st : State) : State :=
  if match status product with SOLD_OUT => true | _ => false end
     || Number.le (stock product) (Number.of_Z 0)
  then showAlert "품절된 상품입니다" st
  else
    let existingItem :=
      find (fun item => Number.strict_equal (Cart.id item) (id product))
           (Cart.items (cart st)) in
    let currentQuantity :=
      match existingItem with
      | Some item => Cart.quantity item
      | None => Number.of_Z 0
      end in
    if Number.le (stock product) currentQuantity
    then showAlert "재고가 부족합니다" st
    else
      set_cart
        (Cart.addItem {| Cart.product_id := id product;
                         Cart.product_name := name product;
                         Cart.product_price := price product |} (cart st))
        st.

(** [products] is the catalogue the current render holds. *)
Definition handleQuantityUpdate (products : list ProductResponse)
    (id' newQuantity : Number.number) (st : State) : State :=
  if Number.le newQuantity (Number.of_Z 0)
  then set_cart (Cart.updateQuantity id' (Number.of_Z 0) (cart st)) st
  else
    match find (fun p => Number.strict_equal (id p) id') products with
    | Some product =>
        if Number.lt (stock product) newQuantity
        then showAlert "재고가 부족합니다" st
        else set_cart (Cart.updateQuantity id' newQuantity (cart st)) st
    | None => set_cart (Cart.updateQuantity id' newQuantity (cart st)) st
    end.

(** What the user interface invokes on the screen. *)
Inductive Event :=
| ev_handleAddToCart (product : ProductResponse)
| ev_handleQuantityUpdate (id' newQuantity : Number.number)
| ev_remove (id' : Number.number)
| ev_clearCart
| ev_handlePayment
| ev_handleSecretTap (confirmed : bool)
| ev_alert_timeout.

Definition step (products : list ProductResponse) (ev : Event) (st : State)
  : State :=
  match ev with
  | ev_handleAddToCart product => handleAddToCart product st
  | ev_handleQuantityUpdate id' newQuantity =>
      handleQuantityUpdate products id' newQuantity st
  | ev_remove id' =>
      set_cart (Cart.updateQuantity id' (Number.of_Z 0) (cart st)) st
  | ev_clearCart => set_cart (Cart.clearCart (cart st)) st
  | ev_handlePayment => handlePayment st
  | ev_handleSecretTap confirmed => handleSecretTap confirmed st
  | ev_alert_timeout =>
      match alert_timeouts st with
      | O => st
      | S _ => alert_timeout st
      end
  end.

Definition run (products : list ProductResponse) (events : list Event)
    (st : State) : State :=
  fold_left (fun st ev => step products ev st) events st.

(** How often the kiosk has been signed out. *)
Definition signOuts (st : State) : nat :=
  length (List.filter (fun e => match e with signOut => true | _ => false end)
            (log st)).

(** The number of secret taps among the events. *)
Fixpoint taps (events : list Event) : Z :=
  match events with
  | [] => 0
  | ev_handleSecretTap _ :: rest => 1 + taps rest
  | _ :: rest => taps rest
  end.

End Products.

(* ===================================================================== *)
(** * The auth store, the request interceptors and the routes *)
(* ===================================================================== *)

Module Auth.

Record AuthState := {
  token : option string;
  authenticated : bool;
  initialized : bool;
  loading : bool;
  error : option string;
}.

Definition initial : AuthState := {|
  token := None;
  authenticated := false;
  initialized := false;
  loading := false;
  error := None;
|}.

(** No [set] of the store throws, so the [catch] branches of the actions
    are never entered. *)
Definition init (state : AuthState) : AuthState :=
  let state :=
    {| token := token state; authenticated := authenticated state;
       initialized := initialized state; loading := true; error := None |} in
  let state :=
    if PaymentScreen.truthy (token state)
    then {| token := token state; authenticated := true;
            initialized := initialized state; loading := loading state;
            error := error state |}
    else state in
  {| token := token state; authenticated := authenticated state;
     initialized := true; loading := false; error := error state |}.

Definition signIn (token' : string) (state : AuthState) : AuthState :=
  let state :=
    {| token := token state; authenticated := authenticated state;
       initialized := initialized state; loading := true; error := None |} in
  {| token := Some token'; authenticated := true;
     initialized := initialized state; loading := false;
     error := error state |}.

Definition signOut (state : AuthState) : AuthState :=
  let state :=
    {| token := token state; authenticated := authenticated state;
       initialized := initialized state; loading := true; error := None |} in
  {| token := None; authenticated := false;
     initialized := initialized state; loading := false;
     error := error state |}.

Definition resetError (state : AuthState) : AuthState :=
  {| token := token state; authenticated := authenticated state;
     initialized := initialized state; loading := loading state;
     error := None |}.

(** [partialize]: what the store persists. *)
Definition partialize (state : AuthState) : option string := token state.

(** Start of the application: the persisted token is merged into the
    initial state and [onRehydrateStorage] calls [init]. *)
Definition rehydrate (persisted : option string) : AuthState :=
  init {| token := persisted; authenticated := authenticated initial;
          initialized := initialized initial; loading := loading initial;
          error := error initial |}.

Inductive Action :=
| act_init
| act_signIn (token' : string)
| act_signOut
| act_resetError.

Definition apply (state : AuthState) (a : Action) : AuthState :=
  match a with
  | act_init => init state
  | act_signIn token' => signIn token' state
  | act_signOut => signOut state
  | act_resetError => resetError state
  end.

(** ** The interceptors of the API client *)

(** The request interceptor: the [Authorization] header it sets, if any. *)
Definition request_interceptor (state : AuthState) : option string :=
  match token state with
  | Some t => if String.eqb t "" then None else Some ("Bearer " +:+ t)
  | None => None
  end.

(** The response interceptor on an error: [status] is
    [error.response?.status], [pathname] is [window.location.pathname]. The
    result is the store afterwards and the address assigned to
    [window.location.href], if any; the error is rejected in every case. *)
Definition response_error (status : option Z) (pathname : string)
    (state : AuthState) : AuthState * option string :=
  match status with
  | Some 401 =>
      (signOut state,
       if String.eqb pathname "/login" then None else Some "/login")
  | _ => (state, None)
  end.

(** ** The routes *)

(** The [path] patterns of the route table; [other] is ["*"]. *)
Inductive Route :=
| root | login | auth_qr | products | payment | payment_complete | other.

Inductive Element :=
| LoginPage
| QrScannerPage
| ProductsPage
| PaymentPage
| PaymentCompletePage
| NotFoundPage
| Navigate (to : string).

Definition element (authenticated' : bool) (route : Route) : Element :=
  match route with
  | root =>
      if authenticated' then Navigate "/products" else Navigate "/login"
  | login =>
      if negb authenticated' then LoginPage else Navigate "/products"
  | auth_qr =>
      if negb authenticated' then QrScannerPage else Navigate "/products"
  | products =>
      if authenticated' then ProductsPage else Navigate "/login"
  | payment =>
      if authenticated' then PaymentPage else Navigate "/login"
  | payment_complete =>
      if authenticated' then PaymentCompletePage else Navigate "/login"
  | other => NotFoundPage
  end.

(** The pattern a path written in the code matches. *)
Definition match_path (path : string) : Route :=
  if String.eqb path "/" then root
  else if String.eqb path "/login" then login
  else if String.eqb path "/auth/qr" then auth_qr
  else if String.eqb path "/products" then products
  else if String.eqb path "/payment" then payment
  else if String.eqb path "/payment-complete" then payment_complete
  else other.

(** What is rendered after following [Navigate] elements, at most [fuel]
    times. *)
Fixpoint render (fuel : nat) (authenticated' : bool) (route : Route)
  : option Element :=
  match element authenticated' route with
  | Navigate to =>
      match fuel with
      | O => None
      | S fuel' => render fuel' authenticated' (match_path to)
      end
  | page => Some page
  end.

Definition needs_session (page : Element) : bool :=
  match page with
  | ProductsPage | PaymentPage | PaymentCompletePage => true
  | _ => false
  end.

Definition needs_no_session (page : Element) : bool :=
  match page with
  | LoginPage | QrScannerPage => true
  | _ => false
  end.

End Auth.

(* ===================================================================== *)
(** * The registration-code scanner *)
(* ===================================================================== *)

Module Scanner.

Inductive Effect :=
| registerMutation_mutate (registrationToken : string)
| signIn (accessToken : string)
| navigate (path : string).

(** Refs and [useState] cells of the page, the pending timeouts of the host
    with their delays, and the log. *)
Record State := {
  isMounted : bool;
  canScan : bool;
  scanActive : bool;
  resetTimerRef : option positive;
  animationFrameRef : option positive;
  timers : gmap positive Z;
  nextHandle : positive;
  log : list Effect;
}.

Definition mounted : State := {|
  isMounted := true;
  canScan := true;
  scanActive := true;
  resetTimerRef := None;
  animationFrameRef := None;
  timers := ∅;
  nextHandle := 1%positive;
  log := [];
|}.

Definition emit (e : Effect) (st : State) : State :=
  {| isMounted := isMounted st; canScan := canScan st;
     scanActive := scanActive st; resetTimerRef := resetTimerRef st;
     animationFrameRef := animationFrameRef st; timers := timers st;
     nextHandle := nextHandle st; log := log st ++ [e] |}.

(** [requestAnimationFrame(scanQRCode)], its handle kept in the ref. *)
Definition requestFrame (st : State) : State :=
  {| isMounted := isMounted st; canScan := canScan st;
     scanActive := scanActive st; resetTimerRef := resetTimerRef st;
     animationFrameRef := Some (nextHandle st); timers := timers st;
     nextHandle := (nextHandle st + 1)%positive; log := log st |}.

Definition resetScanState (st : State) : State :=
  let cleared :=
    match resetTimerRef st with
    | Some handle => delete handle (timers st)
    | None => timers st
    end in
  {| isMounted := isMounted st; canScan := canScan st;
     scanActive := scanActive st; resetTimerRef := Some (nextHandle st);
     animationFrameRef := animationFrameRef st;
     timers := <[nextHandle st := 1000]> cleared;
     nextHandle := (nextHandle st + 1)%positive; log := log st |}.

(** The callback of the reset timeout. *)
Definition reset_callback (st : State) : State :=
  if isMounted st
  then {| isMounted := isMounted st; canScan := true; scanActive := true;
          resetTimerRef := resetTimerRef st;
          animationFrameRef := animationFrameRef st; timers := timers st;
          nextHandle := nextHandle st; log := log st |}
  else st.

(** [s.trim()] on code units below 256. *)
Fixpoint trimEnd (s : string) : string :=
  match s with
  | String c rest =>
      match trimEnd rest with
      | EmptyString =>
          if PaymentScreen.isWhiteSpace c then EmptyString
          else String c EmptyString
      | rest' => String c rest'
      end
  | EmptyString => EmptyString
  end.

Definition trim (s : string) : string := trimEnd (PaymentScreen.trimStart s).

(** What one run of [scanQRCode] finds. [refs] says that the video and
    canvas elements and the drawing context are there; [ready] that the
    video has enough data; [code] is the result of the decoder, [None] when
    it finds no code, and otherwise the [data] of the code, if any. *)
Record Frame := {
  refs : bool;
  ready : bool;
  code : option (option string);
}.

(** [isStreaming], [scanActive'] and [isPending] are the values the closure
    of [scanQRCode] holds: those of the render that created it. *)
Definition scanQRCode (isStreaming scanActive' isPending : bool)
    (frame : Frame) (st : State) : State :=
  if negb (refs frame) || negb (isMounted st) || negb isStreaming
     || negb scanActive'
  then st
  else if negb (ready frame) then requestFrame st
  else
    let st :=
      match code frame with
      | Some data =>
          if canScan st && negb isPending then
            let st :=
              {| isMounted := isMounted st; canScan := false;
                 scanActive := false; resetTimerRef := resetTimerRef st;
                 animationFrameRef := animationFrameRef st;
                 timers := timers st; nextHandle := nextHandle st;
                 log := log st |} in
            match data with
            | Some d =>
                if String.eqb (trim d) "" then resetScanState st
                else emit (registerMutation_mutate (trim d)) st
            | None => resetScanState st
            end
          else st
      | None => st
      end in
    requestFrame st.

(** [registerMutation.onSuccess], with the access token of the response, if
    any; [signIn] is the action of the auth store. *)
Definition registerMutation_onSuccess (accessToken : option string)
    (st : State) : State :=
  if negb (isMounted st) then st else
  match accessToken with
  | Some t =>
      if String.eqb t "" then resetScanState st
      else
        let st := emit (signIn t) st in
        if isMounted st then emit (navigate "/products") st else st
  | None => resetScanState st
  end.

Definition registerMutation_onError (st : State) : State :=
  if isMounted st then resetScanState st else st.

(** The cleanup of the mount effect, as far as these cells go. *)
Definition unmount (st : State) : State :=
  let cleared :=
    match resetTimerRef st with
    | Some handle => delete handle (timers st)
    | None => timers st
    end in
  {| isMounted := false; canScan := canScan st; scanActive := true;
     resetTimerRef := None; animationFrameRef := None; timers := cleared;
     nextHandle := nextHandle st; log := log st |}.

(** The body of the mount effect, as far as these cells go. React runs it
    again, after the cleanup, whenever a dependency of the effect changes. *)
Definition mount (st : State) : State :=
  {| isMounted := true; canScan := canScan st; scanActive := scanActive st;
     resetTimerRef := resetTimerRef st;
     animationFrameRef := animationFrameRef st; timers := timers st;
     nextHandle := nextHandle st; log := log st |}.

Inductive Event :=
| ev_mount
| ev_scan (isStreaming scanActive' isPending : bool) (frame : Frame)
| ev_registered (accessToken : option string)
| ev_failed
| ev_timeout (handle : positive)
| ev_unmount.

Definition step (ev : Event) (st : State) : State :=
  match ev with
  | ev_mount => mount st
  | ev_scan isStreaming scanActive' isPending frame =>
      scanQRCode isStreaming scanActive' isPending frame st
  | ev_registered accessToken => registerMutation_onSuccess accessToken st
  | ev_failed => registerMutation_onError st
  | ev_timeout handle =>
      match timers st !! handle with
      | Some _ =>
          reset_callback
            {| isMounted := isMounted st; canScan := canScan st;
               scanActive := scanActive st; resetTimerRef := resetTimerRef st;
               animationFrameRef := animationFrameRef st;
               timers := delete handle (timers st);
               nextHandle := nextHandle st; log := log st |}
      | None => st
      end
  | ev_unmount => unmount st
  end.

Fixpoint run (events : list Event) (st : State) : State :=
  match events with
  | [] => st
  | ev :: rest => run rest (step ev st)
  end.

Definition is_registration (e : Effect) : bool :=
  match e with
  | registerMutation_mutate _ => true
  | _ => false
  end.

Definition registrations (st : State) : nat :=
  length (List.filter is_registration (log st)).

(** A registration ends with [ev_registered] or [ev_failed]. *)
Definition is_end (ev : Event) : bool :=
  match ev with
  | ev_registered _ | ev_failed => true
  | _ => false
  end.

(** A run the host can produce: a registration ends only after it was
    started, each one once; [ended] counts the ends before the run. *)
Fixpoint well_sequenced (events : list Event) (st : State) (ended : nat)
  : Prop :=
  match events with
  | [] => True
  | ev :: rest =>
      (is_end ev = true -> (ended < registrations st)%nat)
      /\ well_sequenced rest (step ev st)
           (if is_end ev then S ended else ended)
  end.

Fixpoint count_ends (events : list Event) : nat :=
  match events with
  | [] => O
  | ev :: rest => ((if is_end ev then 1 else 0) + count_ends rest)%nat
  end.

(** What keeps registrations apart, [ended] of them having ended: at most
    one is in flight; the pending reset timeout is the one the ref holds;
    scanning is enabled only with none in flight and no timeout pending; a
    timeout is pending only with none in flight. *)
Definition debounce_invariant (ended : nat) (st : State) : Prop :=
  (ended <= registrations st <= S ended)%nat
  /\ (forall handle d,
         timers st !! handle = Some d -> resetTimerRef st = Some handle)
  /\ (canScan st = true -> registrations st = ended /\ timers st = ∅)
  /\ (timers st <> ∅ -> registrations st = ended).

End Scanner.

(* ===================================================================== *)
(** * Properties of JavaScript numbers *)
(* ===================================================================== *)

Section Rounding.

Lemma digits2_pos_bounds (p : positive) :
  2 ^ (Zpos (digits2_pos p) - 1) <= Zpos p < 2 ^ Zpos (digits2_pos p).
Proof.
  induction p as [p IH|p IH|]; simpl digits2_pos.
  - rewrite Pos2Z.inj_succ. change (Zpos p~1) with (2 * Zpos p + 1).
    replace (Z.succ (Zpos (digits2_pos p)) - 1)
      with (Z.succ (Zpos (digits2_pos p) - 1)) by lia.
    rewrite !Z.pow_succ_r by lia.
    destruct IH as [Hlo Hhi]. revert Hlo Hhi.
    generalize (2 ^ (Zpos (digits2_pos p) - 1)) (2 ^ Zpos (digits2_pos p)).
    intros; lia.
  - rewrite Pos2Z.inj_succ. change (Zpos p~0) with (2 * Zpos p).
    replace (Z.succ (Zpos (digits2_pos p)) - 1)
      with (Z.succ (Zpos (digits2_pos p) - 1)) by lia.
    rewrite !Z.pow_succ_r by lia.
    destruct IH as [Hlo Hhi]. revert Hlo Hhi.
    generalize (2 ^ (Zpos (digits2_pos p) - 1)) (2 ^ Zpos (digits2_pos p)).
    intros; lia.
  - simpl. lia.
Qed.

Lemma digits2_pos_unique (p : positive) (d : Z) :
  2 ^ (d - 1) <= Zpos p < 2 ^ d -> Zpos (digits2_pos p) = d.
Proof.
  intros [Hlo Hhi]. pose proof (digits2_pos_bounds p) as [Hlo' Hhi'].
  assert (0 < d).
  { destruct (Z.lt_ge_cases 0 d) as [|Hd]; [assumption|].
    exfalso. destruct (Z.eq_dec d 0) as [->|].
    - simpl in Hhi. lia.
    - rewrite Z.pow_neg_r in Hhi by lia. lia. }
  destruct (Z.lt_trichotomy (Zpos (digits2_pos p)) d) as [Hlt|[Heq|Hgt]];
    [|assumption|].
  - assert (2 ^ Zpos (digits2_pos p) <= 2 ^ (d - 1))
      by (apply Z.pow_le_mono_r; lia). lia.
  - assert (2 ^ d <= 2 ^ (Zpos (digits2_pos p) - 1))
      by (apply Z.pow_le_mono_r; lia). lia.
Qed.

Lemma digits2_pos_shift (p q : positive) (k : Z) :
  0 <= k -> Zpos q = Zpos p * 2 ^ k ->
  Zpos (digits2_pos q) = Zpos (digits2_pos p) + k.
Proof.
  intros Hk Hq. apply digits2_pos_unique. rewrite Hq.
  pose proof (digits2_pos_bounds p) as [Hlo Hhi].
  replace (Zpos (digits2_pos p) + k - 1)
    with ((Zpos (digits2_pos p) - 1) + k) by lia.
  rewrite !Z.pow_add_r by lia.
  assert (0 < 2 ^ k) by (apply Z.pow_pos_nonneg; lia).
  split; [apply Z.mul_le_mono_nonneg_r; lia|].
  apply Z.mul_lt_mono_pos_r; lia.
Qed.

Lemma iter_pos_nat {A : Type} (f : A -> A) (p : positive) (x : A) :
  SpecFloat.iter_pos f p x = Nat.iter (Pos.to_nat p) f x.
Proof.
  revert x. induction p as [p IH|p IH|]; intros x; simpl SpecFloat.iter_pos.
  - rewrite !IH, Pos2Nat.inj_xI.
    replace (S (2 * Pos.to_nat p)) with (Pos.to_nat p + S (Pos.to_nat p))%nat
      by lia.
    rewrite Nat.iter_add, Nat.iter_succ_r. reflexivity.
  - rewrite !IH, Pos2Nat.inj_xO.
    replace (2 * Pos.to_nat p)%nat with (Pos.to_nat p + Pos.to_nat p)%nat
      by lia.
    rewrite Nat.iter_add. reflexivity.
  - reflexivity.
Qed.

Lemma shr_1_m (mrs : shr_record) :
  0 <= shr_m mrs -> shr_m (shr_1 mrs) = shr_m mrs / 2.
Proof.
  destruct mrs as [m r s]. cbn [shr_m]. intros Hm.
  destruct m as [|[p|p|]|p]; cbn [shr_1 shr_m]; try lia; try reflexivity.
  - change (Zpos p~1) with (2 * Zpos p + 1).
    apply (Z.div_unique _ _ _ 1); lia.
  - change (Zpos p~0) with (2 * Zpos p).
    apply (Z.div_unique _ _ _ 0); lia.
Qed.

Lemma shr_nat_m (n : nat) (mrs : shr_record) :
  0 <= shr_m mrs ->
  shr_m (Nat.iter n shr_1 mrs) = shr_m mrs / 2 ^ Z.of_nat n.
Proof.
  revert mrs. induction n as [|n IH]; intros mrs Hm.
  - simpl. now rewrite Z.div_1_r.
  - rewrite Nat.iter_succ_r, IH, shr_1_m by
      (try rewrite shr_1_m by assumption; try apply Z.div_pos; lia).
    rewrite Nat2Z.inj_succ, Z.pow_succ_r by lia.
    rewrite Z.div_div by (try apply Z.pow_pos_nonneg; lia). reflexivity.
Qed.

Lemma shr_1_exact (m : Z) :
  0 <= m ->
  shr_1 (Build_shr_record (2 * m) false false)
  = Build_shr_record m false false.
Proof.
  intros Hm. destruct m as [|p|p]; [reflexivity|reflexivity|lia].
Qed.

Lemma shr_nat_exact (n : nat) (m : Z) :
  0 <= m ->
  Nat.iter n shr_1 (Build_shr_record (m * 2 ^ Z.of_nat n) false false)
  = Build_shr_record m false false.
Proof.
  intros Hm. induction n as [|n IH].
  - simpl. now rewrite Z.mul_1_r.
  - rewrite Nat.iter_succ_r, Nat2Z.inj_succ, Z.pow_succ_r by lia.
    replace (m * (2 * 2 ^ Z.of_nat n)) with (2 * (m * 2 ^ Z.of_nat n))
      by lia.
    rewrite shr_1_exact; [exact IH|].
    apply Z.mul_nonneg_nonneg; [lia|]. apply Z.pow_nonneg. lia.
Qed.

(** A right shift of the rounding that loses no bit. *)
Lemma shr_exact (m : Z) (e k : Z) :
  0 <= m -> 0 <= k ->
  shr (Build_shr_record (m * 2 ^ k) false false) e k
  = (Build_shr_record m false false, e + k).
Proof.
  intros Hm Hk. destruct k as [|p|p]; [| |lia].
  - simpl. now rewrite Z.mul_1_r, Z.add_0_r.
  - unfold shr. rewrite iter_pos_nat.
    rewrite <- (positive_nat_Z p) at 1.
    now rewrite shr_nat_exact.
Qed.

Lemma fexp_normal (e : Z) :
  -1074 <= e - 53 -> fexp Number.prec Number.emax e = e - 53.
Proof.
  intros He. unfold fexp, emin, Number.prec, Number.emax. lia.
Qed.

Lemma norm_mantissa (n : positive) :
  Zpos (digits2_pos n) <= 53 ->
  let m := Z.to_pos (Zpos n * 2 ^ (53 - Zpos (digits2_pos n))) in
  Zpos m = Zpos n * 2 ^ (53 - Zpos (digits2_pos n))
  /\ Zpos (digits2_pos m) = 53.
Proof.
  intros Hd m.
  assert (Hm : Zpos m = Zpos n * 2 ^ (53 - Zpos (digits2_pos n))).
  { unfold m. rewrite Z2Pos.id; [reflexivity|].
    apply Z.mul_pos_pos; [lia|]. apply Z.pow_pos_nonneg; lia. }
  split; [exact Hm|].
  rewrite (digits2_pos_shift n m (53 - Zpos (digits2_pos n)))
    by (lia || exact Hm).
  lia.
Qed.

(** Rounding a mantissa whose bits beyond the 53rd are all zero. *)
Lemma binary_round_aux_exact (s : bool) (n q : positive) (j e : Z) :
  Zpos (digits2_pos n) <= 53 -> 0 <= j ->
  53 <= Zpos (digits2_pos n) + j ->
  Zpos q = Zpos n * 2 ^ j ->
  -1074 <= e + j + Zpos (digits2_pos n) - 53 <= 971 ->
  binary_round_aux Number.prec Number.emax s (Zpos q) e loc_Exact = Number.norm s n (e + j).
Proof.
  intros Hd Hj Hlong Hq Hrange.
  destruct (norm_mantissa n Hd) as [Hm Hm53].
  set (m := Z.to_pos (Zpos n * 2 ^ (53 - Zpos (digits2_pos n)))) in *.
  set (d := Zpos (digits2_pos n)) in *.
  set (k := d + j - 53).
  assert (Hqm : Zpos q = Zpos m * 2 ^ k).
  { rewrite Hq, Hm, <- Z.mul_assoc, <- Z.pow_add_r by (unfold k; lia).
    f_equal. f_equal. unfold k. lia. }
  assert (Hdq : Zpos (digits2_pos q) = d + j)
    by (apply (digits2_pos_shift n q j Hj Hq)).
  unfold binary_round_aux, shr_fexp. cbn [Zdigits2 shr_record_of_loc].
  rewrite Hdq, fexp_normal by lia.
  replace (d + j + e - 53 - e) with k by (unfold k; lia).
  rewrite Hqm, shr_exact by (unfold k; lia).
  cbn [loc_of_shr_record shr_m round_nearest_even Zdigits2
       shr_record_of_loc].
  rewrite Hm53, fexp_normal by (unfold k; lia).
  replace (53 + (e + k) - 53 - (e + k)) with 0 by lia.
  cbn [shr shr_m].
  replace (e + k <=? Number.emax - Number.prec) with true
    by (symmetry; apply Z.leb_le; unfold Number.emax, Number.prec, k; lia).
  unfold Number.norm. fold d. fold m. f_equal. unfold k. lia.
Qed.

Lemma shl_align_spec (m : positive) (e e' : Z) :
  e' <= e ->
  exists q, shl_align m e e' = (q, e') /\ Zpos q = Zpos m * 2 ^ (e - e').
Proof.
  intros He. unfold shl_align.
  destruct (e' - e) as [|p|p] eqn:Hdiff; try lia.
  - exists m. replace e' with e by lia. rewrite Z.sub_diag, Z.mul_1_r.
    split; reflexivity.
  - exists (Pos.iter xO m p). split; [reflexivity|].
    replace (e - e') with (Zpos p) by lia.
    rewrite <- Z.shiftl_mul_pow2 by lia. unfold Z.shiftl.
    clear. revert m. induction p as [|p IH] using Pos.peano_ind; intros m.
    + reflexivity.
    + rewrite !Pos.iter_succ, <- IH. reflexivity.
Qed.

(** Rounding a mantissa of at most 53 bits followed by zeros loses
    nothing. *)
Lemma binary_round_exact (s : bool) (n q : positive) (j e : Z) :
  Zpos (digits2_pos n) <= 53 -> 0 <= j ->
  Zpos q = Zpos n * 2 ^ j ->
  -1074 <= e + j + Zpos (digits2_pos n) - 53 <= 971 ->
  binary_round Number.prec Number.emax s q e = Number.norm s n (e + j).
Proof.
  intros Hd Hj Hq Hrange.
  assert (Hdq : Zpos (digits2_pos q) = Zpos (digits2_pos n) + j)
    by (apply (digits2_pos_shift n q j Hj Hq)).
  unfold binary_round. rewrite Hdq, fexp_normal by lia.
  destruct (Z.le_gt_cases (Zpos (digits2_pos n) + j) 53) as [Hshort|Hlong].
  - destruct (shl_align_spec q e (Zpos (digits2_pos n) + j + e - 53))
      as (q' & -> & Hq'); [lia|].
    rewrite (binary_round_aux_exact s n q' (53 - Zpos (digits2_pos n))).
    + f_equal. lia.
    + assumption.
    + lia.
    + lia.
    + rewrite Hq', Hq, <- Z.mul_assoc, <- Z.pow_add_r by lia.
      f_equal. f_equal. lia.
    + lia.
  - unfold shl_align.
    destruct (Zpos (digits2_pos n) + j + e - 53 - e) eqn:Hdiff; try lia.
    apply binary_round_aux_exact; try assumption; lia.
Qed.

Lemma digits2_pos_safe (n : positive) :
  Zpos n < 2 ^ 53 -> Zpos (digits2_pos n) <= 53.
Proof.
  intros Hn. pose proof (digits2_pos_bounds n) as [Hlo _].
  destruct (Z.le_gt_cases (Zpos (digits2_pos n)) 53) as [|Hgt];
    [assumption|].
  assert (2 ^ 53 <= 2 ^ (Zpos (digits2_pos n) - 1))
    by (apply Z.pow_le_mono_r; lia).
  lia.
Qed.

Lemma of_Z_pos (n : positive) :
  Zpos n < 2 ^ 53 -> Number.of_Z (Zpos n) = Number.norm false n 0.
Proof.
  intros Hn. pose proof (digits2_pos_safe n Hn).
  unfold Number.of_Z, binary_normalize.
  rewrite (binary_round_exact false n n 0 0); try lia.
  reflexivity.
Qed.

Lemma add_norm (a b : positive) :
  Zpos a + Zpos b < 2 ^ 53 ->
  Number.add (Number.norm false a 0) (Number.norm false b 0)
  = Number.norm false (a + b) 0.
Proof.
  intros Hsum.
  assert (Ha : Zpos (digits2_pos a) <= 53) by (apply digits2_pos_safe; lia).
  assert (Hb : Zpos (digits2_pos b) <= 53) by (apply digits2_pos_safe; lia).
  assert (Hab : Zpos (digits2_pos (a + b)) <= 53)
    by (apply digits2_pos_safe; lia).
  destruct (norm_mantissa a Ha) as [Hma _].
  destruct (norm_mantissa b Hb) as [Hmb _].
  unfold Number.norm at 1 2. unfold Number.add, SFadd.
  set (ma := Z.to_pos (Zpos a * 2 ^ (53 - Zpos (digits2_pos a)))) in *.
  set (mb := Z.to_pos (Zpos b * 2 ^ (53 - Zpos (digits2_pos b)))) in *.
  set (ea := 0 + Zpos (digits2_pos a) - 53).
  set (eb := 0 + Zpos (digits2_pos b) - 53).
  set (ez := Z.min ea eb).
  destruct (shl_align_spec ma ea ez) as (qa & -> & Hqa); [unfold ez; lia|].
  destruct (shl_align_spec mb eb ez) as (qb & -> & Hqb); [unfold ez; lia|].
  cbn [fst cond_Zopp]. change (Zpos qa + Zpos qb) with (Zpos (qa + qb)).
  cbn [binary_normalize].
  assert (Hez : ez <= 0) by (unfold ez, ea, eb; lia).
  assert (Hez' : -52 <= ez).
  { pose proof (Pos2Z.is_pos (digits2_pos a)).
    pose proof (Pos2Z.is_pos (digits2_pos b)). unfold ez, ea, eb. lia. }
  rewrite (binary_round_exact false (a + b) (qa + qb) (- ez) ez).
  - f_equal. lia.
  - assumption.
  - lia.
  - rewrite !Pos2Z.inj_add, Hqa, Hqb, Hma, Hmb.
    rewrite <- !Z.mul_assoc, <- !Z.pow_add_r by (unfold ea, eb; lia).
    replace (53 - Zpos (digits2_pos a) + (ea - ez)) with (- ez)
      by (unfold ea; lia).
    replace (53 - Zpos (digits2_pos b) + (eb - ez)) with (- ez)
      by (unfold eb; lia).
    lia.
  - pose proof (Pos2Z.is_pos (digits2_pos (a + b))). lia.
Qed.

Lemma digits2_pos_mul (a b : positive) :
  Zpos (digits2_pos a) + Zpos (digits2_pos b) - 1
  <= Zpos (digits2_pos (a * b)).
Proof.
  pose proof (digits2_pos_bounds a) as [Ha _].
  pose proof (digits2_pos_bounds b) as [Hb _].
  pose proof (digits2_pos_bounds (a * b)) as [_ Hab].
  pose proof (Pos2Z.is_pos (digits2_pos a)).
  pose proof (Pos2Z.is_pos (digits2_pos b)).
  destruct (Z.le_gt_cases
              (Zpos (digits2_pos a) + Zpos (digits2_pos b) - 1)
              (Zpos (digits2_pos (a * b)))) as [|Hgt]; [assumption|].
  exfalso.
  assert (2 ^ Zpos (digits2_pos (a * b))
          <= 2 ^ (Zpos (digits2_pos a) - 1 + (Zpos (digits2_pos b) - 1)))
    by (apply Z.pow_le_mono_r; lia).
  rewrite Z.pow_add_r in * by lia.
  assert (2 ^ (Zpos (digits2_pos a) - 1) * 2 ^ (Zpos (digits2_pos b) - 1)
          <= Zpos a * Zpos b).
  { apply Z.mul_le_mono_nonneg; try assumption; apply Z.pow_nonneg; lia. }
  rewrite Pos2Z.inj_mul in Hab. lia.
Qed.

Lemma mul_norm (a b : positive) :
  Zpos a * Zpos b < 2 ^ 53 ->
  Number.mul (Number.norm false a 0) (Number.norm false b 0)
  = Number.norm false (a * b) 0.
Proof.
  intros Hprod.
  assert (Ha : Zpos (digits2_pos a) <= 53) by (apply digits2_pos_safe; nia).
  assert (Hb : Zpos (digits2_pos b) <= 53) by (apply digits2_pos_safe; nia).
  assert (Hab : Zpos (digits2_pos (a * b)) <= 53)
    by (apply digits2_pos_safe; lia).
  pose proof (digits2_pos_mul a b) as Hlow.
  pose proof (Pos2Z.is_pos (digits2_pos a)).
  pose proof (Pos2Z.is_pos (digits2_pos b)).
  destruct (norm_mantissa a Ha) as [Hma _].
  destruct (norm_mantissa b Hb) as [Hmb _].
  unfold Number.norm at 1 2. unfold Number.mul, SFmul.
  set (ma := Z.to_pos (Zpos a * 2 ^ (53 - Zpos (digits2_pos a)))) in *.
  set (mb := Z.to_pos (Zpos b * 2 ^ (53 - Zpos (digits2_pos b)))) in *.
  cbn [xorb].
  rewrite (binary_round_aux_exact false (a * b) (ma * mb)
             (106 - Zpos (digits2_pos a) - Zpos (digits2_pos b))).
  - f_equal. lia.
  - assumption.
  - lia.
  - lia.
  - rewrite !Pos2Z.inj_mul, Hma, Hmb.
    replace (106 - Zpos (digits2_pos a) - Zpos (digits2_pos b))
      with (53 - Zpos (digits2_pos a) + (53 - Zpos (digits2_pos b))) by lia.
    rewrite Z.pow_add_r by lia. ring.
  - lia.
Qed.

(** Sums and products of whole numbers below 2^53 are exact. *)
Lemma add_of_Z (a b : Z) :
  0 <= a -> 0 <= b -> a + b < 2 ^ 53 ->
  Number.add (Number.of_Z a) (Number.of_Z b) = Number.of_Z (a + b).
Proof.
  intros Ha Hb Hsum.
  destruct a as [|a|a]; [|destruct b as [|b|b]|]; try lia.
  - destruct b as [|b|b]; try lia; [reflexivity|].
    rewrite Z.add_0_l, of_Z_pos by lia. reflexivity.
  - rewrite Z.add_0_r, of_Z_pos by lia. reflexivity.
  - rewrite !of_Z_pos by lia.
    change (Zpos a + Zpos b) with (Zpos (a + b)).
    rewrite of_Z_pos by lia. apply add_norm. lia.
Qed.

Lemma mul_of_Z (a b : Z) :
  0 <= a < 2 ^ 53 -> 0 <= b < 2 ^ 53 -> a * b < 2 ^ 53 ->
  Number.mul (Number.of_Z a) (Number.of_Z b) = Number.of_Z (a * b).
Proof.
  intros Ha Hb Hprod.
  destruct a as [|a|a]; [|destruct b as [|b|b]|]; try lia.
  - destruct b as [|b|b]; try lia; [reflexivity|].
    rewrite of_Z_pos by lia. reflexivity.
  - rewrite Z.mul_0_r, of_Z_pos by lia. reflexivity.
  - rewrite !of_Z_pos by lia.
    change (Zpos a * Zpos b) with (Zpos (a * b)).
    rewrite of_Z_pos by lia. apply mul_norm. lia.
Qed.

Lemma to_Z_of_Z (n : Z) : 0 <= n < 2 ^ 53 -> Number.to_Z (Number.of_Z n) = Some n.
Proof.
  intros Hn. destruct n as [|n|n]; [reflexivity| |lia].
  rewrite of_Z_pos by lia.
  pose proof (digits2_pos_safe n ltac:(lia)) as Hd.
  destruct (norm_mantissa n Hd) as [Hm _].
  unfold Number.norm, Number.to_Z. rewrite Hm. cbn [cond_Zopp].
  destruct (Z.leb_spec 0 (0 + Zpos (digits2_pos n) - 53)) as [Hle|Hlt].
  - replace (53 - Zpos (digits2_pos n)) with 0 by lia.
    replace (0 + Zpos (digits2_pos n) - 53) with 0 by lia.
    f_equal. simpl. lia.
  - replace (- (0 + Zpos (digits2_pos n) - 53))
      with (53 - Zpos (digits2_pos n)) by lia.
    assert (0 < 2 ^ (53 - Zpos (digits2_pos n)))
      by (apply Z.pow_pos_nonneg; lia).
    rewrite Z.mod_mul, Z.div_mul by lia. reflexivity.
Qed.

(** ** Numbers that are at least 1 *)

Lemma ge_one_cases (q : spec_float) :
  Number.le (Number.of_Z 1) q = true ->
  q = S754_infinity false
  \/ exists m e, q = S754_finite false m e
       /\ (-52 < e \/ (e = -52 /\ 2 ^ 52 <= Zpos m)).
Proof.
  change (Number.of_Z 1) with (S754_finite false 4503599627370496 (-52)).
  unfold Number.le, SFleb, SFcompare. intros H.
  destruct q as [s|[|]| |[|] m e]; try discriminate H.
  - left. reflexivity.
  - right. exists m, e. split; [reflexivity|].
    destruct (Z.compare_spec (-52) e) as [He|He|He]; try discriminate H.
    + right. split; [lia|].
      rewrite Pos.compare_cont_spec in H. cbn [Pos.switch_Eq] in H.
      destruct (Pos.compare_spec 4503599627370496 m) as [Hm|Hm|Hm];
        try discriminate H.
      * subst m. lia.
      * apply Pos2Z.pos_lt_pos in Hm. lia.
    + left. lia.
Qed.

Lemma ge_one_positive (q : spec_float) :
  Number.le (Number.of_Z 1) q = true -> Number.le q (Number.of_Z 0) = false.
Proof.
  intros H. destruct (ge_one_cases q H) as [->|(m & e & -> & _)];
    reflexivity.
Qed.

Lemma round_nearest_even_ge (m : Z) (l : location) :
  m <= round_nearest_even m l.
Proof.
  destruct l as [|[| |]]; cbn [round_nearest_even]; try lia.
  destruct (Z.even m); lia.
Qed.

Lemma shr_spec (mrs : shr_record) (e k : Z) :
  0 <= shr_m mrs -> 0 <= k ->
  shr_m (fst (shr mrs e k)) = shr_m mrs / 2 ^ k
  /\ snd (shr mrs e k) = e + k.
Proof.
  intros Hm Hk. destruct k as [|p|p]; [| |lia].
  - cbn [shr fst snd]. rewrite Z.div_1_r. lia.
  - cbn [shr fst snd]. rewrite iter_pos_nat, shr_nat_m by assumption.
    rewrite positive_nat_Z. split; reflexivity.
Qed.

Lemma div_pow2_ge (m d k : Z) :
  0 <= k -> 0 <= d -> 2 ^ (d + k) <= m -> 2 ^ d <= m / 2 ^ k.
Proof.
  intros Hk Hd Hm. rewrite Z.pow_add_r in Hm by lia.
  apply Z.div_le_lower_bound; [apply Z.pow_pos_nonneg; lia|lia].
Qed.

(** Rounding a value of at least 1 does not give less than 1. *)
Lemma binary_round_ge_one (M : positive) (ez : Z) :
  ez <= -52 -> 2 ^ (- ez) <= Zpos M ->
  Number.le (Number.of_Z 1) (binary_round Number.prec Number.emax false M ez) = true.
Proof.
  intros Hez HM.
  change (Number.of_Z 1) with (S754_finite false 4503599627370496 (-52)).
  pose proof (digits2_pos_bounds M) as [HloM HhiM].
  assert (HD : 1 - ez <= Zpos (digits2_pos M)).
  { destruct (Z.le_gt_cases (1 - ez) (Zpos (digits2_pos M))) as [|Hlt];
      [assumption|].
    assert (2 ^ Zpos (digits2_pos M) <= 2 ^ (- ez))
      by (apply Z.pow_le_mono_r; lia). lia. }
  set (D := Zpos (digits2_pos M)) in *.
  unfold binary_round. fold D. rewrite fexp_normal by lia.
  unfold shl_align.
  set (k := D + ez - 53 - ez).
  assert (Hk : 0 <= k) by (unfold k; lia).
  replace (match k with Z.neg d => (Pos.iter xO M d, D + ez - 53)
                      | _ => (M, ez) end) with (M, ez)
    by (destruct k; try reflexivity; lia).
  unfold binary_round_aux, shr_fexp. cbn [Zdigits2 shr_record_of_loc].
  fold D. rewrite fexp_normal by lia. fold k.
  pose proof (shr_spec (Build_shr_record (Zpos M) false false) ez k
                ltac:(cbn; lia) Hk) as [Hm1 He1].
  destruct (shr (Build_shr_record (Zpos M) false false) ez k)
    as [mrs1 e1].
  cbn [fst snd shr_m] in Hm1, He1. subst e1.
  assert (H1 : 2 ^ 52 <= shr_m mrs1).
  { rewrite Hm1. apply div_pow2_ge; try lia.
    replace (52 + k) with (D - 1) by (unfold k; lia). assumption. }
  pose proof (round_nearest_even_ge (shr_m mrs1)
                (loc_of_shr_record mrs1)) as H2.
  destruct (round_nearest_even (shr_m mrs1) (loc_of_shr_record mrs1))
    as [|m2|m2] eqn:Hm2; try lia.
  cbn [Zdigits2 shr_record_of_loc].
  pose proof (digits2_pos_bounds m2) as [Hlo2 Hhi2].
  assert (HD2 : 53 <= Zpos (digits2_pos m2)).
  { destruct (Z.le_gt_cases 53 (Zpos (digits2_pos m2))) as [|Hlt];
      [assumption|].
    assert (2 ^ Zpos (digits2_pos m2) <= 2 ^ 52)
      by (apply Z.pow_le_mono_r; lia). lia. }
  set (D2 := Zpos (digits2_pos m2)) in *.
  rewrite fexp_normal by (unfold k; lia).
  set (k2 := D2 + (ez + k) - 53 - (ez + k)).
  pose proof (shr_spec (Build_shr_record (Zpos m2) false false)
                (ez + k) k2 ltac:(cbn; lia) ltac:(unfold k2; lia))
    as [Hm3 He3].
  destruct (shr (Build_shr_record (Zpos m2) false false) (ez + k) k2)
    as [mrs3 e3].
  cbn [fst snd shr_m] in Hm3, He3. subst e3.
  assert (H3 : 2 ^ 52 <= shr_m mrs3).
  { rewrite Hm3. apply div_pow2_ge; try (unfold k2; lia).
    replace (52 + k2) with (D2 - 1) by (unfold k2; lia). assumption. }
  destruct (shr_m mrs3) as [|m3|m3]; try lia.
  destruct (ez + k + k2 <=? Number.emax - Number.prec); [|reflexivity].
  unfold Number.le, SFleb, SFcompare.
  destruct (Z.compare_spec (-52) (ez + k + k2)) as [He|He|He];
    try reflexivity.
  - rewrite Pos.compare_cont_spec. cbn [Pos.switch_Eq].
    destruct (Pos.compare_spec 4503599627370496 m3) as [Heq|Hlt|Hgt];
      try reflexivity.
    apply Pos2Z.pos_lt_pos in Hgt. clear - Hgt H3. lia.
  - unfold k, k2 in He. lia.
Qed.

(** A number is positive when [q <= 0] is false and it is not [NaN]. *)
Lemma positive_cases (q : spec_float) :
  Number.le q (Number.of_Z 0) = false -> q <> S754_nan ->
  q = S754_infinity false \/ exists m e, q = S754_finite false m e.
Proof.
  intros H Hnan. destruct q as [s|[|]| |[|] m e]; try discriminate H.
  - left. reflexivity.
  - contradiction.
  - right. exists m, e. reflexivity.
Qed.

(** Adding 1 to a positive number gives a number that is at least 1. *)
Lemma add_one_ge_one (q : spec_float) :
  Number.le q (Number.of_Z 0) = false -> q <> S754_nan ->
  Number.le (Number.of_Z 1) (Number.add q (Number.of_Z 1)) = true.
Proof.
  intros H Hnan.
  destruct (positive_cases q H Hnan) as [->|(m & e & ->)]; [reflexivity|].
  change (Number.of_Z 1) with (S754_finite false 4503599627370496 (-52)) at 2.
  unfold Number.add, SFadd.
  set (ez := Z.min e (-52)).
  destruct (shl_align_spec m e ez) as (qa & -> & Hqa); [unfold ez; lia|].
  destruct (shl_align_spec 4503599627370496 (-52) ez)
    as (qb & -> & Hqb); [unfold ez; lia|].
  cbn [fst cond_Zopp]. change (Zpos qa + Zpos qb) with (Zpos (qa + qb)).
  cbn [binary_normalize]. apply binary_round_ge_one; [unfold ez; lia|].
  rewrite Pos2Z.inj_add, Hqb.
  change (Zpos 4503599627370496) with (2 ^ 52).
  rewrite <- Z.pow_add_r by (unfold ez; lia).
  replace (52 + (-52 - ez)) with (- ez) by lia. lia.
Qed.

End Rounding.

(* ===================================================================== *)
(** * Properties of the cart store *)
(* ===================================================================== *)

Section CartProperties.

Import Cart.

Lemma sum_over_lines_nonneg (f : Z * Z -> Z) (lines : list (Z * Z)) :
  Forall (fun line => 0 <= f line) lines -> 0 <= sum_over_lines f lines.
Proof.
  induction 1 as [|line rest Hline _ IH]; simpl; lia.
Qed.

Lemma whole_lines_amounts (state : CartState) (lines : list (Z * Z)) :
  whole_lines state lines ->
  Forall (fun line => 0 <= line.1 * line.2) lines
  /\ Forall (fun line => 0 <= line.2) lines.
Proof.
  unfold whole_lines. generalize (items state). intros l H.
  induction H as [|item line l' lines' (_ & _ & Hp & Hq) _ [IH1 IH2]].
  - split; constructor.
  - split; constructor; try assumption; nia.
Qed.

(** A [reduce] over whole lines from a whole start is exact as long as the
    exact sum stays a safe integer. *)
Lemma fold_left_total (l : list CartItem) (lines : list (Z * Z))
    (start : Z) :
  Forall2
    (fun item line =>
       price item = Number.of_Z line.1
       /\ quantity item = Number.of_Z line.2
       /\ 0 <= line.1 <= Number.MAX_SAFE_INTEGER
       /\ 0 <= line.2 <= Number.MAX_SAFE_INTEGER) l lines ->
  0 <= start ->
  start + spec_total lines <= Number.MAX_SAFE_INTEGER ->
  fold_left
    (fun total item =>
       Number.add total (Number.mul (price item) (quantity item)))
    l (Number.of_Z start)
  = Number.of_Z (start + spec_total lines).
Proof.
  intros H. revert start.
  induction H as [|item line l' lines' (Hp & Hq & Hpr & Hqr) Hrest IH];
    intros start Hstart Hsum.
  - simpl. now rewrite Z.add_0_r.
  - destruct (whole_lines_amounts {| items := l' |} lines' Hrest)
      as [Hamounts _].
    pose proof (sum_over_lines_nonneg _ _ Hamounts) as Hnonneg.
    unfold spec_total in *. cbn [sum_over_lines] in *.
    unfold Number.MAX_SAFE_INTEGER in *.
    assert (0 <= line.1 * line.2) by nia.
    cbn [fold_left]. rewrite Hp, Hq.
    rewrite mul_of_Z, add_of_Z by lia.
    rewrite IH by lia. f_equal. lia.
Qed.

Lemma fold_left_count (l : list CartItem) (lines : list (Z * Z))
    (start : Z) :
  Forall2
    (fun item line =>
       price item = Number.of_Z line.1
       /\ quantity item = Number.of_Z line.2
       /\ 0 <= line.1 <= Number.MAX_SAFE_INTEGER
       /\ 0 <= line.2 <= Number.MAX_SAFE_INTEGER) l lines ->
  0 <= start ->
  start + spec_itemCount lines <= Number.MAX_SAFE_INTEGER ->
  fold_left (fun total item => Number.add total (quantity item))
    l (Number.of_Z start)
  = Number.of_Z (start + spec_itemCount lines).
Proof.
  intros H. revert start.
  induction H as [|item line l' lines' (Hp & Hq & Hpr & Hqr) Hrest IH];
    intros start Hstart Hsum.
  - simpl. now rewrite Z.add_0_r.
  - destruct (whole_lines_amounts {| items := l' |} lines' Hrest)
      as [_ Hcounts].
    pose proof (sum_over_lines_nonneg snd _ Hcounts) as Hnonneg.
    unfold spec_itemCount in *. cbn [sum_over_lines] in *.
    unfold Number.MAX_SAFE_INTEGER in *.
    cbn [fold_left]. rewrite Hq.
    rewrite add_of_Z by (simpl in *; lia).
    rewrite IH by (simpl in *; lia). f_equal. simpl. lia.
Qed.

Lemma getTotalAmount_whole (state : CartState) (lines : list (Z * Z)) :
  whole_lines state lines ->
  spec_total lines <= Number.MAX_SAFE_INTEGER ->
  getTotalAmount state = Number.of_Z (spec_total lines).
Proof.
  intros Hlines Hsum. unfold getTotalAmount.
  rewrite (fold_left_total _ lines 0 Hlines); [reflexivity|lia|lia].
Qed.

Lemma getTotalItems_whole (state : CartState) (lines : list (Z * Z)) :
  whole_lines state lines ->
  spec_itemCount lines <= Number.MAX_SAFE_INTEGER ->
  getTotalItems state = Number.of_Z (spec_itemCount lines).
Proof.
  intros Hlines Hsum. unfold getTotalItems.
  rewrite (fold_left_count _ lines 0 Hlines); [reflexivity|lia|lia].
Qed.

(** [find] succeeds exactly when some line carries the id. *)
Lemma find_line_None (pid : Number.number) (lines : list CartItem) :
  find (fun item => Number.strict_equal (id item) pid) lines = None
  <-> (forall line,
          In line lines -> Number.strict_equal (id line) pid = false).
Proof.
  split.
  - intros Hnone line Hin. exact (find_none _ _ Hnone line Hin).
  - intros Hall. induction lines as [|line rest IH]; simpl; [reflexivity|].
    rewrite (Hall line) by now left.
    apply IH. intros l Hl. apply Hall. now right.
Qed.

Lemma ge_one_not_NaN (q : Number.number) :
  Number.le (Number.of_Z 1) q = true -> q <> Number.NaN.
Proof.
  intros H ->. discriminate H.
Qed.

(** [quantity + 1] keeps [1 <= quantity]. *)
Lemma increment_ge_one (q : Number.number) :
  Number.le (Number.of_Z 1) q = true ->
  Number.le (Number.of_Z 1) (Number.add q (Number.of_Z 1)) = true.
Proof.
  intros H. apply add_one_ge_one.
  - now apply ge_one_positive.
  - now apply ge_one_not_NaN.
Qed.

(** [quantity + 1] keeps [quantity <= 0] false. *)
Lemma increment_not_below (q : Number.number) :
  Number.le q (Number.of_Z 0) = false ->
  Number.le (Number.add q (Number.of_Z 1)) (Number.of_Z 0) = false.
Proof.
  intros H. destruct q as [s|s| |s m e] eqn:Hq; try reflexivity.
  - destruct s; [discriminate H | reflexivity].
  - rewrite <- Hq in *. apply ge_one_positive, add_one_ge_one;
      [assumption|]. rewrite Hq. discriminate.
Qed.

Lemma addItem_preserves (product : Product) (state : CartState) :
  quantities_positive state -> quantities_positive (addItem product state).
Proof.
  unfold quantities_positive, addItem. intros Hpos.
  destruct (find _ (items state)); simpl.
  - apply Forall_forall. intros line Hin.
    apply list_elem_of_In, in_map_iff in Hin.
    destruct Hin as (line0 & <- & Hin0).
    assert (Number.le (Number.of_Z 1) (quantity line0) = true) as Hq.
    { eapply (proj1 (Forall_forall _ _) Hpos). now apply list_elem_of_In. }
    destruct (Number.strict_equal (id line0) (product_id product)); simpl;
      [now apply increment_ge_one | assumption].
  - apply Forall_app. split; [exact Hpos|].
    constructor; [reflexivity | constructor].
Qed.

Lemma updateQuantity_preserves (id' quantity' : Number.number)
    (state : CartState) :
  proper (UpdateQuantity id' quantity') = true ->
  quantities_positive state ->
  quantities_positive (updateQuantity id' quantity' state).
Proof.
  unfold quantities_positive, updateQuantity, proper. intros Hn Hpos.
  destruct (Number.le quantity' (Number.of_Z 0)) eqn:E; simpl.
  - apply Forall_forall. intros line Hin.
    apply list_elem_of_In, filter_In in Hin. destruct Hin as [Hin _].
    apply list_elem_of_In in Hin.
    exact (proj1 (Forall_forall _ _) Hpos line Hin).
  - simpl in Hn.
    apply Forall_forall. intros line Hin.
    apply list_elem_of_In, in_map_iff in Hin.
    destruct Hin as (line0 & <- & Hin0).
    assert (Number.le (Number.of_Z 1) (quantity line0) = true) as Hq.
    { eapply (proj1 (Forall_forall _ _) Hpos). now apply list_elem_of_In. }
    destruct (Number.strict_equal (id line0) id'); simpl; assumption.
Qed.

Lemma apply_preserves (state : CartState) (op : Op) :
  proper op = true ->
  quantities_positive state -> quantities_positive (apply state op).
Proof.
  destruct op; simpl; intros Hop.
  - apply addItem_preserves.
  - now apply updateQuantity_preserves.
  - intros _. constructor.
Qed.

Lemma run_preserves (ops : list Op) (state : CartState) :
  forallb proper ops = true ->
  quantities_positive state -> quantities_positive (run ops state).
Proof.
  revert state. induction ops as [|op ops IH]; intros state Hops Hpos.
  - exact Hpos.
  - simpl in Hops. apply andb_prop in Hops as [Hop Hops].
    simpl. apply IH; [exact Hops|]. now apply apply_preserves.
Qed.

Lemma apply_no_quantity_below (state : CartState) (op : Op) :
  no_quantity_below state -> no_quantity_below (apply state op).
Proof.
  unfold no_quantity_below. intros Hst.
  destruct op as [product|id' n|]; simpl.
  - unfold addItem. destruct (find _ (items state)); simpl.
    + apply Forall_forall. intros line Hin.
      apply list_elem_of_In, in_map_iff in Hin.
      destruct Hin as (line0 & <- & Hin0).
      assert (Number.le (quantity line0) (Number.of_Z 0) = false) as Hq.
      { eapply (proj1 (Forall_forall _ _) Hst). now apply list_elem_of_In. }
      destruct (Number.strict_equal (id line0) (product_id product));
        simpl; [now apply increment_not_below | assumption].
    + apply Forall_app. split; [exact Hst|].
      constructor; [reflexivity | constructor].
  - unfold updateQuantity.
    destruct (Number.le n (Number.of_Z 0)) eqn:E; simpl.
    + apply Forall_forall. intros line Hin.
      apply list_elem_of_In, filter_In in Hin. destruct Hin as [Hin _].
      apply list_elem_of_In in Hin.
      exact (proj1 (Forall_forall _ _) Hst line Hin).
    + apply Forall_forall. intros line Hin.
      apply list_elem_of_In, in_map_iff in Hin.
      destruct Hin as (line0 & <- & Hin0).
      assert (Number.le (quantity line0) (Number.of_Z 0) = false) as Hq.
      { eapply (proj1 (Forall_forall _ _) Hst). now apply list_elem_of_In. }
      destruct (Number.strict_equal (id line0) id'); simpl; assumption.
  - constructor.
Qed.

Lemma reachable_no_quantity_below (state : CartState) :
  reachable state -> no_quantity_below state.
Proof.
  intros [ops ->]. unfold run.
  assert (H : no_quantity_below initial) by constructor.
  revert H. generalize initial.
  induction ops as [|op ops IH]; intros state H; [exact H|].
  simpl. apply IH. now apply apply_no_quantity_below.
Qed.

End CartProperties.

Section CartClaims.

Import Cart.

(** C8. The totals are sums of JavaScript numbers, rounded at every step.
    For every cart reached by [addItem] and [updateQuantity] calls from the
    empty cart whose lines hold whole prices and quantities from 0 to
    [Number.MAX_SAFE_INTEGER]: when the exact sum over the lines of
    price × quantity is at most [Number.MAX_SAFE_INTEGER],
    [getTotalAmount()] is that sum, and when the exact sum of the
    quantities is, [getTotalItems()] is that sum. A cart with the two
    lines (price 1000, quantity 2) and (price 500, quantity 3), whatever
    their ids and names, has [getTotalAmount() = 3500] and
    [getTotalItems() = 5]. *)
Theorem C8_cart_totals :
  (forall (ops : list Op) (lines : list (Z * Z)),
      forallb is_add_or_update ops = true ->
      let cart := run ops initial in
      whole_lines cart lines ->
      (spec_total lines <= Number.MAX_SAFE_INTEGER ->
       getTotalAmount cart = Number.of_Z (spec_total lines)
       /\ Number.to_Z (getTotalAmount cart) = Some (spec_total lines))
      /\ (spec_itemCount lines <= Number.MAX_SAFE_INTEGER ->
          getTotalItems cart = Number.of_Z (spec_itemCount lines)
          /\ Number.to_Z (getTotalItems cart)
             = Some (spec_itemCount lines)))
  /\ (forall id1 name1 id2 name2,
         let cart :=
           {| items :=
                [ {| id := id1; name := name1; price := Number.of_Z 1000;
                     quantity := Number.of_Z 2 |};
                  {| id := id2; name := name2; price := Number.of_Z 500;
                     quantity := Number.of_Z 3 |} ] |} in
         getTotalAmount cart = Number.of_Z 3500
         /\ getTotalItems cart = Number.of_Z 5).
Proof.
  split.
  - intros ops lines _ cart Hlines.
    destruct (whole_lines_amounts cart lines Hlines) as [Hamounts Hcounts].
    pose proof (sum_over_lines_nonneg _ _ Hamounts) as Htotal.
    pose proof (sum_over_lines_nonneg snd _ Hcounts) as Hcount.
    split; intros Hsum.
    + rewrite (getTotalAmount_whole cart lines Hlines Hsum).
      split; [reflexivity|]. apply to_Z_of_Z.
      unfold Number.MAX_SAFE_INTEGER, spec_total in *. lia.
    + rewrite (getTotalItems_whole cart lines Hlines Hsum).
      split; [reflexivity|]. apply to_Z_of_Z.
      unfold Number.MAX_SAFE_INTEGER, spec_itemCount in *. lia.
  - intros. split; reflexivity.
Qed.

(** The two-line cart of C8 arises from the empty cart: add product 1 twice
    and product 2 once, then set the quantity of product 2 to 3. *)
Lemma C8_cart_totals_witness :
  let ops :=
    [ AddItem {| product_id := Number.of_Z 1; product_name := "A";
                 product_price := Number.of_Z 1000 |};
      AddItem {| product_id := Number.of_Z 2; product_name := "B";
                 product_price := Number.of_Z 500 |};
      AddItem {| product_id := Number.of_Z 1; product_name := "A";
                 product_price := Number.of_Z 1000 |};
      UpdateQuantity (Number.of_Z 2) (Number.of_Z 3) ] in
  let lines := [(1000, 2); (500, 3)] in
  forallb is_add_or_update ops = true
  /\ whole_lines (run ops initial) lines
  /\ spec_total lines = 3500
  /\ spec_itemCount lines = 5
  /\ Number.to_Z (getTotalAmount (run ops initial)) = Some 3500
  /\ Number.to_Z (getTotalItems (run ops initial)) = Some 5.
Proof.
  intros ops lines.
  assert (Hlines : whole_lines (run ops initial) lines).
  { repeat constructor; vm_compute; congruence. }
  split; [reflexivity|].
  split; [exact Hlines|].
  split; [reflexivity|].
  split; [reflexivity|].
  destruct (proj1 C8_cart_totals ops lines eq_refl Hlines) as [Htotal Hcount].
  split.
  - apply Htotal. vm_compute. congruence.
  - apply Hcount. vm_compute. congruence.
Defined.

(** C8 as the specification words it does not hold: one line of price
    94906267 and quantity 94906267, reached by one [addItem] and one
    [updateQuantity], has the exact total 9007199515875289, which no
    JavaScript number holds; [getTotalAmount()] is 9007199515875288. *)
Lemma C8_counterexample :
  let ops :=
    [ AddItem {| product_id := Number.of_Z 1; product_name := "A";
                 product_price := Number.of_Z 94906267 |};
      UpdateQuantity (Number.of_Z 1) (Number.of_Z 94906267) ] in
  let lines := [(94906267, 94906267)] in
  let cart := run ops initial in
  forallb is_add_or_update ops = true
  /\ whole_lines cart lines
  /\ spec_total lines = 9007199515875289
  /\ Number.to_Z (getTotalAmount cart) = Some 9007199515875288.
Proof.
  intros ops lines cart.
  split; [reflexivity|].
  split; [repeat constructor; vm_compute; congruence|].
  split; reflexivity.
Qed.

(** C9. [addItem] appends a line of quantity 1 when no line has the
    product's id and otherwise adds 1 to the quantity of the lines with
    that id; [updateQuantity(id, n)] keeps only the lines with another id
    when [n <= 0] and otherwise (also for a [NaN]) gives the lines with
    that id the quantity n; [clearCart] leaves no line. "Every line has
    quantity ≥ 1" is preserved by [addItem], by [clearCart] and by
    [updateQuantity(id, n)] with [n <= 0] or [1 <= n], so it holds of every
    cart reached from the empty one by such operations; and whatever the
    operations, no reachable cart has a line with [quantity <= 0]. *)
Theorem C9_cart_quantity_invariant :
  (forall product state,
      (forall line,
          In line (items state) ->
          Number.strict_equal (id line) (product_id product) = false) ->
      items (addItem product state)
      = items state
        ++ [ {| id := product_id product; name := product_name product;
                price := product_price product;
                quantity := Number.of_Z 1 |} ])
  /\ (forall product state,
         (exists line,
             In line (items state)
             /\ Number.strict_equal (id line) (product_id product) = true) ->
         items (addItem product state)
         = map (fun line =>
                  if Number.strict_equal (id line) (product_id product)
                  then {| id := id line; name := name line;
                          price := price line;
                          quantity :=
                            Number.add (quantity line) (Number.of_Z 1) |}
                  else line) (items state))
  /\ (forall id' n state,
         Number.le n (Number.of_Z 0) = true ->
         forall line,
           In line (items (updateQuantity id' n state))
           <-> In line (items state)
               /\ Number.strict_equal (id line) id' = false)
  /\ (forall id' n state,
         Number.le n (Number.of_Z 0) = false ->
         items (updateQuantity id' n state)
         = map (fun line =>
                  if Number.strict_equal (id line) id'
                  then {| id := id line; name := name line;
                          price := price line; quantity := n |}
                  else line) (items state))
  /\ (forall state, items (clearCart state) = [])
  /\ (forall state op,
         proper op = true ->
         quantities_positive state -> quantities_positive (apply state op))
  /\ (forall ops line,
         forallb proper ops = true ->
         In line (items (run ops initial)) ->
         Number.le (Number.of_Z 1) (quantity line) = true)
  /\ (forall state line,
         reachable state -> In line (items state) ->
         Number.le (quantity line) (Number.of_Z 0) = false).
Proof.
  split; [|split; [|split; [|split; [|split; [|split; [|split]]]]]].
  - intros product state Hfresh. unfold addItem.
    rewrite (proj2 (find_line_None _ _) Hfresh). reflexivity.
  - intros product state (line & Hin & Hid). unfold addItem.
    destruct (find _ (items state)) eqn:E; [reflexivity|].
    exfalso. rewrite (proj1 (find_line_None _ _) E line Hin) in Hid.
    discriminate Hid.
  - intros id' n state Hn line. unfold updateQuantity.
    rewrite Hn. simpl. rewrite filter_In, negb_true_iff. tauto.
  - intros id' n state Hn. unfold updateQuantity.
    rewrite Hn. reflexivity.
  - reflexivity.
  - intros state op. apply apply_preserves.
  - intros ops line Hops Hin.
    assert (Hpos : quantities_positive (run ops initial))
      by (apply run_preserves; [exact Hops | constructor]).
    unfold quantities_positive in Hpos. rewrite Forall_forall in Hpos.
    apply Hpos. now apply list_elem_of_In.
  - intros state line Hreach Hin.
    apply reachable_no_quantity_below in Hreach.
    unfold no_quantity_below in Hreach. rewrite Forall_forall in Hreach.
    apply Hreach. now apply list_elem_of_In.
Qed.

(** C9 at a concrete cart: two units of product 7, then a decrement to 1
    and a removal by quantity 0. *)
Lemma C9_cart_quantity_invariant_witness :
  let p := {| product_id := Number.of_Z 7; product_name := "cola";
              product_price := Number.of_Z 1500 |} in
  let state := run [AddItem p; AddItem p] initial in
  quantities_positive state
  /\ proper (UpdateQuantity (Number.of_Z 7) (Number.of_Z 1)) = true
  /\ quantities_positive
       (apply state (UpdateQuantity (Number.of_Z 7) (Number.of_Z 1)))
  /\ items (updateQuantity (Number.of_Z 7) (Number.of_Z 0) state) = []
  /\ Number.le (Number.of_Z 2) (Number.of_Z 0) = false.
Proof.
  intros p state.
  assert (quantities_positive state) as Hpos.
  { repeat constructor. }
  split; [exact Hpos|].
  split; [reflexivity|].
  split.
  - apply (proj1 (proj2 (proj2 (proj2 (proj2 (proj2
             C9_cart_quantity_invariant))))) state
             (UpdateQuantity (Number.of_Z 7) (Number.of_Z 1)));
      [reflexivity | exact Hpos].
  - split; [reflexivity|].
    apply (proj2 (proj2 (proj2 (proj2 (proj2 (proj2 (proj2
             C9_cart_quantity_invariant)))))) state
             {| id := Number.of_Z 7; name := "cola";
                price := Number.of_Z 1500; quantity := Number.of_Z 2 |}).
    + exists [AddItem p; AddItem p]. reflexivity.
    + left. reflexivity.
Defined.

(** C9 as the specification words it does not hold: [updateQuantity(7, 0.5)]
    passes the test [quantity <= 0] and stores the quantity 0.5, and
    [updateQuantity(7, NaN)] stores [NaN]; neither is at least 1. *)
Lemma C9_counterexample :
  let p := {| product_id := Number.of_Z 7; product_name := "cola";
              product_price := Number.of_Z 1500 |} in
  let state := run [AddItem p] initial in
  let halved := apply state (UpdateQuantity (Number.of_Z 7) Number.half) in
  let undefined :=
    apply state (UpdateQuantity (Number.of_Z 7) Number.NaN) in
  Number.add Number.half Number.half = Number.of_Z 1
  /\ quantities_positive state
  /\ reachable halved
  /\ map quantity (items halved) = [Number.half]
  /\ Number.le (Number.of_Z 1) Number.half = false
  /\ ~ quantities_positive halved
  /\ reachable undefined
  /\ map quantity (items undefined) = [Number.NaN]
  /\ Number.le (Number.of_Z 1) Number.NaN = false
  /\ ~ quantities_positive undefined.
Proof.
  intros p state halved undefined.
  split; [reflexivity|].
  split; [repeat constructor|].
  split; [exists [AddItem p; UpdateQuantity (Number.of_Z 7) Number.half];
          reflexivity|].
  split; [reflexivity|].
  split; [reflexivity|].
  split; [intros H; inversion H as [|? ? Hq _]; discriminate Hq|].
  split; [exists [AddItem p; UpdateQuantity (Number.of_Z 7) Number.NaN];
          reflexivity|].
  split; [reflexivity|].
  split; [reflexivity|].
  intros H; inversion H as [|? ? Hq _]; discriminate Hq.
Qed.

End CartClaims.

(* ===================================================================== *)
(** * Properties of the payment screen *)
(* ===================================================================== *)

Section NotificationLemmas.

Import PaymentScreen.

Lemma showNotification_log k m sub st :
  log (showNotification k m sub st) = log st.
Proof.
  unfold showNotification.
  destruct (isMounted st); simpl; [|reflexivity].
  destruct (notificationTimeoutRef st); reflexivity.
Qed.

Lemma showNotification_isMounted k m sub st :
  isMounted (showNotification k m sub st) = isMounted st.
Proof.
  unfold showNotification.
  destruct (isMounted st) eqn:E; simpl; [|exact E].
  destruct (notificationTimeoutRef st); simpl; exact E.
Qed.

Lemma showNotification_notification k m sub st :
  isMounted st = true ->
  notification (showNotification k m sub st)
  = Some {| type := k; message := m; submessage := sub |}.
Proof.
  intros Hm. unfold showNotification. rewrite Hm. simpl.
  destruct (notificationTimeoutRef st); reflexivity.
Qed.

Lemma showNotification_unmounted k m sub st :
  isMounted st = false -> showNotification k m sub st = st.
Proof. intros Hm. unfold showNotification. now rewrite Hm. Qed.

(** The notification is transient: its dismissal is pending under the
    handle the ref holds, [NOTIFICATION_DURATION] ms ahead. *)
Lemma showNotification_dismissal k m sub st :
  isMounted st = true ->
  exists handle,
    notificationTimeoutRef (showNotification k m sub st) = Some handle
    /\ timers (showNotification k m sub st) !! handle
       = Some {| callback := dismissNotification;
                 delay := NOTIFICATION_DURATION; repeating := false |}.
Proof.
  intros Hm. unfold showNotification. rewrite Hm. simpl.
  destruct (notificationTimeoutRef st); simpl;
    (eexists; split; [reflexivity | apply lookup_insert_eq]).
Qed.

Lemma showNotification_wsStatus k m sub st :
  wsStatus (showNotification k m sub st) = wsStatus st.
Proof.
  unfold showNotification.
  destruct (isMounted st); simpl; [|reflexivity].
  destruct (notificationTimeoutRef st); reflexivity.
Qed.


Lemma cancellations_emit e st :
  cancellations (emit e st)
  = (cancellations st + (if is_cancellation e then 1 else 0))%nat.
Proof.
  unfold cancellations, emit. simpl.
  rewrite List.filter_app, length_app. simpl.
  destruct (is_cancellation e); reflexivity.
Qed.

Lemma cancellations_log st st' :
  log st' = log st -> cancellations st' = cancellations st.
Proof. unfold cancellations. now intros ->. Qed.

End NotificationLemmas.

Section ChannelEventClaims.

Import PaymentScreen.

(** When the timeout of a notification fires on a mounted screen, the
    notification is gone, and so is the timeout; nothing is called. *)
Lemma dismissal_fires (API_URL : string) (WebSocket_accepts : string -> bool)
    (toISOString : Z -> string) (store : PaymentStore) (handle : positive)
    (delay' : Z) (st : State) :
  isMounted st = true ->
  timers st !! handle
  = Some {| callback := dismissNotification; delay := delay';
            repeating := false |} ->
  let dismissed :=
    step API_URL WebSocket_accepts toISOString store (ev_timer handle) st in
  notification dismissed = None
  /\ timers dismissed !! handle = None
  /\ log dismissed = log st.
Proof.
  intros Hm Ht dismissed. unfold dismissed, step. rewrite Ht.
  cbn [callback repeating run_callback].
  unfold dismissNotification_callback, clearTimer. cbn [isMounted set_timers].
  rewrite Hm. cbn.
  split; [reflexivity|]. split; [apply lookup_delete_eq | reflexivity].
Qed.

(** A notification is transient: its dismissal is pending under the handle
    the ref holds, [NOTIFICATION_DURATION] ms ahead, and when that timeout
    fires the notification is cleared. *)
Lemma showNotification_transient k m sub st :
  isMounted st = true ->
  let shown := showNotification k m sub st in
  exists handle,
    notificationTimeoutRef shown = Some handle
    /\ timers shown !! handle
       = Some {| callback := dismissNotification; delay := 3000;
                 repeating := false |}
    /\ forall API_URL WebSocket_accepts toISOString store,
         let dismissed :=
           step API_URL WebSocket_accepts toISOString store
             (ev_timer handle) shown in
         notification dismissed = None
         /\ timers dismissed !! handle = None
         /\ log dismissed = log shown.
Proof.
  intros Hm shown.
  destruct (showNotification_dismissal k m sub st Hm) as (h & Hr & Ht).
  exists h. split; [exact Hr|]. split; [exact Ht|].
  intros API_URL WebSocket_accepts toISOString store.
  apply (dismissal_fires _ _ _ _ h NOTIFICATION_DURATION); [|exact Ht].
  unfold shown. rewrite showNotification_isMounted. exact Hm.
Qed.

(** C4. On a mounted screen a channel event with status [FAILED] calls
    [setStatus("FAILED")], shows an error notification that is dismissed
    after [NOTIFICATION_DURATION] (its timeout is pending, and clears the
    notification when it fires), and starts no order cancellation; an
    event with status [EXPIRED] calls [setStatus("EXPIRED")], shows an
    error notification that is dismissed in the same way, and then starts
    the order cancellation. A [FAILED] event never starts a cancellation,
    mounted or not. *)
Theorem C4_failed_notifies_expired_cancels
    (message' : option string) (st : State) :
  isMounted st = true ->
  let failed := ws_onmessage (decoded (Some "FAILED") message') st in
  let expired := ws_onmessage (decoded (Some "EXPIRED") message') st in
  log failed = log st ++ [setStatus "FAILED"]
  /\ notification failed
     = Some {| type := error; message := "결제 실패";
               submessage := Some (or_else message' "결제가 실패했습니다.") |}
  /\ (exists handle,
         notificationTimeoutRef failed = Some handle
         /\ timers failed !! handle
            = Some {| callback := dismissNotification;
                      delay := 3000; repeating := false |}
         /\ forall API_URL WebSocket_accepts toISOString store,
              let dismissed :=
                step API_URL WebSocket_accepts toISOString store
                  (ev_timer handle) failed in
              notification dismissed = None
              /\ timers dismissed !! handle = None
              /\ log dismissed = log failed)
  /\ cancellations failed = cancellations st
  /\ log expired
     = log st ++ [setStatus "EXPIRED"; cancelOrderMutation_mutate]
  /\ notification expired
     = Some {| type := error; message := "결제 시간이 초과되었습니다.";
               submessage := None |}
  /\ (exists handle,
         notificationTimeoutRef expired = Some handle
         /\ timers expired !! handle
            = Some {| callback := dismissNotification;
                      delay := 3000; repeating := false |}
         /\ forall API_URL WebSocket_accepts toISOString store,
              let dismissed :=
                step API_URL WebSocket_accepts toISOString store
                  (ev_timer handle) expired in
              notification dismissed = None
              /\ timers dismissed !! handle = None
              /\ log dismissed = log expired)
  /\ cancellations expired = S (cancellations st)
  /\ (forall st0 : State,
         cancellations (ws_onmessage (decoded (Some "FAILED") message') st0)
         = cancellations st0).
Proof.
  intros Hm failed expired.
  assert (failed
          = showNotification error "결제 실패"
              (Some (or_else message' "결제가 실패했습니다."))
              (emit (setStatus "FAILED") st)) as Hf.
  { unfold failed, ws_onmessage. rewrite Hm. reflexivity. }
  assert (expired
          = handleCancel
              (showNotification error "결제 시간이 초과되었습니다." None
                 (emit (setStatus "EXPIRED") st))) as He.
  { unfold expired, ws_onmessage. rewrite Hm. reflexivity. }
  assert (isMounted (emit (setStatus "FAILED") st) = true) as Hmf
    by exact Hm.
  assert (isMounted (emit (setStatus "EXPIRED") st) = true) as Hme
    by exact Hm.
  assert (isMounted
            (showNotification error "결제 시간이 초과되었습니다." None
               (emit (setStatus "EXPIRED") st)) = true) as Hmn.
  { rewrite showNotification_isMounted. exact Hm. }
  split; [rewrite Hf, showNotification_log; reflexivity|].
  split; [rewrite Hf; now apply showNotification_notification|].
  split; [rewrite Hf; now apply showNotification_transient|].
  split.
  { rewrite Hf.
    rewrite (cancellations_log (emit (setStatus "FAILED") st))
      by apply showNotification_log.
    rewrite cancellations_emit. simpl. lia. }
  split.
  { rewrite He. unfold handleCancel. rewrite Hmn.
    unfold emit at 1. simpl. rewrite showNotification_log. simpl.
    rewrite <- app_assoc. reflexivity. }
  split.
  { rewrite He. unfold handleCancel. rewrite Hmn.
    unfold emit at 1. simpl. now apply showNotification_notification. }
  split.
  { rewrite He. unfold handleCancel. rewrite Hmn.
    destruct (showNotification_dismissal error
                "결제 시간이 초과되었습니다." None _ Hme) as (h & Hr & Ht).
    exists h. split; [exact Hr|]. split; [exact Ht|].
    intros API_URL WebSocket_accepts toISOString store.
    apply (dismissal_fires _ _ _ _ h NOTIFICATION_DURATION);
      [exact Hmn | exact Ht]. }
  split.
  { rewrite He. unfold handleCancel. rewrite Hmn.
    rewrite cancellations_emit. simpl.
    rewrite (cancellations_log (emit (setStatus "EXPIRED") st))
      by apply showNotification_log.
    rewrite cancellations_emit. simpl. lia. }
  intros st0. unfold ws_onmessage.
  destruct (isMounted st0); simpl; [|reflexivity].
  rewrite (cancellations_log (emit (setStatus "FAILED") st0))
    by apply showNotification_log.
  rewrite cancellations_emit. simpl. lia.
Qed.

(** C4 on a freshly mounted screen: the notification of a [FAILED] event
    is pending dismissal under handle 1, and is gone once that timeout has
    fired. *)
Lemma C4_failed_notifies_expired_cancels_witness :
  let failed := ws_onmessage (decoded (Some "FAILED") None) mounted in
  isMounted mounted = true
  /\ log failed = [setStatus "FAILED"]
  /\ log (ws_onmessage (decoded (Some "EXPIRED") None) mounted)
     = [setStatus "EXPIRED"; cancelOrderMutation_mutate]
  /\ notificationTimeoutRef failed = Some 1%positive
  /\ notification
       (example_run [(example_store 900, ev_timer 1%positive)] failed)
     = None.
Proof.
  intros failed.
  split; [reflexivity|].
  pose proof (C4_failed_notifies_expired_cancels None mounted eq_refl)
    as (Hf & _ & _ & _ & He & _).
  split; [exact Hf|]. split; [exact He|].
  split; reflexivity.
Defined.

(** The codes that name a member of [Object.prototype] are not keys of the
    table. *)
Lemma Object_prototype_not_own (c : string) :
  c ∈ Object_prototype -> ERROR_MESSAGES !! c = None.
Proof.
  unfold Object_prototype. intros H.
  repeat (apply elem_of_cons in H as [->|H]; [vm_compute; reflexivity|]).
  apply elem_of_nil in H. contradiction.
Qed.

(** Every message of the table is a non-empty string, so whatever the
    lookup [ERROR_MESSAGES[code]] returns is truthy. *)
Lemma ERROR_MESSAGES_truthy (c : string) :
  truthy_message (ERROR_MESSAGES_get c)
  = bool_decide (is_Some (ERROR_MESSAGES_get c)).
Proof.
  assert (map_Forall (fun _ m => String.eqb m "" = false) ERROR_MESSAGES)
    as Hall.
  { unfold ERROR_MESSAGES. simpl.
    repeat (apply map_Forall_insert_2; [reflexivity|]).
    apply map_Forall_empty. }
  unfold ERROR_MESSAGES_get.
  destruct (ERROR_MESSAGES !! c) as [m|] eqn:E; simpl.
  - rewrite (Hall c m E). reflexivity.
  - destruct (bool_decide (c ∈ Object_prototype)); reflexivity.
Qed.

(** What the lookup returns, by the kind of key. *)
Lemma ERROR_MESSAGES_get_cases (c : string) :
  (forall m, ERROR_MESSAGES !! c = Some m ->
             ERROR_MESSAGES_get c = Some (text m))
  /\ (c ∈ Object_prototype -> ERROR_MESSAGES_get c = Some (inherited c))
  /\ (ERROR_MESSAGES !! c = None -> c ∉ Object_prototype ->
      ERROR_MESSAGES_get c = None).
Proof.
  unfold ERROR_MESSAGES_get. split; [|split].
  - intros m ->. reflexivity.
  - intros Hin. rewrite (Object_prototype_not_own c Hin).
    now rewrite bool_decide_eq_true_2.
  - intros -> Hout. now rewrite bool_decide_eq_false_2.
Qed.

(** The message [cancelOrderMutation.onError] notifies, by the code of the
    response. *)
Lemma cancelOrderMutation_onError_message (err : MutationError) (st : State) :
  isMounted st = true ->
  notification (cancelOrderMutation_onError err st)
  = Some {| type := error;
            message :=
              match response_code err with
              | Some c =>
                  default (text "주문 취소 중 오류가 발생했습니다")
                    (ERROR_MESSAGES_get c)
              | None => text "주문 취소 중 오류가 발생했습니다"
              end;
            submessage := None |}.
Proof.
  intros Hm. unfold cancelOrderMutation_onError. rewrite Hm. cbn [negb].
  rewrite showNotification_notification by exact Hm.
  do 2 f_equal.
  destruct err as [[[[[[[c|]]|]]|] ac]|]; try reflexivity.
  unfold mapped_message. cbn.
  destruct (String.eqb c "") eqn:Ec; cbn; [reflexivity|].
  rewrite ERROR_MESSAGES_truthy.
  destruct (ERROR_MESSAGES_get c) as [m|]; reflexivity.
Qed.

(** C5. When the order-cancellation call settles while the screen is
    still mounted, whatever its outcome, the same cleanup follows:
    [cancelPayment()], [clearCart()] and navigation to the product
    listing, in that order and nothing else; a failed call shows an error
    notification before the cleanup and does not prevent it. The
    notification carries the message of the table for a listed code, and
    the generic message otherwise, except for a code that names a member of
    [Object.prototype], for which it carries that member. When the screen
    has been unmounted before the call settles, nothing follows. *)
Theorem C5_cancel_cleanup_runs (outcome : Outcome unit) (st : State) :
  let st' := cancelOrderMutation_settle outcome st in
  (isMounted st = true ->
   log st' = log st ++ [cancelPayment; clearCart; navigate "/products"]
   /\ match outcome with
      | resolved _ => notification st' = notification st
      | rejected err =>
          exists m,
            notification st'
            = Some {| type := error; message := m; submessage := None |}
            /\ (forall c t,
                   response_code err = Some c ->
                   ERROR_MESSAGES !! c = Some t -> m = text t)
            /\ (forall c,
                   response_code err = Some c -> c ∈ Object_prototype ->
                   m = inherited c)
            /\ (forall c,
                   response_code err = Some c ->
                   ERROR_MESSAGES !! c = None -> c ∉ Object_prototype ->
                   m = text "주문 취소 중 오류가 발생했습니다")
            /\ (response_code err = None ->
                m = text "주문 취소 중 오류가 발생했습니다")
      end)
  /\ (isMounted st = false -> st' = st).
Proof.
  intros st'. split.
  - intros Hm. unfold st', cancelOrderMutation_settle.
    destruct outcome as [[]|err].
    + unfold cancelOrderMutation_onSettled. rewrite Hm. simpl.
      split; [|reflexivity].
      rewrite <- !app_assoc. reflexivity.
    + pose proof (cancelOrderMutation_onError_message err st Hm) as Hnote.
      unfold cancelOrderMutation_onSettled.
      assert (Hm' : isMounted (cancelOrderMutation_onError err st) = true).
      { unfold cancelOrderMutation_onError. rewrite Hm. cbn [negb].
        rewrite showNotification_isMounted. exact Hm. }
      assert (Hlog : log (cancelOrderMutation_onError err st) = log st).
      { unfold cancelOrderMutation_onError. rewrite Hm. cbn [negb].
        apply showNotification_log. }
      rewrite Hm'. cbn [negb]. split.
      * cbn. rewrite Hlog, <- !app_assoc. reflexivity.
      * cbn. eexists. split; [exact Hnote|].
        split; [|split; [|split]].
        -- intros c t Hc Hown. rewrite Hc.
           now rewrite (proj1 (ERROR_MESSAGES_get_cases c) t Hown).
        -- intros c Hc Hin. rewrite Hc.
           now rewrite (proj1 (proj2 (ERROR_MESSAGES_get_cases c)) Hin).
        -- intros c Hc Hnone Hout. rewrite Hc.
           now rewrite (proj2 (proj2 (ERROR_MESSAGES_get_cases c))
                          Hnone Hout).
        -- intros ->. reflexivity.
  - intros Hm. unfold st', cancelOrderMutation_settle.
    destruct outcome as [[]|err].
    + unfold cancelOrderMutation_onSettled. now rewrite Hm.
    + unfold cancelOrderMutation_onError. rewrite Hm. cbn [negb].
      unfold cancelOrderMutation_onSettled. now rewrite Hm.
Qed.

Lemma C5_cancel_cleanup_runs_witness :
  isMounted mounted = true
  /\ log (cancelOrderMutation_settle (rejected otherError) mounted)
     = [cancelPayment; clearCart; navigate "/products"].
Proof.
  split; [reflexivity|].
  exact (proj1 (proj1 (C5_cancel_cleanup_runs (rejected otherError) mounted)
                  eq_refl)).
Defined.

(** C5 as the specification words it does not hold for every outcome: when
    the cancellation call is answered with status 401, the response
    interceptor of the API client signs the kiosk out before the rejection
    reaches the mutation; without a session the route [/payment] renders a
    redirect to [/login] instead of the payment screen, which is thereby
    unmounted; [onError] and [onSettled] then return at once. After the
    user's cancel, the unmount and the rejection, the only call made is the
    start of the cancellation: no [cancelPayment], no [clearCart], no
    navigation to the product listing, and no notification. *)
Lemma C5_counterexample :
  let session := Auth.signIn "kiosk-token" (Auth.rehydrate None) in
  let answered := Auth.response_error (Some 401) "/payment" session in
  let err :=
    axiosError {| response := Some {| data := None |};
                  axios_code := Some "ERR_BAD_REQUEST" |} in
  let store := example_store 900 in
  let st :=
    example_run
      [ (store, ev_handleCancel); (store, ev_unmount);
        (store, ev_cancelOrder_settled (rejected err)) ] mounted in
  Auth.element (Auth.authenticated session) Auth.payment = Auth.PaymentPage
  /\ Auth.authenticated answered.1 = false
  /\ Auth.element (Auth.authenticated answered.1) Auth.payment
     = Auth.Navigate "/login"
  /\ log st = [cancelOrderMutation_mutate]
  /\ notification st = None.
Proof.
  repeat split.
Qed.

End ChannelEventClaims.

Section CreationFailure.

Import PaymentScreen.




End CreationFailure.

Section CreationFailureClaim.

Import PaymentScreen.





End CreationFailureClaim.

Section IdentifierClaim.

Import PaymentScreen.

Ltac decimal d :=
  let H := fresh in
  assert (d = 0 \/ d = 1 \/ d = 2 \/ d = 3 \/ d = 4 \/ d = 5 \/ d = 6
          \/ d = 7 \/ d = 8 \/ d = 9) as H by lia;
  repeat (destruct H as [H|H]; [subst d|]); [..|subst d].

Lemma parseInt_one_digit (d : Z) :
  0 <= d <= 9 -> parseInt (String (digit_char d) EmptyString) = Some d.
Proof. intros Hd. decimal d; reflexivity. Qed.

Lemma parseInt_two_digits (d2 d3 : Z) :
  0 <= d2 <= 9 -> 0 <= d3 <= 9 ->
  parseInt (String (digit_char d2) (String (digit_char d3) EmptyString))
  = Some (10 * d2 + d3).
Proof. intros H2 H3. decimal d2; decimal d3; reflexivity. Qed.

(** On what the keypad can type, validation reads the digits as numbers:
    grade and room at least 1, number at least 1. *)
Lemma validateStudentId_keyed (d0 d1 d2 d3 : Z) :
  0 <= d0 <= 9 -> 0 <= d1 <= 9 -> 0 <= d2 <= 9 -> 0 <= d3 <= 9 ->
  validateStudentId (keyed d0 d1 d2 d3)
  = (1 <=? d0) && (1 <=? d1) && (1 <=? 10 * d2 + d3).
Proof.
  intros H0 H1 H2 H3. unfold validateStudentId, keyed.
  change (String.length _) with 4%nat. simpl negb. cbv iota.
  change (charAt 0 _) with (String (digit_char d0) EmptyString).
  change (charAt 1 _) with (String (digit_char d1) EmptyString).
  change (substring_from 2 _)
    with (String (digit_char d2) (String (digit_char d3) EmptyString)).
  rewrite !parseInt_one_digit, parseInt_two_digits by assumption.
  unfold between.
  replace (d0 <=? 9) with true by (symmetry; apply Z.leb_le; lia).
  replace (d1 <=? 9) with true by (symmetry; apply Z.leb_le; lia).
  replace (10 * d2 + d3 <=? 99) with true by (symmetry; apply Z.leb_le; lia).
  rewrite !andb_true_r. reflexivity.
Qed.

Lemma between_spec (lo hi : Z) (x : option Z) :
  between lo hi x = true <-> exists v, x = Some v /\ lo <= v <= hi.
Proof.
  destruct x as [v|]; simpl.
  - rewrite andb_true_iff, !Z.leb_le. split.
    + intros H. exists v. split; [reflexivity | lia].
    + intros (v' & [= <-] & H). lia.
  - split; [discriminate | intros (v & [=] & _)].
Qed.

(** Every character is one of the 256 code units. *)
Lemma code_units_all (c : ascii) : In c code_units.
Proof.
  unfold code_units. apply in_map_iff. exists (nat_of_ascii c).
  split; [apply ascii_nat_embedding|].
  apply in_seq. pose proof (nat_ascii_bounded c). lia.
Qed.

(** What [parseInt] makes of one character: a grade or a room is accepted
    exactly for the digits 1 to 9. *)
Lemma one_character (c : ascii) :
  between 1 9 (parseInt (String c EmptyString))
  = (49 <=? code_unit c)%nat && (code_unit c <=? 57)%nat.
Proof.
  assert (H : forallb
                (fun c =>
                   Bool.eqb (between 1 9 (parseInt (String c EmptyString)))
                     ((49 <=? code_unit c)%nat && (code_unit c <=? 57)%nat))
                code_units = true) by (vm_compute; reflexivity).
  rewrite forallb_forall in H.
  apply eqb_prop. apply H. apply code_units_all.
Qed.

(** What [parseInt] makes of two characters. *)
Lemma two_characters (c2 c3 : ascii) :
  between 1 99 (parseInt (String c2 (String c3 EmptyString)))
  = accepted_number c2 c3.
Proof.
  assert (H : forallb
                (fun c2 =>
                   forallb
                     (fun c3 =>
                        Bool.eqb
                          (between 1 99
                             (parseInt (String c2 (String c3 EmptyString))))
                          (accepted_number c2 c3))
                     code_units)
                code_units = true) by (vm_compute; reflexivity).
  rewrite forallb_forall in H.
  specialize (H c2 (code_units_all c2)).
  rewrite forallb_forall in H.
  apply eqb_prop. apply H. apply code_units_all.
Qed.

(** [validateStudentId] by the characters of the identifier. *)
Lemma validateStudentId_characters (id' : string) :
  validateStudentId id'
  = match id' with
    | String c0 (String c1 (String c2 (String c3 EmptyString))) =>
        (49 <=? code_unit c0)%nat && (code_unit c0 <=? 57)%nat
        && ((49 <=? code_unit c1)%nat && (code_unit c1 <=? 57)%nat)
        && accepted_number c2 c3
    | _ => false
    end.
Proof.
  destruct id' as [|c0 [|c1 [|c2 [|c3 [|c4 rest]]]]]; try reflexivity.
  unfold validateStudentId.
  change (String.length _) with 4%nat. cbn [Nat.eqb negb].
  change (charAt 0 _) with (String c0 EmptyString).
  change (charAt 1 _) with (String c1 EmptyString).
  change (substring_from 2 _) with (String c2 (String c3 EmptyString)).
  cbv zeta. now rewrite !one_character, two_characters.
Qed.

(** On four decimal digits the code and the specification agree. *)
Lemma validateStudentId_digits (c0 c1 c2 c3 : ascii) :
  is_decimal c0 = true -> is_decimal c1 = true ->
  is_decimal c2 = true -> is_decimal c3 = true ->
  validateStudentId
    (String c0 (String c1 (String c2 (String c3 EmptyString))))
  = spec_validStudentId
      (String c0 (String c1 (String c2 (String c3 EmptyString)))).
Proof.
  assert (H : forallb
                (fun c2 =>
                   forallb
                     (fun c3 =>
                        implb (is_decimal c2 && is_decimal c3)
                          (Bool.eqb (accepted_number c2 c3)
                             (match digit c2, digit c3 with
                              | Some tens, Some units =>
                                  (1 <=? 10 * tens + units)
                                  && (10 * tens + units <=? 99)
                              | _, _ => false
                              end)))
                     code_units)
                code_units = true) by (vm_compute; reflexivity).
  assert (H1 : forallb
                 (fun c =>
                    implb (is_decimal c)
                      (Bool.eqb
                         ((49 <=? code_unit c)%nat
                          && (code_unit c <=? 57)%nat)
                         (match digit c with
                          | Some v => (1 <=? v) && (v <=? 9)
                          | None => false
                          end)))
                 code_units = true) by (vm_compute; reflexivity).
  intros H0 H1' H2 H3.
  rewrite validateStudentId_characters.
  rewrite forallb_forall in H, H1.
  pose proof (H1 c0 (code_units_all c0)) as G0.
  pose proof (H1 c1 (code_units_all c1)) as G1.
  pose proof (H c2 (code_units_all c2)) as G.
  rewrite forallb_forall in G. specialize (G c3 (code_units_all c3)).
  rewrite H0 in G0. rewrite H1' in G1. rewrite H2, H3 in G.
  cbn [implb andb] in G0, G1, G.
  apply eqb_prop in G0, G1, G. rewrite G0, G1, G.
  unfold spec_validStudentId. unfold is_decimal in H0, H1', H2, H3.
  destruct (digit c0), (digit c1), (digit c2), (digit c3);
    try discriminate.
  now rewrite !andb_assoc.
Qed.

(** C7. [validateStudentId(id)] is true exactly when [id] has four
    characters, the first and the second a digit from 1 to 9, and
    [parseInt] reads the last two as a number from 1 to 99, which it does
    for two digits that are not both 0, for a digit from 1 to 9 followed
    by something that is no digit, and for a white space character or a
    plus sign followed by a digit from 1 to 9. On identifiers of four
    decimal digits this is the validation of the specification (grade and
    room in 1..9, number in 1..99), and whatever the specification accepts
    the code accepts. ["2314"] and ["9999"] validate, ["0099"] and
    ["5000"] do not; and submitting an identifier that fails validation,
    on a mounted screen, shows an info notification and starts no
    request. *)
Theorem C7_validateStudentId :
  (forall id' : string,
      validateStudentId id' = true
      <-> exists c0 c1 c2 c3,
            id' = String c0 (String c1 (String c2 (String c3 EmptyString)))
            /\ (49 <= code_unit c0 <= 57)%nat
            /\ (49 <= code_unit c1 <= 57)%nat
            /\ (((48 <= code_unit c2 <= 57)%nat
                 /\ (48 <= code_unit c3 <= 57)%nat
                 /\ ~ (code_unit c2 = 48%nat /\ code_unit c3 = 48%nat))
                \/ ((49 <= code_unit c2 <= 57)%nat
                    /\ ~ (48 <= code_unit c3 <= 57)%nat)
                \/ (((9 <= code_unit c2 <= 13)%nat
                     \/ code_unit c2 = 32%nat \/ code_unit c2 = 160%nat
                     \/ code_unit c2 = 43%nat)
                    /\ (49 <= code_unit c3 <= 57)%nat)))
  /\ (forall c0 c1 c2 c3,
         (48 <= code_unit c0 <= 57)%nat -> (48 <= code_unit c1 <= 57)%nat ->
         (48 <= code_unit c2 <= 57)%nat -> (48 <= code_unit c3 <= 57)%nat ->
         let id' :=
           String c0 (String c1 (String c2 (String c3 EmptyString))) in
         validateStudentId id' = spec_validStudentId id')
  /\ (forall id' : string,
         spec_validStudentId id' = true -> validateStudentId id' = true)
  /\ validateStudentId "2314" = true
  /\ validateStudentId "9999" = true
  /\ validateStudentId "0099" = false
  /\ validateStudentId "5000" = false
  /\ (forall st : State,
         isMounted st = true ->
         validateStudentId (studentId st) = false ->
         let st' := handleStudentIdSubmit st in
         log st' = log st
         /\ notification st'
            = Some {| type := info; message := "올바른 학번 형식이 아닙니다";
                      submessage := None |}).
Proof.
  assert (Hdecimal : forall c,
             is_decimal c = true <-> (48 <= code_unit c <= 57)%nat).
  { intros c. unfold is_decimal, digit, code_unit.
    destruct (Z.leb_spec 48 (Z.of_nat (nat_of_ascii c)));
      destruct (Z.leb_spec (Z.of_nat (nat_of_ascii c)) 57); simpl;
      split; (discriminate || lia || reflexivity). }
  split.
  { intros id'. rewrite validateStudentId_characters. split.
    - destruct id' as [|c0 [|c1 [|c2 [|c3 [|c4 rest]]]]];
        try discriminate.
      intros H. exists c0, c1, c2, c3. split; [reflexivity|].
      unfold accepted_number in H. cbv zeta in H.
      repeat rewrite ?andb_true_iff, ?orb_true_iff, ?negb_true_iff,
        ?andb_false_iff, ?Nat.leb_le, ?Nat.leb_gt, ?Nat.eqb_eq,
        ?Nat.eqb_neq in H.
      lia.
    - intros (c0 & c1 & c2 & c3 & -> & H0 & H1 & H).
      unfold accepted_number. cbv zeta.
      repeat rewrite ?andb_true_iff, ?orb_true_iff, ?negb_true_iff,
        ?andb_false_iff, ?Nat.leb_le, ?Nat.leb_gt, ?Nat.eqb_eq,
        ?Nat.eqb_neq.
      lia. }
  split.
  { intros c0 c1 c2 c3 H0 H1 H2 H3 id'.
    apply validateStudentId_digits; now apply Hdecimal. }
  split.
  { intros id' Hspec.
    destruct id' as [|c0 [|c1 [|c2 [|c3 [|c4 rest]]]]];
      try discriminate Hspec.
    rewrite validateStudentId_digits; [exact Hspec|..];
      unfold spec_validStudentId in Hspec; unfold is_decimal;
      destruct (digit c0), (digit c1), (digit c2), (digit c3);
      try discriminate Hspec; reflexivity. }
  split; [reflexivity|].
  split; [reflexivity|].
  split; [reflexivity|].
  split; [reflexivity|].
  intros st Hm Hinvalid st'. unfold st', handleStudentIdSubmit.
  rewrite Hm, Hinvalid. simpl.
  split; [apply showNotification_log|].
  now apply showNotification_notification.
Qed.

(** C7 at the identifier ["5000"], typed on a mounted screen. *)
Lemma C7_validateStudentId_witness :
  let st := set_studentId "5000" mounted in
  isMounted st = true
  /\ validateStudentId (studentId st) = false
  /\ log (handleStudentIdSubmit st) = []
  /\ notification (handleStudentIdSubmit st)
     = Some {| type := info; message := "올바른 학번 형식이 아닙니다";
               submessage := None |}.
Proof.
  intros st.
  split; [reflexivity|].
  split; [reflexivity|].
  exact (proj2 (proj2 (proj2 (proj2 (proj2 (proj2 (proj2
           C7_validateStudentId))))))
           st eq_refl eq_refl).
Defined.

(** C7 as the specification words it does not hold: ["115x"], ["11 5"]
    and ["11+5"] are not four digits, so their last two characters form no
    number from 1 to 99, yet [validateStudentId] accepts them, and
    submitting ["115x"] starts the request. *)
Lemma C7_counterexample :
  validateStudentId "115x" = true
  /\ spec_validStudentId "115x" = false
  /\ validateStudentId "11 5" = true
  /\ spec_validStudentId "11 5" = false
  /\ validateStudentId "11+5" = true
  /\ spec_validStudentId "11+5" = false
  /\ log (handleStudentIdSubmit (set_studentId "115x" mounted))
     = [studentIdPaymentMutation_mutate "115x"].
Proof.
  repeat split.
Qed.

End IdentifierClaim.

Section CreationSuccessClaim.

Import PaymentScreen.

Variable toISOString : Z -> string.

Lemma or_else_None (d : string) : or_else None d = d.
Proof. reflexivity. Qed.

Lemma or_else_Some (s d : string) : s <> "" -> or_else (Some s) d = s.
Proof.
  intros Hs. unfold or_else.
  destruct (String.eqb_spec s ""); [contradiction | reflexivity].
Qed.

(** C10. On a mounted screen a successful payment creation stores exactly
    one request. Its expiry is the response's [expiresAt], or, when the
    response omits it, the ISO string of now + 15 minutes; its display
    token is the response's [token], or, when the response omits it, the
    empty string for the QR method and the typed student id for the
    student-id method. *)
Theorem C10_creation_success_defaults
    (data' : PaymentResponse) (now : Z) (st : State) :
  isMounted st = true ->
  let fallback := toISOString (now + 900000) in
  let qr := qrPaymentMutation_onSuccess toISOString data' now st in
  let sid := studentIdPaymentMutation_onSuccess toISOString data' now st in
  (exists tok exp,
      log qr
      = log st ++ [setPaymentRequest (id data') tok "PENDING" QR_CODE exp]
      /\ (expiresAt data' = None -> exp = fallback)
      /\ (forall e, expiresAt data' = Some e -> e <> "" -> exp = e)
      /\ (token data' = None -> tok = "")
      /\ (forall t, token data' = Some t -> t <> "" -> tok = t))
  /\ (exists tok exp,
         log sid
         = log st
           ++ [setPaymentRequest (id data') tok "PENDING" STUDENT_ID exp]
         /\ (expiresAt data' = None -> exp = fallback)
         /\ (forall e, expiresAt data' = Some e -> e <> "" -> exp = e)
         /\ (token data' = None -> tok = studentId st)
         /\ (forall t, token data' = Some t -> t <> "" -> tok = t)).
Proof.
  intros Hm fallback qr sid. split.
  - exists (or_else (token data') ""), (or_else (expiresAt data') fallback).
    split.
    { unfold qr, qrPaymentMutation_onSuccess. rewrite Hm. reflexivity. }
    split; [intros ->; apply or_else_None|].
    split; [intros e -> He; now apply or_else_Some|].
    split; [intros ->; apply or_else_None|].
    intros t -> Ht. now apply or_else_Some.
  - exists (or_else (token data') (studentId st)),
           (or_else (expiresAt data') fallback).
    split.
    { unfold sid, studentIdPaymentMutation_onSuccess. rewrite Hm. simpl.
      rewrite showNotification_log. reflexivity. }
    split; [intros ->; apply or_else_None|].
    split; [intros e -> He; now apply or_else_Some|].
    split; [intros ->; apply or_else_None|].
    intros t -> Ht. now apply or_else_Some.
Qed.

End CreationSuccessClaim.

Section CreationSuccessWitness.

Import PaymentScreen.

(** C10 at a response that carries only an id, received at time 1000 by a
    screen on which 2314 was typed. *)
Lemma C10_creation_success_defaults_witness :
  let iso := fun ms : Z => if ms =? 901000 then "1970-01-01T00:15:01.000Z"
                           else "" in
  let data' := {| id := Some "req-1"; token := None; expiresAt := None |} in
  let st := set_studentId "2314" mounted in
  isMounted st = true
  /\ log (qrPaymentMutation_onSuccess iso data' 1000 st)
     = [setPaymentRequest (Some "req-1") "" "PENDING" QR_CODE
          "1970-01-01T00:15:01.000Z"]
  /\ log (studentIdPaymentMutation_onSuccess iso data' 1000 st)
     = [setPaymentRequest (Some "req-1") "2314" "PENDING" STUDENT_ID
          "1970-01-01T00:15:01.000Z"].
Proof.
  intros iso data' st.
  pose proof (C10_creation_success_defaults iso data' 1000 st eq_refl)
    as [(tok & exp & Hlog & Hexp & _ & Htok & _)
        (tok' & exp' & Hlog' & Hexp' & _ & Htok' & _)].
  split; [reflexivity|].
  split.
  - rewrite Hlog, (Hexp eq_refl), (Htok eq_refl). reflexivity.
  - rewrite Hlog', (Hexp' eq_refl), (Htok' eq_refl). reflexivity.
Defined.

End CreationSuccessWitness.

Section ChannelInvariant.

Import PaymentScreen.

Variable API_URL : string.
Variable WebSocket_accepts : string -> bool.
Variable toISOString : Z -> string.

Lemma benign_refl st : benign st st.
Proof. repeat split; auto. Qed.

Lemma benign_trans st1 st2 st3 :
  benign st1 st2 -> benign st2 st3 -> benign st1 st3.
Proof.
  intros (Hr1 & Ha1 & Ht1) (Hr2 & Ha2 & Ht2). repeat split.
  - congruence.
  - congruence.
  - intros h t Hl Hrec. apply Ht1; [|exact Hrec]. now apply Ht2.
Qed.

Lemma benign_invariant st st' :
  benign st st' -> channel_invariant st -> channel_invariant st'.
Proof.
  intros (Hr & Ha & Ht) [Htr [Hb Hmax]]. split; [|split].
  - intros h t Hl Hrec. rewrite Hr. apply (Htr h t); auto.
  - rewrite Ha. exact Hb.
  - rewrite Ha. intros Hamax h t Hl.
    destruct (is_reconnect t) eqn:Hrec; [|reflexivity].
    rewrite <- Hrec. apply (Hmax Hamax h t). now apply Ht.
Qed.

(** Solves the timer clause of [benign] once the handler is unfolded: the
    timers of the new state are inserts of other callbacks and deletes. *)
Ltac timers_only_shrink :=
  let h := fresh "h" in
  let t := fresh "t" in
  let Hl := fresh "Hl" in
  let Hrec := fresh "Hrec" in
  intros h t Hl Hrec;
  repeat first
    [ progress simplify_eq/=
    | match type of Hl with
      | <[_ := _]> _ !! _ = Some _ =>
          rewrite lookup_insert in Hl; case_decide
      | delete _ _ !! _ = Some _ =>
          rewrite lookup_delete in Hl; case_decide
      end ];
  try discriminate; try assumption.

Ltac benign_by_cases :=
  repeat split; simpl; try reflexivity; try timers_only_shrink.

Lemma emit_benign e st : benign st (emit e st).
Proof. benign_by_cases. Qed.

Lemma showNotification_benign k m sub st :
  benign st (showNotification k m sub st).
Proof.
  unfold showNotification.
  destruct (isMounted st); simpl; [|apply benign_refl].
  destruct (notificationTimeoutRef st); benign_by_cases.
Qed.

Ltac unfold_handlers :=
  repeat progress unfold handleCancel, cancelOrderMutation_settle,
    cancelOrderMutation_onSettled, cancelOrderMutation_onError,
    qrPaymentMutation_onError, studentIdPaymentMutation_onError,
    creation_onError, qrPaymentMutation_onSuccess,
    studentIdPaymentMutation_onSuccess, timerEffect, timerEffect_cleanup,
    tick_callback, dismissNotification_callback, ws_onmessage, ws_onerror,
    handleStudentIdSubmit, handleMethodChange, ErrorAction_onClick,
    handleRetry, handleKeypadPress, qrEffect, createQrPaymentRequest,
    connectWebSocket, close_socket, set_readyState, showNotification,
    setTimer, clearTimer, emit in *.

Ltac benign_handler :=
  unfold_handlers; repeat case_match; simplify_eq/=; benign_by_cases.

Lemma handleCancel_benign st : benign st (handleCancel st).
Proof. benign_handler. Qed.

Lemma cancelOrderMutation_settle_benign outcome st :
  benign st (cancelOrderMutation_settle outcome st).
Proof. benign_handler. Qed.

Lemma creation_onError_benign generic err st :
  benign st (creation_onError generic err st).
Proof. benign_handler. Qed.

Lemma qrPaymentMutation_onSuccess_benign data' now st :
  benign st (qrPaymentMutation_onSuccess toISOString data' now st).
Proof. benign_handler. Qed.

Lemma studentIdPaymentMutation_onSuccess_benign data' now st :
  benign st (studentIdPaymentMutation_onSuccess toISOString data' now st).
Proof. benign_handler. Qed.

Lemma timerEffect_benign store st :
  benign st (timerEffect store (timerEffect_cleanup st)).
Proof. benign_handler. Qed.

Lemma tick_callback_benign st : benign st (tick_callback st).
Proof. benign_handler. Qed.

Lemma dismissNotification_callback_benign st :
  benign st (dismissNotification_callback st).
Proof. benign_handler. Qed.

Lemma connectWebSocket_benign requestId' wsStatus' st :
  benign st (connectWebSocket API_URL WebSocket_accepts requestId' wsStatus' st).
Proof. benign_handler. Qed.

Lemma ws_onmessage_benign frame st : benign st (ws_onmessage frame st).
Proof. benign_handler. Qed.

Lemma ws_onerror_benign st : benign st (ws_onerror st).
Proof. benign_handler. Qed.

Lemma set_readyState_benign socket rs st :
  benign st (set_readyState socket rs st).
Proof. benign_handler. Qed.

Lemma handleStudentIdSubmit_benign st :
  benign st (handleStudentIdSubmit st).
Proof. benign_handler. Qed.

Lemma handleMethodChange_benign method qrPending studentIdPending st :
  benign st (handleMethodChange method qrPending studentIdPending st).
Proof. benign_handler. Qed.

Lemma handleRetry_benign st : benign st (handleRetry st).
Proof. benign_handler. Qed.

Lemma ErrorAction_onClick_benign action st :
  benign st (ErrorAction_onClick action st).
Proof. benign_handler. Qed.

Lemma handleKeypadPress_benign key st :
  benign st (handleKeypadPress key st).
Proof. benign_handler. Qed.

Lemma qrEffect_benign store qrPending st :
  benign st (qrEffect store qrPending st).
Proof. benign_handler. Qed.

(** With no reconnection ref, or once the timeout of the ref is cleared,
    no reconnection is pending. *)
Lemma tracked_cleared (st : State) (tm : gmap positive Timer) :
  tracked st ->
  tm = match wsReconnectTimeoutRef st with
       | Some handle => delete handle (timers st)
       | None => timers st
       end ->
  forall handle t, tm !! handle = Some t -> is_reconnect t = false.
Proof.
  intros Htr -> h t Hl.
  destruct (is_reconnect t) eqn:Hrec; [exfalso|reflexivity].
  destruct (wsReconnectTimeoutRef st) as [h0|] eqn:Href.
  - rewrite lookup_delete in Hl. case_decide; [discriminate|].
    destruct (Htr h t Hl Hrec) as [Heq _]. congruence.
  - destruct (Htr h t Hl Hrec) as [Heq _]. congruence.
Qed.

Lemma ws_onopen_invariant st :
  channel_invariant st -> channel_invariant (ws_onopen st).
Proof.
  intros Hinv. pose proof Hinv as [Htr [Hb Hmax]]. unfold ws_onopen.
  destruct (isMounted st); [|exact Hinv].
  split; [exact Htr|]. split; simpl.
  - unfold MAX_RECONNECT_ATTEMPTS. lia.
  - unfold MAX_RECONNECT_ATTEMPTS. discriminate.
Qed.

Lemma reset_attempts_invariant st :
  channel_invariant st ->
  channel_invariant (set_wsReconnectAttemptsRef 0 st).
Proof.
  intros [Htr _]. split; [exact Htr|]. split; simpl.
  - unfold MAX_RECONNECT_ATTEMPTS. lia.
  - unfold MAX_RECONNECT_ATTEMPTS. discriminate.
Qed.

Lemma handleReconnectWebSocket_invariant store st :
  channel_invariant st ->
  channel_invariant
    (handleReconnectWebSocket API_URL WebSocket_accepts store st).
Proof.
  intros Hinv. unfold handleReconnectWebSocket.
  destruct (isMounted st); [|exact Hinv].
  eapply benign_invariant; [apply connectWebSocket_benign|].
  now apply reset_attempts_invariant.
Qed.

Lemma ws_onclose_invariant requestId' wsStatus' wasClean st :
  channel_invariant st ->
  channel_invariant (ws_onclose requestId' wsStatus' wasClean st).
Proof.
  intros Hinv. pose proof Hinv as [Htr [Hb Hmax]]. unfold ws_onclose.
  destruct (isMounted st) eqn:Hm; simpl; [|exact Hinv].
  destruct wasClean; [exact Hinv|]. rewrite Hm.
  destruct (wsReconnectAttemptsRef st <? MAX_RECONNECT_ATTEMPTS) eqn:Hlt;
    simpl; [|exact Hinv].
  destruct (truthy requestId'); simpl; [|exact Hinv].
  apply Z.ltb_lt in Hlt.
  pose proof (tracked_cleared st _ Htr eq_refl) as Hnone.
  unfold setTimer, clearTimer.
  destruct (wsReconnectTimeoutRef st) as [h0|] eqn:Href; simpl.
  - split; [|split]; simpl.
    + intros h t Hl Hrec. simpl in Hl |- *.
      rewrite lookup_insert in Hl. case_decide.
      * simplify_eq. now split.
      * rewrite (Hnone h t Hl) in Hrec. discriminate.
    + exact Hb.
    + intros Heq. lia.
  - split; [|split]; simpl.
    + intros h t Hl Hrec. simpl in Hl |- *.
      rewrite lookup_insert in Hl. case_decide.
      * simplify_eq. now split.
      * rewrite (Hnone h t Hl) in Hrec. discriminate.
    + exact Hb.
    + intros Heq. lia.
Qed.

(** Dropping the reconnection ref together with its timeout. *)
Lemma clear_reconnect_invariant st :
  channel_invariant st ->
  channel_invariant
    (match wsReconnectTimeoutRef st with
     | Some handle => set_wsReconnectTimeoutRef None (clearTimer handle st)
     | None => st
     end).
Proof.
  intros Hinv. pose proof Hinv as [Htr [Hb Hmax]].
  pose proof (tracked_cleared st _ Htr eq_refl) as Hnone.
  destruct (wsReconnectTimeoutRef st) as [h0|] eqn:Href; [|exact Hinv].
  split; [|split]; simpl.
  - intros h t Hl Hrec. simpl in Hl.
    rewrite (Hnone h t Hl) in Hrec. discriminate.
  - exact Hb.
  - intros _ h t Hl. simpl in Hl. exact (Hnone h t Hl).
Qed.

Lemma wsEffect_invariant store st :
  channel_invariant st ->
  channel_invariant (wsEffect API_URL WebSocket_accepts store st).
Proof.
  intros Hinv. unfold wsEffect.
  destruct (truthy (requestId store)
            && negb (bool_decide (wsStatus st = CONNECTED))
            && isMounted st).
  - eapply benign_invariant; [apply connectWebSocket_benign | exact Hinv].
  - destruct (negb (truthy (requestId store))); [|exact Hinv].
    apply clear_reconnect_invariant.
    eapply benign_invariant; [|exact Hinv].
    destruct (isMounted st), (webSocketRef st); benign_handler.
Qed.

Lemma clear_notificationTimeout_benign st :
  benign st
    (match notificationTimeoutRef st with
     | Some handle => set_notificationTimeoutRef None (clearTimer handle st)
     | None => st
     end).
Proof. benign_handler. Qed.

Lemma clear_timerInterval_benign st :
  benign st
    (match timerIntervalRef st with
     | Some handle => set_timerIntervalRef None (clearTimer handle st)
     | None => st
     end).
Proof. benign_handler. Qed.

Lemma drop_socket_benign st :
  benign st
    (match webSocketRef st with
     | Some socket => set_webSocketRef None (close_socket socket st)
     | None => st
     end).
Proof. benign_handler. Qed.

Lemma unmount_invariant st :
  channel_invariant st -> channel_invariant (unmount st).
Proof.
  intros Hinv. unfold unmount. cbv zeta.
  eapply benign_invariant; [apply drop_socket_benign|].
  apply clear_reconnect_invariant.
  eapply benign_invariant; [apply clear_timerInterval_benign|].
  eapply benign_invariant; [apply clear_notificationTimeout_benign|].
  eapply benign_invariant; [|exact Hinv]. benign_handler.
Qed.

Lemma timer_fires_invariant handle st :
  channel_invariant st ->
  channel_invariant
    (match timers st !! handle with
     | Some t =>
         run_callback API_URL WebSocket_accepts (callback t)
           (if repeating t then st else clearTimer handle st)
     | None => st
     end).
Proof.
  intros Hinv. pose proof Hinv as [Htr [Hb Hmax]].
  destruct (timers st !! handle) as [t|] eqn:Hl; [|exact Hinv].
  assert (benign st (if repeating t then st else clearTimer handle st))
    as Hben.
  { destruct (repeating t); [apply benign_refl | benign_handler]. }
  destruct (callback t) as [|requestId' wsStatus'|] eqn:Hcb; simpl.
  - eapply benign_invariant; [|exact Hinv].
    eapply benign_trans; [exact Hben|].
    apply dismissNotification_callback_benign.
  - assert (is_reconnect t = true) as Hrec
      by (unfold is_reconnect; now rewrite Hcb).
    destruct (Htr handle t Hl Hrec) as [Href Hrep]. rewrite Hrep.
    unfold reconnect_callback.
    change (isMounted (clearTimer handle st)) with (isMounted st).
    destruct (isMounted st).
    + eapply benign_invariant; [apply connectWebSocket_benign|].
      pose proof (tracked_cleared st (delete handle (timers st)) Htr) as Hnone.
      rewrite Href in Hnone. specialize (Hnone eq_refl).
      assert (wsReconnectAttemptsRef st <> MAX_RECONNECT_ATTEMPTS) as Hne.
      { intros Heq. rewrite (Hmax Heq handle t Hl) in Hrec. discriminate. }
      split; [|split]; simpl.
      * intros h t' Hl' Hrec'. simpl in Hl'.
        rewrite (Hnone h t' Hl') in Hrec'. discriminate.
      * unfold MAX_RECONNECT_ATTEMPTS in *. lia.
      * intros _ h t' Hl'. simpl in Hl'. exact (Hnone h t' Hl').
    + eapply benign_invariant; [|exact Hinv]. benign_handler.
  - eapply benign_invariant; [|exact Hinv].
    eapply benign_trans; [exact Hben|]. apply tick_callback_benign.
Qed.

Lemma step_invariant store ev st :
  channel_invariant st ->
  channel_invariant (step API_URL WebSocket_accepts toISOString store ev st).
Proof.
  intros Hinv. destruct ev; simpl.
  - now apply unmount_invariant.
  - eapply benign_invariant; [apply timerEffect_benign | exact Hinv].
  - now apply wsEffect_invariant.
  - eapply benign_invariant; [apply qrEffect_benign | exact Hinv].
  - now apply timer_fires_invariant.
  - destruct (sockets st !! socket) as [[u [] r w]|]; try exact Hinv.
    apply ws_onopen_invariant.
    eapply benign_invariant; [apply set_readyState_benign | exact Hinv].
  - destruct (sockets st !! socket) as [[u [] r w]|]; try exact Hinv;
      (eapply benign_invariant; [apply ws_onmessage_benign | exact Hinv]).
  - destruct (sockets st !! socket) as [[u [] r w]|]; try exact Hinv;
      (eapply benign_invariant; [apply ws_onerror_benign | exact Hinv]).
  - destruct (sockets st !! socket) as [[u [] r w]|]; try exact Hinv;
      (apply ws_onclose_invariant;
       eapply benign_invariant; [apply set_readyState_benign | exact Hinv]).
  - eapply benign_invariant; [apply handleCancel_benign | exact Hinv].
  - now apply handleReconnectWebSocket_invariant.
  - eapply benign_invariant; [apply handleStudentIdSubmit_benign | exact Hinv].
  - eapply benign_invariant; [apply handleMethodChange_benign | exact Hinv].
  - eapply benign_invariant; [apply handleRetry_benign | exact Hinv].
  - destruct (renderErrorAction st); [|exact Hinv].
    eapply benign_invariant; [apply ErrorAction_onClick_benign | exact Hinv].
  - eapply benign_invariant; [apply handleKeypadPress_benign | exact Hinv].
  - eapply benign_invariant;
      [apply cancelOrderMutation_settle_benign | exact Hinv].
  - destruct outcome.
    + eapply benign_invariant;
        [apply qrPaymentMutation_onSuccess_benign | exact Hinv].
    + eapply benign_invariant; [apply creation_onError_benign | exact Hinv].
  - destruct outcome.
    + eapply benign_invariant;
        [apply studentIdPaymentMutation_onSuccess_benign | exact Hinv].
    + eapply benign_invariant; [apply creation_onError_benign | exact Hinv].
Qed.

Lemma mounted_invariant : channel_invariant mounted.
Proof.
  split; [|split].
  - intros h t Hl. simpl in Hl. rewrite lookup_empty in Hl. discriminate.
  - simpl. unfold MAX_RECONNECT_ATTEMPTS. lia.
  - intros _ h t Hl. simpl in Hl. rewrite lookup_empty in Hl. discriminate.
Qed.

Lemma run_invariant events st :
  channel_invariant st ->
  channel_invariant (run API_URL WebSocket_accepts toISOString events st).
Proof.
  revert st. induction events as [|[store ev] events IH]; intros st Hinv.
  - exact Hinv.
  - simpl. apply IH. now apply step_invariant.
Qed.

Lemma reachable_invariant st :
  reachable API_URL WebSocket_accepts toISOString st -> channel_invariant st.
Proof. intros [events ->]. apply run_invariant, mounted_invariant. Qed.

(** With the reconnection ref tracking the only pending reconnection,
    the pending reconnections after scheduling one are exactly that one. *)
Lemma pending_reconnects_singleton (tm : gmap positive Timer)
    (handle : positive) (t : Timer) :
  is_reconnect t = true ->
  (forall h t', tm !! h = Some t' -> is_reconnect t' = false) ->
  filter (fun entry => is_reconnect (snd entry) = true) (<[handle := t]> tm)
  = {[ handle := t ]}.
Proof.
  intros Hrec Hnone. apply map_eq. intros k.
  destruct (decide (k = handle)) as [->|Hne].
  - rewrite lookup_singleton_eq.
    apply map_lookup_filter_Some. split; [apply lookup_insert_eq | exact Hrec].
  - rewrite lookup_singleton_ne by congruence.
    apply map_lookup_filter_None. right. intros t' Hl. simpl.
    rewrite lookup_insert_ne in Hl by congruence.
    rewrite (Hnone k t' Hl). discriminate.
Qed.

Lemma pending_reconnects_empty (tm : gmap positive Timer) :
  (forall h t', tm !! h = Some t' -> is_reconnect t' = false) ->
  filter (fun entry : positive * Timer => is_reconnect (snd entry) = true) tm
  = ∅.
Proof.
  intros Hnone. apply map_eq. intros k. rewrite lookup_empty.
  apply map_lookup_filter_None. right. intros t' Hl. simpl.
  rewrite (Hnone k t' Hl). discriminate.
Qed.

Ltac closure_of_lookup :=
  repeat first
    [ progress simplify_eq/=
    | match goal with
      | Hl : <[_ := _]> _ !! _ = Some _ |- _ =>
          rewrite lookup_insert in Hl; case_decide
      | Hl : delete _ _ !! _ = Some _ |- _ =>
          rewrite lookup_delete in Hl; case_decide
      | Hl : alter _ _ _ !! _ = Some _ |- _ =>
          rewrite lookup_alter in Hl; case_decide
      | Hl : _ <$> _ = Some _ |- _ =>
          apply fmap_Some in Hl; destruct Hl as (? & Hl & ?)
      end ].

Lemma step_closures_wf store ev st :
  closures_wf st ->
  closures_wf (step API_URL WebSocket_accepts toISOString store ev st).
Proof.
  intros [Hwf Hrwf].
  destruct ev; simpl; unfold run_callback, reconnect_callback, ws_onopen,
    ws_onclose, wsEffect, handleReconnectWebSocket, unmount,
    cancelOrderMutation_settle; unfold_handlers; cbv zeta.
  all: repeat case_match; simplify_eq/=.
  all: split; [intros sk ws Hl | intros hd tm rq wq Hl Hcb]; simpl in *.
  all: closure_of_lookup.
  all: try (eapply Hwf; eassumption).
  all: try (eapply Hrwf; eassumption).
  all: try match goal with
           | Hl : sockets _ !! _ = Some ?x |- closure_ok (closing ?x) =>
               let H1 := fresh in
               let H2 := fresh in
               pose proof (Hwf _ _ Hl) as [H1 H2];
               unfold closing; destruct (readyState x); split; simpl;
               assumption
           end.
  all: try match goal with
           | Hl : sockets _ !! _ = Some _ |- _ =>
               let H1 := fresh in
               let H2 := fresh in
               pose proof (Hwf _ _ Hl) as [H1 H2];
               split; simpl in *; assumption
           end.
  all: try match goal with
           | Hg : negb (truthy _) || negb _ = false |- _ =>
               apply orb_false_elim in Hg; destruct Hg as [Hg _];
               apply negb_false_iff in Hg;
               split; simpl; [exact Hg | auto]
           end.
Qed.

Lemma mounted_closures_wf : closures_wf mounted.
Proof.
  split.
  - intros sk ws Hl. simpl in Hl. rewrite lookup_empty in Hl. discriminate.
  - intros h t rq wq Hl. simpl in Hl. rewrite lookup_empty in Hl.
    discriminate.
Qed.

Lemma reachable_closures_wf st :
  reachable API_URL WebSocket_accepts toISOString st -> closures_wf st.
Proof.
  intros [events ->].
  assert (forall st0, closures_wf st0 ->
            closures_wf
              (run API_URL WebSocket_accepts toISOString events st0)) as Hrun.
  { induction events as [|[store ev] events IH]; intros st0 Hwf.
    - exact Hwf.
    - simpl. apply IH. now apply step_closures_wf. }
  apply Hrun, mounted_closures_wf.
Qed.

Lemma connection_attempts_emit e st :
  connection_attempts (emit e st)
  = (connection_attempts st + (if is_connection e then 1 else 0))%nat.
Proof.
  unfold connection_attempts, emit. simpl.
  rewrite List.filter_app, length_app. simpl.
  destruct (is_connection e); reflexivity.
Qed.

(** Past its guards, [connectWebSocket] opens exactly one socket. *)
Lemma connectWebSocket_opens requestId' wsStatus' st :
  isMounted st = true ->
  truthy requestId' = true ->
  wsStatus' = DISCONNECTED \/ wsStatus' = FAILED ->
  WebSocket_accepts (wsUrl API_URL (or_else requestId' "")) = true ->
  let st' :=
    connectWebSocket API_URL WebSocket_accepts requestId' wsStatus' st in
  connection_attempts st' = S (connection_attempts st)
  /\ wsStatus st' = CONNECTING
  /\ wsReconnectAttemptsRef st' = wsReconnectAttemptsRef st
  /\ timers st' = timers st.
Proof.
  intros Hm Hrq Hws Hacc st'. unfold st', connectWebSocket.
  rewrite Hm, Hrq. simpl.
  assert (forall s0 : State,
            connection_attempts
              (set_webSocketRef (Some (nextHandle s0))
                 (set_sockets
                    (<[nextHandle s0 :=
                         {| url := wsUrl API_URL (or_else requestId' "");
                            readyState := WS_CONNECTING;
                            closure_requestId := requestId';
                            closure_wsStatus := wsStatus' |}]> (sockets s0))
                    (set_nextHandle (nextHandle s0 + 1)
                       (emit (new_WebSocket
                                (wsUrl API_URL (or_else requestId' ""))) s0))))
            = S (connection_attempts s0)) as Hnew.
  { intros s0. unfold connection_attempts. simpl.
    rewrite List.filter_app, length_app. simpl. lia. }
  destruct Hws as [-> | ->]; rewrite Hacc.
  all: destruct (webSocketRef st) as [sk|] eqn:Hsk; simpl; rewrite ?Hsk;
    [destruct (sockets st !! sk) as [w|] eqn:Hw; simpl; rewrite ?Hw;
     [destruct (readyState w)|]|].
  all: simpl; rewrite ?Hacc; simpl.
  all: repeat split; try reflexivity.
  all: unfold connection_attempts, close_socket, emit; simpl;
    rewrite ?List.filter_app, ?length_app; simpl; lia.
Qed.

(** The connection effect treats [FAILED] like [DISCONNECTED]: run on a
    mounted screen with a request id after the close handler gave up, it
    opens a socket at once. *)
Lemma wsEffect_reconnects_after_FAILED store st :
  isMounted st = true ->
  truthy (requestId store) = true ->
  wsStatus st = FAILED ->
  WebSocket_accepts (wsUrl API_URL (or_else (requestId store) "")) = true ->
  let st' := wsEffect API_URL WebSocket_accepts store st in
  connection_attempts st' = S (connection_attempts st)
  /\ wsStatus st' = CONNECTING
  /\ wsReconnectAttemptsRef st' = wsReconnectAttemptsRef st.
Proof.
  intros Hm Hrq Hws Hacc st'. unfold st', wsEffect.
  rewrite Hm, Hrq, Hws. simpl.
  destruct (connectWebSocket_opens (requestId store) FAILED st Hm Hrq
              (or_intror eq_refl) Hacc) as (H1 & H2 & H3 & _).
  auto.
Qed.

End ChannelInvariant.

Section ReconnectionClaims.

Import PaymentScreen.

Variable API_URL : string.
Variable WebSocket_accepts : string -> bool.
Variable toISOString : Z -> string.

(** An unclean close event on a socket that is not closed yet runs the
    close handler with the closure of the socket. *)
Lemma step_unclean_close store socket ws st :
  sockets st !! socket = Some ws ->
  readyState ws <> WS_CLOSED ->
  step API_URL WebSocket_accepts toISOString store (ev_close socket false) st
  = ws_onclose (closure_requestId ws) (closure_wsStatus ws) false
      (set_readyState socket WS_CLOSED st).
Proof.
  intros Hl Hrs. simpl. rewrite Hl.
  destruct ws as [u rs rq wq]. simpl in *.
  destruct rs; try reflexivity. contradiction.
Qed.

(** What an unclean close does below the attempt limit, and what the
    reconnection it schedules does when it fires. *)
Lemma unclean_close_below_limit
    (store : PaymentStore) (st : State) (socket : positive)
    (ws : WebSocket) :
  reachable API_URL WebSocket_accepts toISOString st ->
  isMounted st = true ->
  sockets st !! socket = Some ws ->
  readyState ws <> WS_CLOSED ->
  wsReconnectAttemptsRef st < 3 ->
  let attempts := wsReconnectAttemptsRef st in
  let st' := step API_URL WebSocket_accepts toISOString store (ev_close socket false) st in
  exists handle,
    wsReconnectTimeoutRef st' = Some handle
    /\ pending_reconnects st'
       = {[ handle :=
              {| callback :=
                   reconnect (closure_requestId ws) (closure_wsStatus ws);
                 delay := Z.min (3000 * (attempts + 1)) 10000;
                 repeating := false |} ]}
    /\ wsReconnectAttemptsRef st' = attempts
    /\ wsStatus st' = DISCONNECTED
    /\ (let fired := step API_URL WebSocket_accepts toISOString store (ev_timer handle) st' in
        wsReconnectAttemptsRef fired = attempts + 1
        /\ pending_reconnects fired = ∅
        /\ (WebSocket_accepts
              (wsUrl API_URL (or_else (closure_requestId ws) "")) = true ->
            connection_attempts fired = S (connection_attempts st')
            /\ wsStatus fired = CONNECTING))
    /\ (forall st0 socket0 ws0,
           isMounted st0 = true ->
           sockets st0 !! socket0 = Some ws0 ->
           readyState ws0 = WS_CONNECTING ->
           let opened := step API_URL WebSocket_accepts toISOString store (ev_open socket0) st0 in
           wsReconnectAttemptsRef opened = 0
           /\ wsStatus opened = CONNECTED).
Proof.
  intros Hreach Hm Hl Hrs Hlt attempts st'.
  pose proof (reachable_invariant _ _ _ _ Hreach) as [Htr _].
  pose proof (reachable_closures_wf _ _ _ _ Hreach) as [Hwf _].
  destruct (Hwf socket ws Hl) as [Hrq Hwq].
  pose proof (tracked_cleared st _ Htr eq_refl) as Hnone.
  unfold st'. rewrite (step_unclean_close store socket ws st Hl Hrs).
  unfold ws_onclose.
  change (isMounted (set_readyState socket WS_CLOSED st)) with (isMounted st).
  rewrite Hm. simpl.
  change (wsReconnectAttemptsRef st <? MAX_RECONNECT_ATTEMPTS)
    with (wsReconnectAttemptsRef st <? 3).
  rewrite (proj2 (Z.ltb_lt _ _) Hlt), Hrq, Hm. simpl.
  unfold setTimer, clearTimer. fold attempts.
  set (t := {| callback :=
                 reconnect (closure_requestId ws) (closure_wsStatus ws);
               delay := Z.min (WS_RECONNECT_DELAY * (attempts + 1)) 10000;
               repeating := false |}).
  exists (nextHandle st).
  assert (is_reconnect t = true) as Hrec by reflexivity.
  destruct (wsReconnectTimeoutRef st) as [h0|] eqn:Href; simpl.
  all: split; [reflexivity|].
  all: split;
    [unfold pending_reconnects; simpl;
     now apply pending_reconnects_singleton|].
  all: split; [reflexivity|].
  all: split; [reflexivity|].
  all: split.
  all: try (intros st0 socket0 ws0 Hm0 Hl0 Hrs0; simpl; rewrite Hl0;
            destruct ws0 as [u rs rq wq]; simpl in Hrs0; subst rs;
            unfold ws_onopen;
            change (isMounted (set_readyState socket0 WS_OPEN st0))
              with (isMounted st0);
            rewrite Hm0; split; reflexivity).
  all: simpl; rewrite lookup_insert_eq; simpl; unfold reconnect_callback;
    simpl; rewrite Hm.
  all: match goal with
       | |- context [connectWebSocket _ _ _ _ ?s] =>
           pose proof (connectWebSocket_benign API_URL WebSocket_accepts
                         (closure_requestId ws) (closure_wsStatus ws) s)
             as (_ & Hatt & Htm);
           pose proof (connectWebSocket_opens API_URL WebSocket_accepts
                         (closure_requestId ws) (closure_wsStatus ws) s
                         Hm Hrq Hwq) as Hopen
       end.
  all: split; [rewrite Hatt; reflexivity|].
  all: split;
    [apply pending_reconnects_empty; intros h t' Hl';
     destruct (is_reconnect t') eqn:Hrec'; [|reflexivity];
     pose proof (Htm h t' Hl' Hrec') as Hold; simpl in Hold;
     unfold clearTimer in Hold; simpl in Hold;
     rewrite lookup_delete in Hold; case_decide; [discriminate|];
     rewrite lookup_insert_ne in Hold by congruence;
     rewrite (Hnone h t' Hold) in Hrec'; discriminate|].
  all: intros Hacc; destruct (Hopen Hacc) as (Hc & Hs & _); split;
    [rewrite Hc; reflexivity | exact Hs].
Qed.

(** C3. On a mounted screen, an unclean close of a socket while fewer
    than 3 attempts have been made leaves exactly one reconnection pending
    (any earlier pending one is cleared first), due after
    min(3000 × (attempts + 1), 10000) ms and held by the reconnection ref;
    the counter is incremented when that reconnection fires, which is also
    when the new socket is opened; and an open event resets the counter
    to 0. *)
Theorem C3_unclean_close_schedules_one_reconnect
    (store : PaymentStore) (st : State) (socket : positive)
    (ws : WebSocket) :
  reachable API_URL WebSocket_accepts toISOString st ->
  isMounted st = true ->
  sockets st !! socket = Some ws ->
  readyState ws <> WS_CLOSED ->
  wsReconnectAttemptsRef st < 3 ->
  let attempts := wsReconnectAttemptsRef st in
  let st' := step API_URL WebSocket_accepts toISOString store (ev_close socket false) st in
  exists handle,
    wsReconnectTimeoutRef st' = Some handle
    /\ pending_reconnects st'
       = {[ handle :=
              {| callback :=
                   reconnect (closure_requestId ws) (closure_wsStatus ws);
                 delay := Z.min (3000 * (attempts + 1)) 10000;
                 repeating := false |} ]}
    /\ wsReconnectAttemptsRef st' = attempts
    /\ wsStatus st' = DISCONNECTED
    /\ (let fired := step API_URL WebSocket_accepts toISOString store (ev_timer handle) st' in
        wsReconnectAttemptsRef fired = attempts + 1
        /\ pending_reconnects fired = ∅
        /\ (WebSocket_accepts
              (wsUrl API_URL (or_else (closure_requestId ws) "")) = true ->
            connection_attempts fired = S (connection_attempts st')
            /\ wsStatus fired = CONNECTING))
    /\ (forall st0 socket0 ws0,
           isMounted st0 = true ->
           sockets st0 !! socket0 = Some ws0 ->
           readyState ws0 = WS_CONNECTING ->
           let opened := step API_URL WebSocket_accepts toISOString store (ev_open socket0) st0 in
           wsReconnectAttemptsRef opened = 0
           /\ wsStatus opened = CONNECTED).
Proof. apply unclean_close_below_limit. Qed.

(** C2, as the code has it. On a mounted screen an unclean close while
    the attempt counter is below 3 sets the status to [DISCONNECTED] and
    leaves a reconnection pending; an unclean close once the counter has
    reached 3 (after three reconnections have fired without an open in
    between) sets the status to [FAILED], leaves no reconnection pending
    and opens no socket. [handleReconnectWebSocket] then resets the counter
    to 0 and, with a request id, opens exactly one new socket. *)
Theorem C2_failed_once_attempts_exhausted
    (store : PaymentStore) (st : State) (socket : positive)
    (ws : WebSocket) :
  reachable API_URL WebSocket_accepts toISOString st ->
  isMounted st = true ->
  sockets st !! socket = Some ws ->
  readyState ws <> WS_CLOSED ->
  let st' :=
    step API_URL WebSocket_accepts toISOString store
      (ev_close socket false) st in
  (wsReconnectAttemptsRef st < 3 ->
   wsStatus st' = DISCONNECTED /\ pending_reconnects st' <> ∅)
  /\ (3 <= wsReconnectAttemptsRef st ->
      wsStatus st' = FAILED
      /\ pending_reconnects st' = ∅
      /\ connection_attempts st' = connection_attempts st
      /\ let st'' :=
           step API_URL WebSocket_accepts toISOString store
             ev_handleReconnectWebSocket st' in
         wsReconnectAttemptsRef st'' = 0
         /\ (truthy (requestId store) = true ->
             WebSocket_accepts
               (wsUrl API_URL (or_else (requestId store) "")) = true ->
             connection_attempts st'' = S (connection_attempts st')
             /\ wsStatus st'' = CONNECTING)).
Proof.
  intros Hreach Hm Hl Hrs st'. split.
  - intros Hlt.
    destruct (unclean_close_below_limit store st socket ws Hreach Hm Hl Hrs
                Hlt)
      as (handle & _ & Hpending & _ & Hstatus & _).
    fold st' in Hpending, Hstatus. split; [exact Hstatus|].
    rewrite Hpending. intros Hempty.
    apply (f_equal (fun m => m !! handle)) in Hempty.
    rewrite lookup_singleton_eq, lookup_empty in Hempty. discriminate.
  - intros Hge.
    pose proof (reachable_invariant _ _ _ _ Hreach) as [Htr [Hb Hmax]].
    unfold MAX_RECONNECT_ATTEMPTS in Hb, Hmax.
    assert (wsReconnectAttemptsRef st = 3) as Heq by lia.
    assert (st' = set_wsStatus FAILED
                    (set_wsStatus DISCONNECTED
                       (set_readyState socket WS_CLOSED st))) as Hst'.
    { unfold st'. rewrite (step_unclean_close store socket ws st Hl Hrs).
      unfold ws_onclose.
      change (isMounted (set_readyState socket WS_CLOSED st))
        with (isMounted st).
      rewrite Hm. simpl. rewrite Heq. reflexivity. }
    rewrite Hst'. split; [reflexivity|].
    split.
    { apply pending_reconnects_empty. simpl. exact (Hmax Heq). }
    split; [reflexivity|].
    simpl. unfold handleReconnectWebSocket. simpl. rewrite Hm.
    match goal with
    | |- context [connectWebSocket _ _ _ _ ?s] =>
        pose proof (connectWebSocket_benign API_URL WebSocket_accepts
                      (requestId store) FAILED s) as (_ & Hatt & _);
        pose proof (connectWebSocket_opens API_URL WebSocket_accepts
                      (requestId store) FAILED s Hm) as Hopen
    end.
    split; [rewrite Hatt; reflexivity|].
    intros Hrq Hacc.
    destruct (Hopen Hrq (or_intror eq_refl) Hacc) as (Hc & Hs & _).
    split; [rewrite Hc; reflexivity | exact Hs].
Qed.

End ReconnectionClaims.

Section ReconnectionExamples.

Import PaymentScreen.

(** C3 at the first unclean close of the first socket of request
    [req-1]: one reconnection pending, due in 3000 ms. *)
Lemma C3_unclean_close_schedules_one_reconnect_witness :
  let store := example_store 900 in
  let st := example_run [(store, ev_wsEffect)] mounted in
  let ws :=
    {| url := "ws://kiosk.local:8080/ws/payment-requests/req-1";
       readyState := WS_CONNECTING;
       closure_requestId := Some "req-1";
       closure_wsStatus := DISCONNECTED |} in
  isMounted st = true
  /\ sockets st !! 1%positive = Some ws
  /\ wsReconnectAttemptsRef st < 3
  /\ exists handle,
       pending_reconnects
         (step example_API_URL example_accepts example_toISOString store
            (ev_close 1 false) st)
       = {[ handle :=
              {| callback := reconnect (Some "req-1") DISCONNECTED;
                 delay := 3000; repeating := false |} ]}.
Proof.
  intros store st ws.
  assert (reachable example_API_URL example_accepts example_toISOString st)
    as Hreach by (exists [(store, ev_wsEffect)]; reflexivity).
  assert (isMounted st = true) as Hm by reflexivity.
  assert (sockets st !! 1%positive = Some ws) as Hl
    by (vm_compute; reflexivity).
  assert (readyState ws <> WS_CLOSED) as Hrs by discriminate.
  assert (wsReconnectAttemptsRef st < 3) as Hlt by (vm_compute; reflexivity).
  destruct (C3_unclean_close_schedules_one_reconnect
              example_API_URL example_accepts example_toISOString
              store st 1%positive ws Hreach Hm Hl Hrs Hlt)
    as (handle & _ & Hpending & _).
  split; [exact Hm|]. split; [exact Hl|]. split; [exact Hlt|].
  exists handle. exact Hpending.
Defined.

(** Three consecutive unclean closes without an open in between, for the
    one request [req-1], first as React runs the screen (the connection
    effect re-runs after each status change), then with the scheduled
    reconnections alone doing the reconnecting: in both the status is
    [DISCONNECTED], not [FAILED], and a reconnection is pending. *)
Lemma C2_counterexample :
  let store := example_store 900 in
  let rendered :=
    example_run
      [ (store, ev_wsEffect); (store, ev_wsEffect);
        (store, ev_close 1 false);
        (store, ev_wsEffect); (store, ev_wsEffect);
        (store, ev_close 3 false);
        (store, ev_wsEffect); (store, ev_wsEffect);
        (store, ev_close 5 false) ] mounted in
  let timed :=
    example_run
      [ (store, ev_wsEffect);
        (store, ev_close 1 false); (store, ev_timer 2);
        (store, ev_close 3 false); (store, ev_timer 4);
        (store, ev_close 5 false) ] mounted in
  (wsStatus rendered = DISCONNECTED
   /\ wsStatus rendered <> FAILED
   /\ wsReconnectAttemptsRef rendered = 0
   /\ pending_reconnects rendered
      = {[ 6%positive :=
             {| callback := reconnect (Some "req-1") DISCONNECTED;
                delay := 3000; repeating := false |} ]}
   /\ wsStatus (example_run [(store, ev_wsEffect)] rendered) = CONNECTING)
  /\ (wsStatus timed = DISCONNECTED
      /\ wsStatus timed <> FAILED
      /\ wsReconnectAttemptsRef timed = 2
      /\ pending_reconnects timed
         = {[ 6%positive :=
                {| callback := reconnect (Some "req-1") DISCONNECTED;
                   delay := 9000; repeating := false |} ]}).
Proof.
  intros store rendered timed.
  assert (wsStatus rendered = DISCONNECTED) as Hr by (vm_compute; reflexivity).
  assert (wsStatus timed = DISCONNECTED) as Ht by (vm_compute; reflexivity).
  split.
  - split; [exact Hr|]. split; [rewrite Hr; discriminate|].
    split; [vm_compute; reflexivity|].
    split; vm_compute; reflexivity.
  - split; [exact Ht|]. split; [rewrite Ht; discriminate|].
    split; vm_compute; reflexivity.
Qed.

(** C2 at the fourth consecutive unclean close: the first socket and the
    three reconnections the timeouts made have all closed uncleanly. *)
Lemma C2_failed_once_attempts_exhausted_witness :
  let store := example_store 900 in
  let events :=
    [ (store, ev_wsEffect);
      (store, ev_close 1 false); (store, ev_timer 2);
      (store, ev_close 3 false); (store, ev_timer 4);
      (store, ev_close 5 false); (store, ev_timer 6) ] in
  let st := example_run events mounted in
  let ws :=
    {| url := "ws://kiosk.local:8080/ws/payment-requests/req-1";
       readyState := WS_CONNECTING;
       closure_requestId := Some "req-1";
       closure_wsStatus := DISCONNECTED |} in
  let st' :=
    step example_API_URL example_accepts example_toISOString store
      (ev_close 7 false) st in
  isMounted st = true
  /\ sockets st !! 7%positive = Some ws
  /\ wsReconnectAttemptsRef st = 3
  /\ wsStatus st' = FAILED
  /\ pending_reconnects st' = ∅
  /\ wsReconnectAttemptsRef
       (step example_API_URL example_accepts example_toISOString store
          ev_handleReconnectWebSocket st') = 0
  /\ connection_attempts
       (step example_API_URL example_accepts example_toISOString store
          ev_handleReconnectWebSocket st')
     = S (connection_attempts st').
Proof.
  intros store events st ws st'.
  assert (reachable example_API_URL example_accepts example_toISOString st)
    as Hreach by (exists events; reflexivity).
  assert (isMounted st = true) as Hm by reflexivity.
  assert (sockets st !! 7%positive = Some ws) as Hl
    by (vm_compute; reflexivity).
  assert (readyState ws <> WS_CLOSED) as Hrs by discriminate.
  assert (wsReconnectAttemptsRef st = 3) as Heq by (vm_compute; reflexivity).
  assert (3 <= wsReconnectAttemptsRef st) as Hge by (rewrite Heq; lia).
  destruct (C2_failed_once_attempts_exhausted
              example_API_URL example_accepts example_toISOString
              store st 7%positive ws Hreach Hm Hl Hrs) as [_ Hfailed].
  destruct (Hfailed Hge) as (Hs & Hp & _ & Ha & Hopen).
  destruct (Hopen eq_refl eq_refl) as [Hc _].
  split; [exact Hm|]. split; [exact Hl|]. split; [exact Heq|].
  split; [exact Hs|]. split; [exact Hp|]. split; [exact Ha | exact Hc].
Defined.

End ReconnectionExamples.

Section DeadlineClaim.

Import PaymentScreen.

Lemma handleCancel_mounted st :
  isMounted st = true ->
  cancellations (handleCancel st) = S (cancellations st)
  /\ isMounted (handleCancel st) = true.
Proof.
  intros Hm. unfold handleCancel. rewrite Hm.
  rewrite cancellations_emit. simpl. split; [lia | exact Hm].
Qed.

(** With no time left on an active session, the deadline effect starts the
    cancellation. *)
Lemma timerEffect_cancels store st :
  isMounted st = true -> isActive store = true -> timer store <= 0 ->
  cancellations (timerEffect store st) = S (cancellations st)
  /\ isMounted (timerEffect store st) = true.
Proof.
  intros Hm Hact Hzero. unfold timerEffect. rewrite Hact, Hm. simpl.
  rewrite (proj2 (Z.ltb_ge 0 (timer store)) Hzero).
  rewrite (proj2 (Z.leb_le (timer store) 0) Hzero). simpl.
  destruct (handleCancel_mounted st Hm) as [Hc Hm'].
  rewrite Hm', andb_true_r.
  destruct (String.eqb (status store) "COMPLETED").
  - rewrite cancellations_emit. simpl. split; [lia | exact Hm'].
  - split; [exact Hc | exact Hm'].
Qed.

(** So does an [EXPIRED] event of the channel. *)
Lemma expired_cancels message' st :
  isMounted st = true ->
  let st' := ws_onmessage (decoded (Some "EXPIRED") message') st in
  cancellations st' = S (cancellations st) /\ isMounted st' = true.
Proof.
  intros Hm st'. unfold st', ws_onmessage. rewrite Hm. simpl.
  assert (isMounted
            (showNotification error "결제 시간이 초과되었습니다." None
               (emit (setStatus "EXPIRED") st)) = true) as Hm'.
  { rewrite showNotification_isMounted. exact Hm. }
  destruct (handleCancel_mounted _ Hm') as [Hc Hm''].
  split; [|exact Hm''].
  rewrite Hc.
  rewrite (cancellations_log (emit (setStatus "EXPIRED") st))
    by apply showNotification_log.
  rewrite cancellations_emit. simpl. lia.
Qed.

(** C1, as the code has it. On a mounted screen, a run of the deadline
    effect while the session is active with no time left starts the order
    cancellation, and so does a channel event [EXPIRED]; neither looks at
    whether a cancellation was started before, so when both fire, in either
    order, the cancellation is started twice. After unmount neither starts
    it. *)
Theorem C1_each_trigger_starts_cancellation
    (store : PaymentStore) (message' : option string) (st : State) :
  isMounted st = true -> isActive store = true -> timer store <= 0 ->
  let expired := ws_onmessage (decoded (Some "EXPIRED") message') in
  cancellations (timerEffect store st) = S (cancellations st)
  /\ cancellations (expired st) = S (cancellations st)
  /\ cancellations (expired (timerEffect store st)) = S (S (cancellations st))
  /\ cancellations (timerEffect store (expired st)) = S (S (cancellations st))
  /\ (forall st0,
         isMounted st0 = false ->
         cancellations (timerEffect store st0) = cancellations st0
         /\ cancellations (expired st0) = cancellations st0).
Proof.
  intros Hm Hact Hzero expired.
  destruct (timerEffect_cancels store st Hm Hact Hzero) as [Ht Hmt].
  destruct (expired_cancels message' st Hm) as [He Hme].
  split; [exact Ht|]. split; [exact He|].
  split.
  { destruct (expired_cancels message' _ Hmt) as [He' _].
    unfold expired. rewrite He', Ht. reflexivity. }
  split.
  { destruct (timerEffect_cancels store _ Hme Hact Hzero) as [Ht' _].
    unfold expired. rewrite Ht', He. reflexivity. }
  intros st0 Hm0. split.
  - unfold timerEffect. rewrite Hact, Hm0. simpl.
    rewrite (proj2 (Z.ltb_ge 0 (timer store)) Hzero).
    rewrite !andb_false_r. simpl. rewrite Hm0, andb_false_r. reflexivity.
  - unfold expired, ws_onmessage. rewrite Hm0. reflexivity.
Qed.

(** The deadline reaches 0 on an active session and the effect starts the
    cancellation; before that call settles the channel delivers [EXPIRED]:
    the cancellation is started a second time. *)
Lemma C1_counterexample :
  let st :=
    example_run
      [ (example_store 900, ev_wsEffect);
        (example_store 900, ev_open 1);
        (example_store 0, ev_timerEffect);
        (example_store 0, ev_message 1 (decoded (Some "EXPIRED") None)) ]
      mounted in
  cancellations st = 2%nat
  /\ log st
     = [ new_WebSocket "ws://kiosk.local:8080/ws/payment-requests/req-1";
         cancelOrderMutation_mutate;
         setStatus "EXPIRED";
         cancelOrderMutation_mutate ].
Proof. split; vm_compute; reflexivity. Qed.

Lemma C1_each_trigger_starts_cancellation_witness :
  let store := example_store 0 in
  let expired := ws_onmessage (decoded (Some "EXPIRED") None) in
  isMounted mounted = true
  /\ isActive store = true
  /\ timer store <= 0
  /\ cancellations (timerEffect store mounted) = 1%nat
  /\ cancellations (expired (timerEffect store mounted)) = 2%nat.
Proof.
  intros store expired.
  assert (timer store <= 0) as Hzero by (simpl; lia).
  destruct (C1_each_trigger_starts_cancellation store None mounted
              eq_refl eq_refl Hzero) as (Ht & _ & Hboth & _).
  split; [reflexivity|]. split; [reflexivity|]. split; [exact Hzero|].
  split; [exact Ht | exact Hboth].
Defined.

End DeadlineClaim.
